(** * CarnageReport stats pipeline: playlist classification, outcome engine,
      ranking replay and processed-state ledger

    Shallow embedding of the ranking core of [populate_stats.py] (module
    [Current]) and of the variant kept in [BACKUPpopulate_stats.py] (module
    [Backup]), with the properties of the specification stated over it.

    Conventions.
    - Python [str] is modelled by [string] (a sequence of bytes); [strip],
      [lower] and [upper] are [str.strip], [str.lower] and [str.upper] on
      ASCII text, and leave the bytes of other characters as they are.
    - Python [int] is [Z]; a JSON number is an [int] or a binary64 [float]
      (Rocq's primitive floats, which are IEEE 754 binary64 as CPython's).
    - A Python [dict] with string keys is a [gmap string _]; [d.get(k, v)] is
      [default v (d !! k)]; a JSON [null] and a missing key are both [None]
      where the code reads them through [.get].
    - A statement that can raise is an [option]; [None] is the exception. *)

From Stdlib Require Import ZArith Strings.Ascii Strings.String Sorting.Sorted.
From Stdlib Require Import Floats.PrimFloat Floats.SpecFloat Floats.FloatOps.
From stdpp Require Import base option list gmap strings pretty.

Open Scope Z_scope.

(** ** Python runtime helpers *)
Module Py.

(** Characters removed by [str.strip()] (and skipped by [int()] and
    [float()]) in the ASCII range. *)
Definition is_space (a : ascii) : bool :=
  let n := nat_of_ascii a in
  ((9 <=? n)%nat && (n <=? 13)%nat) || ((28 <=? n)%nat && (n <=? 32)%nat).

Fixpoint lstrip (s : string) : string :=
  match s with
  | String a s' => if is_space a then lstrip s' else s
  | EmptyString => EmptyString
  end.

(** [rstrip] drops the trailing run of white space. *)
Fixpoint rstrip (s : string) : string :=
  match s with
  | EmptyString => EmptyString
  | String a s' =>
      match rstrip s' with
      | EmptyString => if is_space a then EmptyString else String a EmptyString
      | r => String a r
      end
  end.

Definition strip (s : string) : string := rstrip (lstrip s).

Definition lower_ascii (a : ascii) : ascii :=
  let n := nat_of_ascii a in
  if ((65 <=? n)%nat && (n <=? 90)%nat) then ascii_of_nat (n + 32) else a.

Fixpoint lower (s : string) : string :=
  match s with
  | EmptyString => EmptyString
  | String a s' => String (lower_ascii a) (lower s')
  end.

(** [sub in s] for strings. *)
Fixpoint contains (sub s : string) : bool :=
  String.prefix sub s ||
  match s with
  | EmptyString => false
  | String _ s' => contains sub s'
  end.

(** [s.split(sep)] for a one-character separator: always at least one
    part, empty parts kept. *)
Fixpoint split (sep : ascii) (s : string) : list string :=
  match s with
  | EmptyString => [EmptyString]
  | String a s' =>
      if Ascii.eqb a sep then EmptyString :: split sep s'
      else match split sep s' with
           | p :: ps => String a p :: ps
           | [] => [String a EmptyString]
           end
  end.

Definition digit_of (a : ascii) : option Z :=
  let n := nat_of_ascii a in
  if ((48 <=? n)%nat && (n <=? 57)%nat) then Some (Z.of_nat n - 48) else None.

(** A digit part of a numeric literal: decimal digits, a single underscore
    allowed between two digits.  Returns the value and the number of
    digits read.  [acc] is the value so far, [cnt] the digits so far and
    [us] tells that the previous character was an underscore. *)
Fixpoint digitpart_go (s : string) (acc : Z) (cnt : Z) (us : bool) : option (Z * Z) :=
  match s with
  | EmptyString => if us then None else Some (acc, cnt)
  | String a s' =>
      match digit_of a with
      | Some d => digitpart_go s' (10 * acc + d) (cnt + 1) false
      | None =>
          if Ascii.eqb a "_" then
            if us || (cnt =? 0) then None else digitpart_go s' acc cnt true
          else None
      end
  end.

Definition digitpart (s : string) : option (Z * Z) :=
  match s with
  | EmptyString => None
  | _ => digitpart_go s 0 0 false
  end.

(** An optional sign; returns [true] for a minus and the rest. *)
Definition sign_of (s : string) : bool * string :=
  match s with
  | String "-" s' => (true, s')
  | String "+" s' => (false, s')
  | _ => (false, s)
  end.

Definition apply_sign (neg : bool) (z : Z) : Z := if neg then - z else z.

(** [sys.int_info.default_max_str_digits]: the most digits that [int]
    converts from a string (CPython 3.11, and the security releases of 3.7
    to 3.10).  Leading zeros count; the sign, the underscores and the white
    space around do not. *)
Definition MAX_STR_DIGITS : Z := 4300.

(** [int(s)] on a string, base 10; [None] is [ValueError]: of a text that
    is no integer literal, or of one with more than [MAX_STR_DIGITS]
    digits. *)
Definition int_of_str (s : string) : option Z :=
  let '(neg, body) := sign_of (strip s) in
  '(v, cnt) ← digitpart body;
  if MAX_STR_DIGITS <? cnt then None else Some (apply_sign neg v).

(** Nearest integer to [a/b], ties to even, for [0 <= a] and [0 < b]. *)
Definition round_half_even (a b : Z) : Z :=
  let k := a / b in
  let r := a mod b in
  match 2 * r ?= b with
  | Lt => k
  | Gt => k + 1
  | Eq => if Z.even k then k else k + 1
  end.

(** [int(float(x))] for the positive rational [x = n/d]: [x] is rounded to
    the nearest binary64 and the result truncated.  [None] when the
    rounding overflows to infinity ([OverflowError] in [int]). *)
Definition trunc_binary64 (n d : Z) : option Z :=
  if n =? 0 then Some 0 else
  let p0 := Z.log2 n - Z.log2 d in
  let ge_pow (p : Z) : bool :=
    if 0 <=? p then d * 2 ^ p <=? n else d <=? n * 2 ^ (- p) in
  let p := if ge_pow p0 then p0 else p0 - 1 in
  if p <? -1 then Some 0 else
  let e := p - 52 in
  let m := if 0 <=? e then round_half_even n (d * 2 ^ e)
           else round_half_even (n * 2 ^ (- e)) d in
  if 1024 <=? Z.log2 m + e then None else
  Some (if 0 <=? e then m * 2 ^ e else m / 2 ^ (- e)).

(** Splits [s] at the first character satisfying [f]. *)
Fixpoint break_at (f : ascii → bool) (s : string) : string * option (ascii * string) :=
  match s with
  | EmptyString => (EmptyString, None)
  | String a s' =>
      if f a then (EmptyString, Some (a, s'))
      else let '(l, r) := break_at f s' in (String a l, r)
  end.

Definition is_exp_mark (a : ascii) : bool := Ascii.eqb a "e" || Ascii.eqb a "E".
Definition is_dot (a : ascii) : bool := Ascii.eqb a ".".

(** The mantissa [int.frac] of a decimal literal as [(digits, scale)]:
    the value is [digits / 10^scale]. *)
Definition mantissa_of (s : string) : option (Z * Z) :=
  match break_at is_dot s with
  | (ip, None) => '(v, _) ← digitpart ip; Some (v, 0)
  | (ip, Some (_, fp)) =>
      match ip, fp with
      | EmptyString, EmptyString => None
      | EmptyString, _ => '(f, k) ← digitpart fp; Some (f, k)
      | _, EmptyString => '(v, _) ← digitpart ip; Some (v, 0)
      | _, _ =>
          '(v, _) ← digitpart ip;
          '(f, k) ← digitpart fp;
          Some (v * 10 ^ k + f, k)
      end
  end.

(** [int(float(s))] on a string; [None] is the [ValueError] of [float] on
    a string that is no decimal literal, or the error of [int] on an
    infinity or a NaN. *)
Definition int_of_float_str (s : string) : option Z :=
  let '(neg, body) := sign_of (strip s) in
  let '(mant, ex) := break_at is_exp_mark body in
  '(m, k) ← mantissa_of mant;
  e ← match ex with
      | None => Some 0
      | Some (_, es) =>
          let '(eneg, ebody) := sign_of es in
          '(v, _) ← digitpart ebody; Some (apply_sign eneg v)
      end;
  let x := e - k in
  v ← (if 0 <=? x then trunc_binary64 (m * 10 ^ x) 1
       else trunc_binary64 m (10 ^ (- x)));
  Some (apply_sign neg v).

(** [int(f)] on a float: truncation toward zero; [None] on an infinity or
    a NaN. *)
Definition int_of_float (f : float) : option Z :=
  match Prim2SF f with
  | S754_zero _ => Some 0
  | S754_finite s m e =>
      let a := if 0 <=? e then Z.pos m * 2 ^ e else Z.pos m / 2 ^ (- e) in
      Some (apply_sign s a)
  | _ => None
  end.

(** [float(z)] on an int, rounded to nearest even; [None] is the
    [OverflowError] of an int too large for a float. *)
Definition float_of_int (z : Z) : option float :=
  if 2 ^ 1024 <=? Z.abs z then None
  else Some (SF2Prim (binary_normalize prec emax z 0 false)).

(** Values a cell or a JSON field can hold where the code tests them. *)
Inductive value :=
| VNone
| VInt (z : Z)
| VFloat (f : float)
| VStr (s : string).

(** A JSON number. *)
Inductive number :=
| NInt (z : Z)
| NFloat (f : float).

(** [a * b] on numbers. *)
Definition mul (a b : number) : option number :=
  match a, b with
  | NInt x, NInt y => Some (NInt (x * y))
  | NInt x, NFloat g => f ← float_of_int x; Some (NFloat (PrimFloat.mul f g))
  | NFloat f, NInt y => g ← float_of_int y; Some (NFloat (PrimFloat.mul f g))
  | NFloat f, NFloat g => Some (NFloat (PrimFloat.mul f g))
  end.

(** [int(a)] on a number. *)
Definition int_of (a : number) : option Z :=
  match a with
  | NInt x => Some x
  | NFloat f => int_of_float f
  end.

(** [str(n)] on an int. *)
Definition str_of_int (n : Z) : string := pretty n.

End Py.

(** ** Held-time and score parsing *)

(** [time_to_seconds] of [populate_stats.py].  The body of the [try] is
    [time_to_seconds_body]; the bare [except] turns every exception into 0. *)
Module Current_time.

Definition time_to_seconds_str (time_str : string) : option Z :=
  let time_str := Py.strip time_str in
  let fallthrough := Py.int_of_float_str time_str in
  if Py.contains ":" time_str then
    match Py.split ":" time_str with
    | [m; s] =>
        m ← Py.int_of_str m; s ← Py.int_of_str s; Some (m * 60 + s)
    | [h; m; s] =>
        h ← Py.int_of_str h; m ← Py.int_of_str m; s ← Py.int_of_str s;
        Some (h * 3600 + m * 60 + s)
    | _ => fallthrough
    end
  else fallthrough.

Definition time_to_seconds_body (time_str : Py.value) : option Z :=
  match time_str with
  | Py.VInt z => Some z
  | Py.VFloat f => Py.int_of_float f
  | Py.VStr s => time_to_seconds_str s
  | Py.VNone => time_to_seconds_str "None"
  end.

(** [not time_str]. *)
Definition falsy (v : Py.value) : bool :=
  match v with
  | Py.VNone => true
  | Py.VInt z => z =? 0
  | Py.VFloat f => PrimFloat.eqb f 0%float
  | Py.VStr s => String.eqb s ""
  end.

Definition time_to_seconds (time_str : Py.value) : Z :=
  if falsy time_str then 0
  else default 0 (time_to_seconds_body time_str).

(** [parse_score]: the numeric score and the displayed score of a cell of
    the post-game report that is not empty ([pd.isna] false). *)
Definition parse_score (score_val : string) : Z * string :=
  let score_str := Py.strip score_val in
  if Py.contains ":" score_str then
    match Py.split ":" score_str with
    | m :: rest =>
        match Py.int_of_str m,
              (match rest with s :: _ => Py.int_of_str s | [] => Some 0 end) with
        | Some minutes, Some seconds => (minutes * 60 + seconds, score_str)
        | _, _ => (0, score_str)
        end
    | [] => (0, score_str)
    end
  else
    match Py.int_of_float_str score_val with
    | Some v => (v, Py.str_of_int v)
    | None => (0, score_val)
    end.

End Current_time.

(** [time_to_seconds] of [BACKUPpopulate_stats.py]: an empty part counts
    as 0. *)
Module Backup_time.

Definition int_or_zero (part : string) : option Z :=
  if String.eqb part "" then Some 0 else Py.int_of_str part.

Definition time_to_seconds_str (time_str : string) : option Z :=
  let time_str := Py.strip time_str in
  let fallthrough := Py.int_of_float_str time_str in
  if Py.contains ":" time_str then
    match Py.split ":" time_str with
    | [m; s] =>
        m ← int_or_zero m; s ← int_or_zero s; Some (m * 60 + s)
    | [h; m; s] =>
        h ← int_or_zero h; m ← int_or_zero m; s ← int_or_zero s;
        Some (h * 3600 + m * 60 + s)
    | _ => fallthrough
    end
  else fallthrough.

Definition time_to_seconds_body (time_str : Py.value) : option Z :=
  match time_str with
  | Py.VInt z => Some z
  | Py.VFloat f => Py.int_of_float f
  | Py.VStr s => time_to_seconds_str s
  | Py.VNone => time_to_seconds_str "None"
  end.

Definition time_to_seconds (time_str : Py.value) : Z :=
  if Current_time.falsy time_str then 0
  else default 0 (time_to_seconds_body time_str).

End Backup_time.

(** ** Constants shared by both pipelines *)

Definition PLAYLIST_MLG_4V4 : string := "MLG 4v4".
Definition PLAYLIST_TEAM_HARDCORE : string := "Team Hardcore".
Definition PLAYLIST_DOUBLE_TEAM : string := "Double Team".
Definition PLAYLIST_HEAD_TO_HEAD : string := "Head to Head".

Definition PLAYLIST_ALIASES : gmap string string :=
  list_to_map [("Ranked MLG 4v4", PLAYLIST_MLG_4V4);
               ("Ranked Team Hardcore", PLAYLIST_TEAM_HARDCORE);
               ("Ranked Double Team", PLAYLIST_DOUBLE_TEAM);
               ("Ranked Head to Head", PLAYLIST_HEAD_TO_HEAD)].

Definition VALID_MLG_4V4_COMBOS : gmap string (list string) :=
  list_to_map [("Midship", ["ctf"; "slayer"; "oddball"; "assault"]);
               ("Beaver Creek", ["ctf"; "slayer"]);
               ("Lockout", ["slayer"; "oddball"]);
               ("Warlock", ["ctf"; "slayer"; "oddball"]);
               ("Sanctuary", ["ctf"; "slayer"])].

Definition MIN_GAME_DURATION_SECONDS : Z := 120.

Definition DEDICATED_SERVER_NAMES : list string :=
  ["statsdedi"; "dedi"; "dedicated"; "server"].

(** [x in xs] on a list of strings. *)
Definition mem (x : string) (xs : list string) : bool :=
  bool_decide (x ∈ xs).

(** [not playlist] on a playlist value: [None] or the empty string. *)
Definition falsy_name (playlist : option string) : bool :=
  match playlist with
  | None => true
  | Some p => String.eqb p ""
  end.

Definition normalize_playlist_name (playlist : option string) : option string :=
  match playlist with
  | None => None
  | Some p => if String.eqb p "" then None else Some (default p (PLAYLIST_ALIASES !! p))
  end.

Definition is_dedicated_server (player_name : string) : bool :=
  let name_lower := Py.lower (Py.strip player_name) in
  if mem name_lower DEDICATED_SERVER_NAMES then true
  else if Py.contains "dedi" name_lower && (String.length name_lower <=? 15)%nat then true
  else false.

Definition gametype_aliases : gmap string string :=
  list_to_map [("capture_the_flag", "ctf"); ("king_of_the_hill", "koth"); ("king", "koth")].

Definition is_valid_mlg_combo (map_name base_gametype : string) : bool :=
  match VALID_MLG_4V4_COMBOS !! map_name with
  | None => false
  | Some valid_gametypes =>
      let base_gametype_lower := Py.lower base_gametype in
      let normalized_gametype :=
        default base_gametype_lower (gametype_aliases !! base_gametype_lower) in
      existsb (λ valid_type,
                 Py.contains valid_type normalized_gametype
                 || Py.contains normalized_gametype valid_type)
              valid_gametypes
  end.

(** [parse_duration_seconds] on the text of the Duration cell. *)
Definition parse_duration_seconds (duration_str : string) : Z :=
  if String.eqb duration_str "" then 0 else
  default 0
    (match Py.split ":" duration_str with
     | [m; s] =>
         minutes ← Py.int_of_str m; seconds ← Py.int_of_str s;
         Some (minutes * 60 + seconds)
     | [h; m; s] =>
         hours ← Py.int_of_str h; minutes ← Py.int_of_str m; seconds ← Py.int_of_str s;
         Some (hours * 3600 + minutes * 60 + seconds)
     | _ => Some 0
     end).

(** ** What the classifier reads from a match file

    The classifier opens the workbook several times; [game_file] holds what
    those reads return.  [gf_details] is the first row of the Game Details
    sheet ([None] when the sheet is empty or cannot be read), with the cells
    as the code converts them; [gf_teams] is the team column of the Post
    Game Report ([None] when the sheet cannot be read). *)
Record details_row := {
  dr_map_name : string;        (* str(row.get('Map Name', '')) *)
  dr_game_type : string;       (* str(row.get('Game Type', '')) *)
  dr_duration : string;        (* str(row.get('Duration', '0:00')) *)
  dr_red_score : option Z;     (* int(row.get('Red Score', 0) or 0), None if it raises *)
  dr_blue_score : option Z;    (* int(row.get('Blue Score', 0) or 0) *)
}.

Record game_file := {
  gf_name : string;                    (* os.path.basename(file_path) *)
  gf_details : option details_row;
  gf_teams : option (list string);
}.

Definition get_game_duration_seconds (f : game_file) : Z :=
  match gf_details f with
  | Some row => parse_duration_seconds (dr_duration row)
  | None => 0
  end.

Definition is_game_long_enough (f : game_file) : bool :=
  MIN_GAME_DURATION_SECONDS <=? get_game_duration_seconds f.

Definition get_game_player_count (f : game_file) : Z :=
  match gf_teams f with
  | Some col => Z.of_nat (length col)
  | None => 0
  end.

Definition is_team_game (f : game_file) : bool :=
  match gf_teams f with
  | Some col => mem "Red" col && mem "Blue" col
  | None => false
  end.

(** A manual override file: file name to playlist (or JSON null). *)
Abbreviation manual := (gmap string (option string)).

(** [manual_playlists.get(filename)]: a missing key and a null are both
    [None]. *)
Definition get_name (m : manual) (filename : string) : option string :=
  mjoin (m !! filename).

(** ** The processed-state ledger *)

(** One identity's state within one playlist, as stored in [rankstats] and
    in the snapshot. *)
Record standing := {
  st_xp : Z;
  st_rank : Z;
  st_highest_rank : Z;
  st_wins : Z;
  st_losses : Z;
  st_games : Z;
}.

(** An entry of [player_state] in [processed_state.json]. *)
Record saved_state := {
  sv_xp : Z;
  sv_rank : Z;
  sv_wins : Z;
  sv_losses : Z;
  sv_total_games : Z;
  sv_kills : Z;
  sv_deaths : Z;
  sv_assists : Z;
  sv_headshots : Z;
  sv_highest_rank : Z;
  sv_playlists : gmap string standing;
}.

(** [processed_state.json].  [ps_manual_unranked_hash] is written and read
    by the backup pipeline only. *)
Record processed_state := {
  ps_games : gmap string (option string);
  ps_manual_playlists_hash : string;
  ps_manual_unranked_hash : string;
  ps_player_state : gmap string saved_state;
  ps_player_name_to_id : gmap string string;
}.

Definition empty_processed_state : processed_state :=
  {| ps_games := ∅; ps_manual_playlists_hash := ""; ps_manual_unranked_hash := "";
     ps_player_state := ∅; ps_player_name_to_id := ∅ |}.

(** The result of [check_for_changes]. *)
Record changes := {
  needs_full_rebuild : bool;
  new_files : list string;
  changed_playlists : gmap string (option string * option string);
}.

(** The loop of [check_for_changes]: [new_playlist] gives the playlist the
    overrides assign to a file. *)
Fixpoint scan_files (new_playlist : string → option string)
    (old_games : gmap string (option string)) (stats_files : list string)
    (acc : list string * gmap string (option string * option string))
    : list string * gmap string (option string * option string) :=
  match stats_files with
  | [] => acc
  | filename :: rest =>
      let old_playlist := mjoin (old_games !! filename) in
      let new_pl := new_playlist filename in
      let acc' :=
        match old_games !! filename with
        | None => (acc.1 ++ [filename], acc.2)
        | Some _ =>
            if bool_decide (old_playlist ≠ new_pl)
            then (acc.1, <[filename := (old_playlist, new_pl)]> acc.2)
            else acc
        end in
      scan_files new_playlist old_games rest acc'
  end.

(** How the pipeline goes on after [check_for_changes]. *)
Record plan := {
  pl_full_rebuild : bool;          (* needs_full_rebuild *)
  pl_new_files : list string;
  pl_incremental : bool;           (* incremental_mode, after the mode is settled *)
  pl_processed : processed_state;  (* the processed state the run goes on with *)
}.

(** [bool(d)] on a dict. *)
Definition nonempty_dict {A} (d : gmap string A) : bool := negb (bool_decide (d = ∅)).

(** ** Classification and change detection of [populate_stats.py] *)
Module Current.

(** [determine_playlist].  [bot_match] is the playlist of the bot session
    that [find_match_for_game] matches to the file by time window and
    participants ([None] when no session matches or none is loaded); the
    session records are an external input. *)
Definition determine_playlist (f : game_file) (bot_match : option string)
    (manual_playlists : manual) : option string :=
  let filename := gf_name f in
  match (if nonempty_dict manual_playlists then manual_playlists !! filename else None) with
  | Some v => normalize_playlist_name v
  | None =>
      if negb (is_game_long_enough f) then None else
      let player_count := get_game_player_count f in
      let is_team := is_team_game f in
      let map_name := match gf_details f with Some r => Py.strip (dr_map_name r) | None => "" end in
      let base_gametype := match gf_details f with Some r => Py.strip (dr_game_type r) | None => "" end in
      match bot_match with
      | None => None
      | Some entry =>
          match normalize_playlist_name (Some entry) with
          | None => None
          | Some playlist =>
              if String.eqb playlist PLAYLIST_HEAD_TO_HEAD then
                if player_count =? 2 then Some PLAYLIST_HEAD_TO_HEAD else None
              else if String.eqb playlist PLAYLIST_DOUBLE_TEAM then
                if (player_count =? 4) && is_team then Some PLAYLIST_DOUBLE_TEAM else None
              else if mem playlist [PLAYLIST_MLG_4V4; PLAYLIST_TEAM_HARDCORE] then
                if (player_count =? 8) && is_team && is_valid_mlg_combo map_name base_gametype
                then Some playlist else None
              else None
          end
      end
  end.

Section Changes.

(** [get_manual_playlists_hash]: the MD5 digest of the JSON dump of the
    override map. *)
Variable get_manual_playlists_hash : manual → string.

Definition check_for_changes (stats_files : list string)
    (manual_playlists : manual) (processed_state : processed_state) : changes :=
  let old_games := ps_games processed_state in
  let old_hash := ps_manual_playlists_hash processed_state in
  let new_hash := get_manual_playlists_hash manual_playlists in
  let '(new_files, changed_playlists) :=
    scan_files (get_name manual_playlists) old_games stats_files ([], ∅) in
  let needs_full_rebuild := negb (bool_decide (changed_playlists = ∅)) in
  {| needs_full_rebuild := needs_full_rebuild;
     new_files := new_files;
     changed_playlists := changed_playlists |}.

(** The head of [main]: [None] is the early return "nothing to
    process".  [force_rebuild] is the [--force] flag, [loaded] the
    content of [processed_state.json]. *)
Definition plan_run (force_rebuild : bool) (stats_files : list string)
    (manual_playlists : manual) (loaded : processed_state) : option plan :=
  let go (processed_state : processed_state) (c : changes) : plan :=
    let incremental_mode :=
      negb (needs_full_rebuild c) && negb (bool_decide (new_files c = [])) in
    let saved_player_state : gmap string saved_state :=
      if incremental_mode then ps_player_state processed_state else ∅ in
    let incremental_mode :=
      if needs_full_rebuild c then incremental_mode
      else if incremental_mode && nonempty_dict saved_player_state then incremental_mode
      else false in
    {| pl_full_rebuild := needs_full_rebuild c;
       pl_new_files := new_files c;
       pl_incremental := incremental_mode;
       pl_processed := processed_state |} in
  if force_rebuild then
    Some (go empty_processed_state
             {| needs_full_rebuild := true; new_files := stats_files;
                changed_playlists := ∅ |})
  else
    let c := check_for_changes stats_files manual_playlists loaded in
    if bool_decide (new_files c = []) && bool_decide (changed_playlists c = ∅)
    then None
    else Some (go loaded c).

End Changes.

End Current.

(** ** Classification and change detection of [BACKUPpopulate_stats.py] *)
Module Backup.

(** [filename in manual_unranked]. *)
Definition listed (manual_unranked : manual) (filename : string) : bool :=
  bool_decide (is_Some (manual_unranked !! filename)).

(** [duration_mins = int(parts[0]) + int(parts[1]) / 60] of the
    head-to-head test, 0 when the parts do not parse.  The quotient is
    taken on the float of the seconds, which is the quotient Python takes
    for every int below 2^53. *)
Definition duration_mins (duration_str : string) : float :=
  default 0%float
    (match Py.split ":" duration_str with
     | [m; s] =>
         m ← Py.int_of_str m; s ← Py.int_of_str s;
         fm ← Py.float_of_int m; fs ← Py.float_of_int s;
         Some (PrimFloat.add fm (PrimFloat.div fs 60%float))
     | _ => Some 0%float
     end).

Definition determine_playlist (f : game_file) (manual_playlists manual_unranked : manual)
    : option string :=
  let filename := gf_name f in
  if nonempty_dict manual_unranked && listed manual_unranked filename then None else
  match (if nonempty_dict manual_playlists then manual_playlists !! filename else None) with
  | Some playlist_value => normalize_playlist_name playlist_value
  | None =>
      if negb (is_game_long_enough f) then None else
      let player_count := get_game_player_count f in
      let is_team := is_team_game f in
      let map_name := match gf_details f with Some r => Py.strip (dr_map_name r) | None => "" end in
      let base_gametype := match gf_details f with Some r => Py.strip (dr_game_type r) | None => "" end in
      if (3 <=? player_count) && negb is_team then None
      else if (player_count =? 8) && is_team && is_valid_mlg_combo map_name base_gametype
      then Some PLAYLIST_MLG_4V4
      else if (player_count =? 4) && is_team then Some PLAYLIST_DOUBLE_TEAM
      else if player_count =? 2 then
        match gf_details f with
        | None => None
        | Some row =>
            match dr_red_score row, dr_blue_score row with
            | Some red_score, Some blue_score =>
                let max_score := Z.max red_score blue_score in
                if 15 <? max_score then None
                else if (max_score =? 15) || PrimFloat.leb 14%float (duration_mins (dr_duration row))
                then Some PLAYLIST_HEAD_TO_HEAD
                else None
            | _, _ => None
            end
        end
      else None
  end.

Section Changes.

(** [get_manual_hash]: the MD5 digest of the JSON dump of the data, or
    of the empty string when the data is empty. *)
Variable get_manual_hash : manual → string.

Definition check_for_changes (stats_files : list string)
    (manual_playlists manual_unranked : manual) (processed_state : processed_state)
    : changes :=
  let old_games := ps_games processed_state in
  let old_playlists_hash := ps_manual_playlists_hash processed_state in
  let new_playlists_hash := get_manual_hash manual_playlists in
  let playlists_changed := bool_decide (old_playlists_hash ≠ new_playlists_hash) in
  let old_unranked_hash := ps_manual_unranked_hash processed_state in
  let new_unranked_hash := get_manual_hash manual_unranked in
  let unranked_changed := bool_decide (old_unranked_hash ≠ new_unranked_hash) in
  let new_playlist (filename : string) : option string :=
    if nonempty_dict manual_unranked && listed manual_unranked filename then None
    else get_name manual_playlists filename in
  let '(new_files, changed_playlists) :=
    scan_files new_playlist old_games stats_files ([], ∅) in
  let needs_full_rebuild :=
    negb (bool_decide (changed_playlists = ∅)) || playlists_changed || unranked_changed in
  {| needs_full_rebuild := needs_full_rebuild;
     new_files := new_files;
     changed_playlists := changed_playlists |}.

(** The head of [main] of the backup pipeline (it has no [--force]
    flag). *)
Definition plan_run (stats_files : list string)
    (manual_playlists manual_unranked : manual) (loaded : processed_state) : option plan :=
  let c := check_for_changes stats_files manual_playlists manual_unranked loaded in
  if bool_decide (new_files c = []) && bool_decide (changed_playlists c = ∅)
     && negb (needs_full_rebuild c)
  then None
  else
    let incremental_mode :=
      negb (needs_full_rebuild c) && negb (bool_decide (new_files c = [])) in
    let saved_player_state : gmap string saved_state :=
      if incremental_mode then ps_player_state loaded else ∅ in
    let incremental_mode :=
      if needs_full_rebuild c then incremental_mode
      else if incremental_mode && nonempty_dict saved_player_state then incremental_mode
      else false in
    Some {| pl_full_rebuild := needs_full_rebuild c;
            pl_new_files := new_files c;
            pl_incremental := incremental_mode;
            pl_processed := loaded |}.

End Changes.

End Backup.

(** ** Parsed matches *)

(** A row of the post-game report, as [parse_excel_file] builds it. *)
Record player := {
  p_name : string;
  p_team : string;
  p_score : string;          (* the displayed score *)
  p_score_numeric : Z;
  p_kills : Z;
  p_deaths : Z;
  p_assists : Z;
  p_head_shots : Z;
}.

(** A row of the game statistics sheet; only the flag captures are read by
    the scoring code. *)
Record detailed_stat := {
  ds_player : string;
  ds_ctf_scores : Z;
}.

(** A parsed match.  [g_details] is the [details] dict (empty when the Game
    Details sheet has no row); [g_playlist] is the classifier's answer;
    [g_identity] is the name-to-address map of the identity file of the
    match's session (the combined map when the session has none). *)
Record game := {
  g_details : gmap string string;
  g_players : list player;
  g_detailed_stats : list detailed_stat;
  g_source_file : string;
  g_playlist : option string;
  g_identity : gmap string string;
}.

(** [d.get(k, v)]. *)
Definition get_str (d : gmap string string) (k v : string) : string := default v (d !! k).

Module Ledger.

(** The [games] dict of the new processed state (end of [main]): one
    entry per match, in the order of [all_games]; a later match with the
    same file name overwrites the entry. *)
Definition record_game (old_games : gmap string (option string))
    (needs_full_rebuild : bool)
    (new_games : gmap string (option string)) (g : game) : gmap string (option string) :=
  let filename := g_source_file g in
  let new_playlist := g_playlist g in
  let old_playlist := mjoin (old_games !! filename) in
  if bool_decide (new_playlist = None) && negb (bool_decide (old_playlist = None))
     && negb needs_full_rebuild
  then <[filename := old_playlist]> new_games
  else <[filename := new_playlist]> new_games.

Definition build_games (old_games : gmap string (option string))
    (needs_full_rebuild : bool) (all_games : list game) : gmap string (option string) :=
  foldl (record_game old_games needs_full_rebuild) ∅ all_games.

End Ledger.

(** ** XP configuration and rank tiers *)

(** [xp_config.json]. *)
Record xp_config := {
  rank_thresholds : gmap string (Z * Z);
  game_win : Py.number;
  game_loss : Py.number;
  loss_factors : gmap string Py.number;
  win_factors : gmap string Py.number;
}.

(** [range(50, 0, -1)]. *)
Definition ranks_desc : list Z := reverse (seqZ 1 50).

Fixpoint first_band (xp : Z) (rank_thresholds : gmap string (Z * Z)) (ranks : list Z)
    : option Z :=
  match ranks with
  | [] => None
  | rank :: rest =>
      match rank_thresholds !! Py.str_of_int rank with
      | Some (min_xp, max_xp) =>
          if (min_xp <=? xp) && (xp <=? max_xp) then Some rank
          else first_band xp rank_thresholds rest
      | None => first_band xp rank_thresholds rest
      end
  end.

Definition calculate_rank (xp : Z) (rank_thresholds : gmap string (Z * Z)) : Z :=
  default 1 (first_band xp rank_thresholds ranks_desc).

Definition get_loss_factor (rank : Z) (loss_factors : gmap string Py.number) : Py.number :=
  let rank_str := Py.str_of_int rank in
  if 30 <=? rank then Py.NFloat 1%float
  else default (Py.NFloat 1%float) (loss_factors !! rank_str).

Definition get_win_factor (rank : Z) (win_factors : gmap string Py.number) : Py.number :=
  let rank_str := Py.str_of_int rank in
  if rank <=? 40 then Py.NFloat 1%float
  else default (Py.NFloat 0.5%float) (win_factors !! rank_str).

(** [int(xp_win * win_factor)] and [int(xp_loss * loss_factor)]. *)
Definition win_xp_change (cfg : xp_config) (rank_before : Z) : option Z :=
  Py.mul (game_win cfg) (get_win_factor rank_before (win_factors cfg)) ≫= Py.int_of.

Definition loss_xp_change (cfg : xp_config) (rank_before : Z) : option Z :=
  Py.mul (game_loss cfg) (get_loss_factor rank_before (loss_factors cfg)) ≫= Py.int_of.

(** [int(win_factor*100)] and [int(loss_factor*100)], which the row's log
    line shows; [None] is the [OverflowError] of a product that is too
    large. *)
Definition win_percent (cfg : xp_config) (rank_before : Z) : option Z :=
  Py.mul (get_win_factor rank_before (win_factors cfg)) (Py.NInt 100) ≫= Py.int_of.

Definition loss_percent (cfg : xp_config) (rank_before : Z) : option Z :=
  Py.mul (get_loss_factor rank_before (loss_factors cfg)) (Py.NInt 100) ≫= Py.int_of.

(** ** Match outcome engine *)

Definition is_ctf (g : game) : bool :=
  let variant_name := Py.lower (get_str (g_details g) "Variant Name" "") in
  let game_type := Py.lower (get_str (g_details g) "Game Type" "") in
  Py.contains "ctf" variant_name || Py.contains "ctf" game_type
  || Py.contains "capture" game_type || Py.contains "flag" variant_name.

Definition is_oddball (g : game) : bool :=
  let variant_name := Py.lower (get_str (g_details g) "Variant Name" "") in
  let game_type := Py.lower (get_str (g_details g) "Game Type" "") in
  Py.contains "oddball" variant_name || Py.contains "oddball" game_type
  || Py.contains "ball" game_type.

(** [{s['player']: s for s in detailed_stats}], reduced to the flag
    captures: a later row of the same player replaces the earlier one. *)
Definition detailed_lookup (stats : list detailed_stat) : gmap string Z :=
  foldl (λ d s, <[ds_player s := ds_ctf_scores s]> d) ∅ stats.

(** The [teams] dict of [determine_winners_losers], in insertion order:
    team name, score, member names. *)
Definition teams_dict := list (string * (Z * list string)).

Fixpoint add_to_team (teams : teams_dict) (team : string) (pts : Z) (name : string)
    : teams_dict :=
  match teams with
  | [] => [(team, (0 + pts, [name]))]
  | (t, (sc, ps)) :: rest =>
      if String.eqb t team then (t, (sc + pts, ps ++ [name])) :: rest
      else (t, (sc, ps)) :: add_to_team rest team pts name
  end.

(** What a row adds to its team's score. *)
Definition row_points (use_ctf : bool) (detailed : gmap string Z) (p : player) : Z :=
  if use_ctf then default 0 (detailed !! p_name p) else p_score_numeric p.

(** The step of the loop of [determine_winners_losers] over the rows. *)
Definition add_row (ctf : bool) (detailed : gmap string Z) (teams : teams_dict) (p : player)
    : teams_dict :=
  let team := Py.strip (p_team p) in
  if negb (String.eqb team "") && mem team ["Red"; "Blue"]
  then add_to_team teams team (row_points ctf detailed p) (p_name p)
  else teams.

Definition build_teams (g : game) : teams_dict :=
  let detailed :=
    if is_ctf g && negb (bool_decide (g_detailed_stats g = []))
    then detailed_lookup (g_detailed_stats g) else ∅ in
  let use_ctf := is_ctf g && nonempty_dict detailed in
  foldl (add_row use_ctf detailed) [] (g_players g).

(** [determine_winners_losers]: the sort by score, descending and stable,
    of the two teams, then the tie test. *)
Definition determine_winners_losers (g : game) : list string * list string :=
  match build_teams g with
  | [(t1, (s1, ps1)); (t2, (s2, ps2))] =>
      let '(winning_team, losing_team) :=
        if s1 <? s2 then ((s2, ps2), (s1, ps1)) else ((s1, ps1), (s2, ps2)) in
      if winning_team.1 =? losing_team.1 then ([], [])
      else (winning_team.2, losing_team.2)
  | _ => ([], [])
  end.

(** The rows the engine puts on a team, and the score it computes for the
    team from them: 0 for a team without rows. *)
Definition on_team (team : string) (p : player) : bool :=
  String.eqb (Py.strip (p_team p)) team.

Definition use_ctf (g : game) : bool :=
  is_ctf g && negb (bool_decide (g_detailed_stats g = [])).

Definition sumZ (l : list Z) : Z := foldr Z.add 0 l.

Definition team_score (g : game) (team : string) : Z :=
  sumZ (row_points (use_ctf g) (detailed_lookup (g_detailed_stats g))
          <$> filter (λ p, on_team team p = true) (g_players g)).

Definition team_names (g : game) (team : string) : list string :=
  p_name <$> filter (λ p, on_team team p = true) (g_players g).

(** ** Ranking state *)

(** An entry of [rankstats].  A key the code only reads through
    [.get(key, default)] is held with that default when absent; the series
    counters, [mmr], the flat per-playlist rank and the name lists are not
    read by the steps below and are left out. *)
Record rank_entry := {
  re_discord_name : string;
  re_xp : Z;
  re_rank : Z;
  re_wins : Z;
  re_losses : Z;
  re_total_games : Z;
  re_kills : Z;
  re_deaths : Z;
  re_assists : Z;
  re_headshots : Z;
  re_highest_rank : Z;
  re_playlists : gmap string standing;
  re_mac_linked : option bool;
}.

Definition new_entry (discord_name : string) (mac_linked : option bool) : rank_entry :=
  {| re_discord_name := discord_name; re_xp := 0; re_rank := 1; re_wins := 0;
     re_losses := 0; re_total_games := 0; re_kills := 0; re_deaths := 0;
     re_assists := 0; re_headshots := 0; re_highest_rank := 1; re_playlists := ∅;
     re_mac_linked := mac_linked |}.

(** ** The per-playlist match log *)
Module MatchLog.

(** [get_display_name] of [main]: the Discord name when the player is
    linked and has one, the in-game name otherwise. *)
Definition get_display_name (player_to_id : gmap string string)
    (rankstats : gmap string rank_entry) (player_name : string) : string :=
  match player_to_id !! player_name with
  | Some user_id =>
      if String.eqb user_id "" then player_name else
      match rankstats !! user_id with
      | Some e => if String.eqb (re_discord_name e) "" then player_name
                  else re_discord_name e
      | None => player_name
      end
  | None => player_name
  end.

(** The rows of a team as the log selects them: [p.get('team') == team],
    without stripping. *)
Definition log_rows (g : game) (team : string) : list player :=
  filter (λ p, p_team p = team) (g_players g).

(** [red_score] and [blue_score] of the log entry. *)
Definition log_score (g : game) (team : string) : Z :=
  if is_ctf g && negb (bool_decide (g_detailed_stats g = [])) then
    sumZ ((λ p, default 0 (detailed_lookup (g_detailed_stats g) !! p_name p))
            <$> log_rows g team)
  else if is_oddball g then
    sumZ ((λ p, Current_time.time_to_seconds (Py.VStr (p_score p))) <$> log_rows g team)
  else
    sumZ (p_score_numeric <$> log_rows g team).

(** [winner_team]. *)
Definition winner_team (display : string → string) (g : game) : string :=
  let '(winners, _) := determine_winners_losers g in
  let red_team := display <$> (p_name <$> log_rows g "Red") in
  if existsb (λ p, mem p red_team) winners then "Red"
  else if negb (bool_decide (winners = [])) then "Blue"
  else "Tie".

(** The [winner] field of the entry written to the log of
    [playlist_name]. *)
Definition recorded_winner (playlist_name : string) (display : string → string)
    (g : game) : string :=
  if String.eqb playlist_name PLAYLIST_HEAD_TO_HEAD then
    match (determine_winners_losers g).1 with
    | w :: _ => w
    | [] => "Tie"
    end
  else winner_team display g.

End MatchLog.

(** ** Ranking replay *)

(** A dict of dicts: player name, then playlist. *)
Abbreviation ndict := (gmap string (gmap string Z)).

(** [player_game_stats[name]]. *)
Record game_stats := {
  gs_kills : Z;
  gs_deaths : Z;
  gs_assists : Z;
  gs_games : Z;
  gs_headshots : Z;
}.

Definition zero_stats : game_stats :=
  {| gs_kills := 0; gs_deaths := 0; gs_assists := 0; gs_games := 0; gs_headshots := 0 |}.

(** The accumulators of step 3 of [main], keyed by in-game name. *)
Record tracking := {
  player_game_stats : gmap string game_stats;
  player_playlist_xp : ndict;
  player_playlist_wins : ndict;
  player_playlist_losses : ndict;
  player_playlist_games : ndict;
  player_playlist_rank : ndict;
  player_playlist_highest_rank : ndict;
}.

(** [d[name][playlist]]; [None] is [KeyError]. *)
Definition get2 (d : ndict) (name playlist : string) : option Z :=
  d !! name ≫= (.!! playlist).

(** [d[name][playlist] = v]; [None] is the [KeyError] of a missing
    [d[name]]. *)
Definition set2 (d : ndict) (name playlist : string) (v : Z) : option ndict :=
  inner ← d !! name; Some (<[name := <[playlist := v]> inner]> d).

(** [d[name][playlist] += delta]. *)
Definition add2 (d : ndict) (name playlist : string) (delta : Z) : option ndict :=
  v ← get2 d name playlist; set2 d name playlist (v + delta).

(** [d[name].get(playlist, v)] for a name whose dict is there or not. *)
Definition get2_default (d : ndict) (name playlist : string) (v : Z) : Z :=
  default v (get2 d name playlist).

Definition with_xp (st : tracking) (d : ndict) : tracking :=
  {| player_game_stats := player_game_stats st; player_playlist_xp := d;
     player_playlist_wins := player_playlist_wins st;
     player_playlist_losses := player_playlist_losses st;
     player_playlist_games := player_playlist_games st;
     player_playlist_rank := player_playlist_rank st;
     player_playlist_highest_rank := player_playlist_highest_rank st |}.

Definition with_wins (st : tracking) (d : ndict) : tracking :=
  {| player_game_stats := player_game_stats st; player_playlist_xp := player_playlist_xp st;
     player_playlist_wins := d;
     player_playlist_losses := player_playlist_losses st;
     player_playlist_games := player_playlist_games st;
     player_playlist_rank := player_playlist_rank st;
     player_playlist_highest_rank := player_playlist_highest_rank st |}.

Definition with_losses (st : tracking) (d : ndict) : tracking :=
  {| player_game_stats := player_game_stats st; player_playlist_xp := player_playlist_xp st;
     player_playlist_wins := player_playlist_wins st;
     player_playlist_losses := d;
     player_playlist_games := player_playlist_games st;
     player_playlist_rank := player_playlist_rank st;
     player_playlist_highest_rank := player_playlist_highest_rank st |}.

Definition with_games (st : tracking) (d : ndict) : tracking :=
  {| player_game_stats := player_game_stats st; player_playlist_xp := player_playlist_xp st;
     player_playlist_wins := player_playlist_wins st;
     player_playlist_losses := player_playlist_losses st;
     player_playlist_games := d;
     player_playlist_rank := player_playlist_rank st;
     player_playlist_highest_rank := player_playlist_highest_rank st |}.

Definition with_rank (st : tracking) (d : ndict) : tracking :=
  {| player_game_stats := player_game_stats st; player_playlist_xp := player_playlist_xp st;
     player_playlist_wins := player_playlist_wins st;
     player_playlist_losses := player_playlist_losses st;
     player_playlist_games := player_playlist_games st;
     player_playlist_rank := d;
     player_playlist_highest_rank := player_playlist_highest_rank st |}.

Definition with_highest_rank (st : tracking) (d : ndict) : tracking :=
  {| player_game_stats := player_game_stats st; player_playlist_xp := player_playlist_xp st;
     player_playlist_wins := player_playlist_wins st;
     player_playlist_losses := player_playlist_losses st;
     player_playlist_games := player_playlist_games st;
     player_playlist_rank := player_playlist_rank st;
     player_playlist_highest_rank := d |}.

Definition with_stats (st : tracking) (d : gmap string game_stats) : tracking :=
  {| player_game_stats := d; player_playlist_xp := player_playlist_xp st;
     player_playlist_wins := player_playlist_wins st;
     player_playlist_losses := player_playlist_losses st;
     player_playlist_games := player_playlist_games st;
     player_playlist_rank := player_playlist_rank st;
     player_playlist_highest_rank := player_playlist_highest_rank st |}.

(** A left fold that stops at the first exception. *)
Fixpoint foldlM {A B} (f : A → B → option A) (a : A) (l : list B) : option A :=
  match l with
  | [] => Some a
  | b :: l' => a' ← f a b; foldlM f a' l'
  end.

Module Replay.

(** "Initialize playlist tracking if needed": the six assignments made
    when the playlist is new to the player. *)
Definition init_playlist (st : tracking) (name playlist : string) : option tracking :=
  xp ← set2 (player_playlist_xp st) name playlist 0;
  wins ← set2 (player_playlist_wins st) name playlist 0;
  losses ← set2 (player_playlist_losses st) name playlist 0;
  games ← set2 (player_playlist_games st) name playlist 0;
  rank ← set2 (player_playlist_rank st) name playlist 1;
  highest ← set2 (player_playlist_highest_rank st) name playlist 1;
  Some {| player_game_stats := player_game_stats st;
          player_playlist_xp := xp; player_playlist_wins := wins;
          player_playlist_losses := losses; player_playlist_games := games;
          player_playlist_rank := rank; player_playlist_highest_rank := highest |}.

(** The three outcomes of a row: the updates of wins, losses, games and
    XP, and the text of the result for the log line, whose percentage is
    computed after the updates. *)
Definition apply_result (cfg : xp_config) (winners losers : list string)
    (name playlist : string) (rank_before : Z) (st : tracking) : option tracking :=
  if mem name winners then
    wins ← add2 (player_playlist_wins st) name playlist 1;
    games ← add2 (player_playlist_games st) name playlist 1;
    xp_change ← win_xp_change cfg rank_before;
    xp ← add2 (player_playlist_xp st) name playlist xp_change;
    _ ← win_percent cfg rank_before;
    Some (with_xp (with_games (with_wins st wins) games) xp)
  else if mem name losers then
    losses ← add2 (player_playlist_losses st) name playlist 1;
    games ← add2 (player_playlist_games st) name playlist 1;
    xp_change ← loss_xp_change cfg rank_before;
    xp ← add2 (player_playlist_xp st) name playlist xp_change;
    v ← get2 xp name playlist;
    xp ← (if v <? 0 then set2 xp name playlist 0 else Some xp);
    _ ← loss_percent cfg rank_before;
    Some (with_xp (with_games (with_losses st losses) games) xp)
  else
    games ← add2 (player_playlist_games st) name playlist 1;
    Some (with_games st games).

(** The end of the loop body: the rank is recomputed from the XP, and the
    highest rank is raised when the new rank is above it. *)
Definition update_rank (cfg : xp_config) (name playlist : string) (st : tracking)
    : option tracking :=
  new_xp ← get2 (player_playlist_xp st) name playlist;
  let new_rank := calculate_rank new_xp (rank_thresholds cfg) in
  rank ← set2 (player_playlist_rank st) name playlist new_rank;
  let st := with_rank st rank in
  highest ← get2 (player_playlist_highest_rank st) name playlist;
  if highest <? new_rank then
    h ← set2 (player_playlist_highest_rank st) name playlist new_rank;
    Some (with_highest_rank st h)
  else Some st.

(** The body of the loop over the rows of a ranked match. *)
Definition replay_player (cfg : xp_config) (winners losers : list string)
    (playlist : string) (st : tracking) (p : player) : option tracking :=
  let player_name := p_name p in
  if is_dedicated_server player_name then Some st else
  match player_playlist_xp st !! player_name with
  | None => Some st
  | Some xp_of_player =>
      st ← (if bool_decide (is_Some (xp_of_player !! playlist)) then Some st
            else init_playlist st player_name playlist);
      old_xp ← get2 (player_playlist_xp st) player_name playlist;
      rank_before ← get2 (player_playlist_rank st) player_name playlist;
      st ← apply_result cfg winners losers player_name playlist rank_before st;
      update_rank cfg player_name playlist st
  end.

(** The body of the loop of step 3b over the matches. *)
Definition replay_game (cfg : xp_config) (st : tracking) (g : game) : option tracking :=
  let '(winners, losers) := determine_winners_losers g in
  match g_playlist g with
  | None => Some st
  | Some playlist =>
      if String.eqb playlist "" then Some st
      else foldlM (replay_player cfg winners losers playlist) st (g_players g)
  end.

Definition replay (cfg : xp_config) (st : tracking) (games : list game) : option tracking :=
  foldlM (replay_game cfg) st games.

End Replay.

(** ** Identity resolution and the accumulators' start *)

Definition resolve_player_to_discord (player_name : string)
    (identity_name_to_mac mac_to_discord : gmap string string) : option string :=
  let name_lower := Py.lower (Py.strip player_name) in
  mac ← identity_name_to_mac !! name_lower;
  mac_to_discord !! mac.

(** [if user_id:] on the resolver's answer. *)
Definition truthy_id (user_id : option string) : option string :=
  match user_id with
  | Some u => if String.eqb u "" then None else Some u
  | None => None
  end.

(** What step 3 builds before the replay. *)
Record registry := {
  all_player_names : gset string;
  player_to_id : gmap string string;
  rankstats : gmap string rank_entry;
  tr : tracking;
}.

Definition empty_tracking : tracking :=
  {| player_game_stats := ∅; player_playlist_xp := ∅; player_playlist_wins := ∅;
     player_playlist_losses := ∅; player_playlist_games := ∅;
     player_playlist_rank := ∅; player_playlist_highest_rank := ∅ |}.

(** [d[name].update(new)] entry by entry; [None] is [KeyError]. *)
Definition update2 (d : ndict) (name : string) (new : gmap string Z) : option ndict :=
  inner ← d !! name; Some (<[name := new ∪ inner]> d).

Module Identity.
Section WithHash.

(** [hash(player_name)] of the interpreter that runs [main].  CPython
  salts the hash of a [str] with a value drawn when the process starts
  (unless [PYTHONHASHSEED] fixes it), so the function is one per run. *)
Variable py_hash : string → Z.

(** [str(abs(hash(player_name)) % 10**18)]. *)
Definition temp_id (player_name : string) : string :=
Py.str_of_int (Z.abs (py_hash player_name) mod 10 ^ 18).

Variable incremental_mode : bool.
Variable saved_player_state : gmap string saved_state.
Variable mac_to_discord : gmap string string.

(** The accumulators of a name seen for the first time. *)
Definition first_tracking (t : tracking) (player_name : string)
  (user_id : option string) : tracking :=
match player_game_stats t !! player_name with
| Some _ => t
| None =>
    let saved :=
      if incremental_mode then u ← user_id; saved_player_state !! u else None in
    match saved with
    | Some saved =>
        {| player_game_stats :=
             <[player_name := {| gs_kills := sv_kills saved; gs_deaths := sv_deaths saved;
                                 gs_assists := sv_assists saved;
                                 gs_games := sv_total_games saved;
                                 gs_headshots := sv_headshots saved |}]>
               (player_game_stats t);
           player_playlist_xp :=
             <[player_name := st_xp <$> sv_playlists saved]> (player_playlist_xp t);
           player_playlist_wins :=
             <[player_name := st_wins <$> sv_playlists saved]> (player_playlist_wins t);
           player_playlist_losses :=
             <[player_name := st_losses <$> sv_playlists saved]> (player_playlist_losses t);
           player_playlist_games :=
             <[player_name := st_games <$> sv_playlists saved]> (player_playlist_games t);
           player_playlist_rank := player_playlist_rank t;
           player_playlist_highest_rank := player_playlist_highest_rank t |}
    | None =>
        {| player_game_stats := <[player_name := zero_stats]> (player_game_stats t);
           player_playlist_xp := <[player_name := ∅]> (player_playlist_xp t);
           player_playlist_wins := <[player_name := ∅]> (player_playlist_wins t);
           player_playlist_losses := <[player_name := ∅]> (player_playlist_losses t);
           player_playlist_games := <[player_name := ∅]> (player_playlist_games t);
           player_playlist_rank := player_playlist_rank t;
           player_playlist_highest_rank := player_playlist_highest_rank t |}
    end
end.

(** The body of the loop that identifies the players of a match. *)
Definition identify_player (identity_name_to_mac : gmap string string)
  (r : registry) (p : player) : registry :=
let player_name := p_name p in
if is_dedicated_server player_name then r else
let names := {[player_name]} ∪ all_player_names r in
match player_to_id r !! player_name with
| Some _ =>
    {| all_player_names := names; player_to_id := player_to_id r;
       rankstats := rankstats r; tr := tr r |}
| None =>
    let user_id :=
      truthy_id (resolve_player_to_discord player_name identity_name_to_mac mac_to_discord) in
    match user_id with
    | Some u =>
        let old_temp_id := temp_id player_name in
        let unlinked :=
          match rankstats r !! old_temp_id with
          | Some e => bool_decide (re_mac_linked e = Some false)
          | None => false
          end in
        {| all_player_names := names;
           player_to_id := <[player_name := u]> (player_to_id r);
           rankstats := if unlinked then delete old_temp_id (rankstats r) else rankstats r;
           tr := first_tracking (tr r) player_name user_id |}
    | None =>
        let id := temp_id player_name in
        {| all_player_names := names;
           player_to_id := <[player_name := id]> (player_to_id r);
           rankstats := <[id := new_entry "" (Some false)]> (rankstats r);
           tr := first_tracking (tr r) player_name user_id |}
    end
end.

Definition identify_game (r : registry) (g : game) : registry :=
foldl (identify_player (g_identity g)) r (g_players g).

Definition identify (r : registry) (all_games : list game) : registry :=
foldl identify_game r all_games.

(** The rank dicts: one per name seen, filled from the snapshot in
  incremental mode. *)
Definition start_ranks (field : standing → Z) (r : registry) : ndict :=
set_to_map (λ name,
    (name,
     match (if incremental_mode then player_to_id r !! name else None) with
     | Some user_id =>
         match saved_player_state !! user_id with
         | Some saved => field <$> sv_playlists saved
         | None => ∅
         end
     | None => ∅
     end))
  (all_player_names r).

Definition with_start_ranks (r : registry) : registry :=
{| all_player_names := all_player_names r; player_to_id := player_to_id r;
   rankstats := rankstats r;
   tr := with_highest_rank (with_rank (tr r) (start_ranks st_rank r))
                           (start_ranks st_highest_rank r) |}.

(** "Restoring player XP/rank state from saved state": what the loop does
  for one name whose identity is in the snapshot. *)
Definition restore_name (t : tracking) (player_name : string) (state : saved_state)
  : option tracking :=
let t :=
  match player_playlist_xp t !! player_name with
  | Some _ => t
  | None =>
      {| player_game_stats := player_game_stats t;
         player_playlist_xp := <[player_name := ∅]> (player_playlist_xp t);
         player_playlist_wins := <[player_name := ∅]> (player_playlist_wins t);
         player_playlist_losses := <[player_name := ∅]> (player_playlist_losses t);
         player_playlist_games := <[player_name := ∅]> (player_playlist_games t);
         player_playlist_rank := <[player_name := ∅]> (player_playlist_rank t);
         player_playlist_highest_rank :=
           <[player_name := ∅]> (player_playlist_highest_rank t) |}
  end in
xp ← update2 (player_playlist_xp t) player_name (st_xp <$> sv_playlists state);
rank ← update2 (player_playlist_rank t) player_name (st_rank <$> sv_playlists state);
highest ← update2 (player_playlist_highest_rank t) player_name
            (st_highest_rank <$> sv_playlists state);
wins ← update2 (player_playlist_wins t) player_name (st_wins <$> sv_playlists state);
losses ← update2 (player_playlist_losses t) player_name (st_losses <$> sv_playlists state);
games ← update2 (player_playlist_games t) player_name (st_games <$> sv_playlists state);
Some {| player_game_stats :=
          <[player_name := {| gs_kills := sv_kills state; gs_deaths := sv_deaths state;
                              gs_assists := sv_assists state;
                              gs_games := sv_total_games state;
                              gs_headshots := sv_headshots state |}]>
            (player_game_stats t);
        player_playlist_xp := xp; player_playlist_wins := wins;
        player_playlist_losses := losses; player_playlist_games := games;
        player_playlist_rank := rank; player_playlist_highest_rank := highest |}.

(** The restore loop.  The code runs over the identities of the snapshot
  and, for each, over the names that map to it; a name maps to one
  identity, so every name is restored at most once and the order of the
  visits does not matter. *)
Definition restore (r : registry) : option registry :=
if incremental_mode && nonempty_dict saved_player_state then
  t ← foldlM (λ t '(player_name, pid),
                match saved_player_state !! pid with
                | Some state => restore_name t player_name state
                | None => Some t
                end)
             (tr r) (map_to_list (player_to_id r));
  Some {| all_player_names := all_player_names r; player_to_id := player_to_id r;
          rankstats := rankstats r; tr := t |}
else Some r.

End WithHash.
End Identity.

(** ** Steps 1, 3a, 4 and the snapshot *)

Module Steps.

(** Step 1, full mode: "Zeroing out all player stats". *)
Definition zero_entry (e : rank_entry) : rank_entry :=
  {| re_discord_name := re_discord_name e; re_xp := 0; re_rank := 1; re_wins := 0;
     re_losses := 0; re_total_games := 0; re_kills := 0; re_deaths := 0;
     re_assists := 0; re_headshots := 0; re_highest_rank := re_highest_rank e;
     re_playlists := re_playlists e; re_mac_linked := re_mac_linked e |}.

(** Step 1, incremental mode: an entry restored from the snapshot. *)
Definition restore_entry (state : saved_state) (e : rank_entry) : rank_entry :=
  {| re_discord_name := re_discord_name e; re_xp := sv_xp state; re_rank := sv_rank state;
     re_wins := sv_wins state; re_losses := sv_losses state;
     re_total_games := sv_total_games state; re_kills := sv_kills state;
     re_deaths := sv_deaths state; re_assists := sv_assists state;
     re_headshots := sv_headshots state; re_highest_rank := sv_highest_rank state;
     re_playlists := sv_playlists state ∪ re_playlists e;
     re_mac_linked := re_mac_linked e |}.

Definition step1 (incremental_mode : bool) (saved_player_state : gmap string saved_state)
    (rankstats : gmap string rank_entry) : gmap string rank_entry :=
  if incremental_mode && nonempty_dict saved_player_state then
    map_imap (λ user_id e,
                Some (match saved_player_state !! user_id with
                      | Some state => restore_entry state e
                      | None => e
                      end))
             rankstats
  else zero_entry <$> rankstats.

(** The ranked matches, playlist by playlist. *)
Definition ranked_games (all_games : list game) : list game :=
  flat_map (λ playlist, filter (λ g, g_playlist g = Some playlist) all_games)
           [PLAYLIST_MLG_4V4; PLAYLIST_TEAM_HARDCORE; PLAYLIST_DOUBLE_TEAM;
            PLAYLIST_HEAD_TO_HEAD].

(** The matches of steps 3a and 3b: the new ones only in incremental
    mode. *)
Definition games_to_process (incremental_mode : bool) (new_files : list string)
    (all_games : list game) : list game :=
  if incremental_mode
  then filter (λ g, g_source_file g ∈ new_files) (ranked_games all_games)
  else ranked_games all_games.

(** Step 3a: kills, deaths, assists, head shots and games. *)
Definition count_player (stats : gmap string game_stats) (p : player)
    : gmap string game_stats :=
  if is_dedicated_server (p_name p) then stats else
  match stats !! p_name p with
  | None => stats
  | Some s =>
      <[p_name p := {| gs_kills := gs_kills s + p_kills p;
                       gs_deaths := gs_deaths s + p_deaths p;
                       gs_assists := gs_assists s + p_assists p;
                       gs_games := gs_games s + 1;
                       gs_headshots := gs_headshots s + p_head_shots p |}]> stats
  end.

Definition step3a (t : tracking) (games : list game) : tracking :=
  with_stats t (foldl (λ stats g, foldl count_player stats (g_players g))
                      (player_game_stats t) games).

(** Step 4, "Group player names by user_id": [None] is the [KeyError] of
    a name without an identity. *)
Definition group_names (r : registry) : option (gmap string (list string)) :=
  foldlM (λ (m : gmap string (list string)) player_name,
            user_id ← player_to_id r !! player_name;
            Some (<[user_id := default [] (m !! user_id) ++ [player_name]]> m))
         ∅ (elements (all_player_names r)).

(** [sum(d[name].values())], the dict taken as empty when absent. *)
Definition sum_values (d : ndict) (name : string) : Z :=
  sumZ ((map_to_list (default ∅ (d !! name))).*2).

(** The standing of one playlist, summed over the aliases. *)
Definition playlist_standing (cfg : xp_config) (t : tracking) (player_names : list string)
    (playlist : string) : standing :=
  let playlist_xp :=
    sumZ ((λ n, get2_default (player_playlist_xp t) n playlist 0) <$> player_names) in
  {| st_xp := playlist_xp;
     st_rank := calculate_rank playlist_xp (rank_thresholds cfg);
     st_highest_rank :=
       foldl (λ h n, Z.max h (get2_default (player_playlist_highest_rank t) n playlist 1))
             1 player_names;
     st_wins := sumZ ((λ n, get2_default (player_playlist_wins t) n playlist 0) <$> player_names);
     st_losses :=
       sumZ ((λ n, get2_default (player_playlist_losses t) n playlist 0) <$> player_names);
     st_games :=
       sumZ ((λ n, get2_default (player_playlist_games t) n playlist 0) <$> player_names) |}.

(** The playlists an identity played in, over all its aliases. *)
Definition all_playlists (t : tracking) (player_names : list string) : gset string :=
  ⋃ ((λ n, dom (default ∅ (player_playlist_xp t !! n))) <$> player_names).

(** The loop over the playlists of an identity keeps the highest rank and
    the playlist with the most XP ("primary"). *)
Definition scan_playlists (cfg : xp_config) (t : tracking) (player_names : list string)
    (playlists : list string) : Z * option string * Z :=
  foldl (λ '(overall_highest_rank, primary_playlist, primary_xp) playlist,
           let s := playlist_standing cfg t player_names playlist in
           let overall := if overall_highest_rank <? st_highest_rank s
                          then st_highest_rank s else overall_highest_rank in
           if primary_xp <? st_xp s then (overall, Some playlist, st_xp s)
           else (overall, primary_playlist, primary_xp))
        (1, None, 0) playlists.

(** The entry that step 4 writes for one identity: [old] is the entry the
    identity has in [rankstats], if any. *)
Definition consolidate_entry (cfg : xp_config) (players : gmap string string)
    (t : tracking) (old : option rank_entry)
    (user_id : string) (player_names : list string) : rank_entry :=
  let e := default (new_entry (default "" (players !! user_id)) None) old in
  let stats := (λ n, default zero_stats (player_game_stats t !! n)) <$> player_names in
  let playlists := all_playlists t player_names in
  let playlists_data : gmap string standing :=
    set_to_map (λ playlist, (playlist, playlist_standing cfg t player_names playlist))
               playlists in
  let '(overall_highest_rank, primary_playlist, primary_xp) :=
    scan_playlists cfg t player_names (elements playlists) in
  {| re_discord_name := re_discord_name e;
     re_xp := match primary_playlist with Some _ => primary_xp | None => 0 end;
     re_rank := match primary_playlist with
                | Some _ => calculate_rank primary_xp (rank_thresholds cfg)
                | None => 1
                end;
     re_wins := sumZ (sum_values (player_playlist_wins t) <$> player_names);
     re_losses := sumZ (sum_values (player_playlist_losses t) <$> player_names);
     re_total_games := sumZ (gs_games <$> stats);
     re_kills := sumZ (gs_kills <$> stats);
     re_deaths := sumZ (gs_deaths <$> stats);
     re_assists := sumZ (gs_assists <$> stats);
     re_headshots := sumZ (gs_headshots <$> stats);
     re_highest_rank := overall_highest_rank;
     re_playlists := playlists_data;
     re_mac_linked := match re_mac_linked e with
                      | Some b => Some b
                      | None => Some true
                      end |}.

(** The body of the loop of step 4 for one identity. *)
Definition consolidate_user (cfg : xp_config) (players : gmap string string)
    (t : tracking) (rankstats : gmap string rank_entry)
    (user_id : string) (player_names : list string) : gmap string rank_entry :=
  <[user_id := consolidate_entry cfg players t (rankstats !! user_id) user_id player_names]>
    rankstats.

(** Step 4. *)
Definition consolidate (cfg : xp_config) (players : gmap string string) (r : registry)
    : option (gmap string rank_entry) :=
  groups ← group_names r;
  Some (foldl (λ rs '(user_id, player_names),
                 consolidate_user cfg players (tr r) rs user_id player_names)
              (rankstats r) (map_to_list groups)).

(** [new_player_state]: the identities with game data. *)
Definition snapshot (rankstats : gmap string rank_entry) : gmap string saved_state :=
  omap (λ data,
          if (0 <? re_total_games data) || (0 <? re_wins data) || (0 <? re_losses data)
          then Some {| sv_xp := re_xp data; sv_rank := re_rank data;
                       sv_wins := re_wins data; sv_losses := re_losses data;
                       sv_total_games := re_total_games data; sv_kills := re_kills data;
                       sv_deaths := re_deaths data; sv_assists := re_assists data;
                       sv_headshots := re_headshots data;
                       sv_highest_rank := re_highest_rank data;
                       sv_playlists := re_playlists data |}
          else None)
       rankstats.

End Steps.

(** ** The ranking run of [main] *)

(** What a run reads besides the plan: [rankstats.json], the Discord names
    of [players.json], the address registry, and the parsed and classified
    matches in file-name order. *)
Record run_input := {
  in_rankstats : gmap string rank_entry;
  in_players : gmap string string;
  in_mac_to_discord : gmap string string;
  in_games : list game;
}.

Record run_output := {
  out_rankstats : gmap string rank_entry;
  out_registry : registry;
  out_processed : processed_state;
}.

Module Main.
Section Run.

Variable py_hash : string → Z.
Variable get_manual_playlists_hash : manual → string.
Variable cfg : xp_config.

(** Steps 1 to 4 and the snapshot, after the plan is made.  [None] is an
  uncaught exception. *)
Definition run (manual_playlists : manual) (pl : plan) (i : run_input) : option run_output :=
let incremental_mode := pl_incremental pl in
let saved_player_state : gmap string saved_state :=
  if incremental_mode then ps_player_state (pl_processed pl) else ∅ in
let rs0 := Steps.step1 incremental_mode saved_player_state (in_rankstats i) in
let r0 := {| all_player_names := ∅;
             player_to_id := if incremental_mode
                             then ps_player_name_to_id (pl_processed pl) else ∅;
             rankstats := rs0; tr := empty_tracking |} in
let r := Identity.identify py_hash incremental_mode saved_player_state
           (in_mac_to_discord i) r0 (in_games i) in
let r := Identity.with_start_ranks incremental_mode saved_player_state r in
r ← Identity.restore incremental_mode saved_player_state r;
let games := Steps.games_to_process incremental_mode (pl_new_files pl) (in_games i) in
let t := Steps.step3a (tr r) games in
t ← Replay.replay cfg t games;
let r := {| all_player_names := all_player_names r; player_to_id := player_to_id r;
            rankstats := rankstats r; tr := t |} in
rs ← Steps.consolidate cfg (in_players i) r;
Some {| out_rankstats := rs;
        out_registry := r;
        out_processed :=
          {| ps_games := Ledger.build_games (ps_games (pl_processed pl))
                           (pl_full_rebuild pl) (in_games i);
             ps_manual_playlists_hash := get_manual_playlists_hash manual_playlists;
             ps_manual_unranked_hash := "";
             ps_player_state := Steps.snapshot rs;
             ps_player_name_to_id := player_to_id r |} |}.

End Run.
End Main.

(** ** Specification predicates and sample inputs *)

(** An eight-player team match on Lockout, Slayer, five minutes long. *)
Definition lockout_slayer : game_file :=
  {| gf_name := "20251215_011357.xlsx";
     gf_details := Some {| dr_map_name := "Lockout"; dr_game_type := "Slayer";
                           dr_duration := "5:00"; dr_red_score := Some 50;
                           dr_blue_score := Some 43 |};
     gf_teams := Some ["Red"; "Red"; "Red"; "Red"; "Blue"; "Blue"; "Blue"; "Blue"] |}.




(** A match the run classifies as unranked. *)
Definition unranked_now : game :=
  {| g_details := ∅; g_players := []; g_detailed_stats := [];
     g_source_file := "20251128_201839.xlsx"; g_playlist := None; g_identity := ∅ |}.

(** The band of tier [rank] holds [xp]. *)
Definition in_band (rank_thresholds : gmap string (Z * Z)) (rank xp : Z) : Prop :=
  ∃ min_xp max_xp,
    rank_thresholds !! Py.str_of_int rank = Some (min_xp, max_xp) ∧ min_xp ≤ xp ≤ max_xp.

(** The bands climb with the tiers: the band of a higher tier lies above
    the band of a lower one. *)
Definition bands_ordered (rank_thresholds : gmap string (Z * Z)) : Prop :=
  ∀ r s lo_r hi_r lo_s hi_s,
    1 ≤ r → r < s → s ≤ 50 →
    rank_thresholds !! Py.str_of_int r = Some (lo_r, hi_r) →
    rank_thresholds !! Py.str_of_int s = Some (lo_s, hi_s) →
    hi_r < lo_s.

(** Some tier's band holds [xp]. *)
Definition covered (rank_thresholds : gmap string (Z * Z)) (xp : Z) : Prop :=
  ∃ rank, 1 ≤ rank ≤ 50 ∧ in_band rank_thresholds rank xp.

(** A four-tier table. *)
Definition small_table : gmap string (Z * Z) :=
  list_to_map [("1", (0, 99)); ("2", (100, 199)); ("3", (200, 299)); ("4", (300, 399))].

(** A snapshot of one identity, one match played and won. *)
Definition one_win : saved_state :=
  {| sv_xp := 100; sv_rank := 2; sv_wins := 1; sv_losses := 0; sv_total_games := 1;
     sv_kills := 12; sv_deaths := 7; sv_assists := 3; sv_headshots := 4;
     sv_highest_rank := 2;
     sv_playlists := {[ "MLG 4v4" := {| st_xp := 100; st_rank := 2; st_highest_rank := 2;
                                        st_wins := 1; st_losses := 0; st_games := 1 |} ]} |}.

(** The processed state after a run over one file that the override map
    put in MLG 4v4; [stored_hash] is the hash of the override map of that
    run. *)
Definition after_first_run (stored_hash : string) : processed_state :=
  {| ps_games := {[ "20251128_201839.xlsx" := Some "MLG 4v4" ]};
     ps_manual_playlists_hash := stored_hash;
     ps_manual_unranked_hash := "";
     ps_player_state := {[ "210187331066396672" := one_win ]};
     ps_player_name_to_id := {[ "Ace" := "210187331066396672" ]} |}.

(** The override map of the next run: an entry was added. *)
Definition overrides_grown : manual :=
  {[ "20251128_201839.xlsx" := Some "MLG 4v4"; "20251128_202256.xlsx" := Some "MLG 4v4" ]}.

(** The keys of a dict of dicts: for each name, the playlists it holds. *)
Definition shape (d : ndict) : gmap string (gset string) := dom <$> d.

(** [a] holds every cell of [b]. *)
Definition covers (a b : gmap string (gset string)) : Prop :=
  ∀ name s, b !! name = Some s → ∃ s', a !! name = Some s' ∧ s ⊆ s'.

(** The accumulators are aligned: the XP, wins, losses and games dicts hold
    the same names and, for each name, the same playlists, and the two rank
    dicts hold at least those.  The code relies on it ([d[name][playlist]]
    would raise otherwise); the start of step 3 establishes it. *)
Definition tracking_wf (t : tracking) : Prop :=
  shape (player_playlist_wins t) = shape (player_playlist_xp t) ∧
  shape (player_playlist_losses t) = shape (player_playlist_xp t) ∧
  shape (player_playlist_games t) = shape (player_playlist_xp t) ∧
  covers (shape (player_playlist_rank t)) (shape (player_playlist_xp t)) ∧
  covers (shape (player_playlist_highest_rank t)) (shape (player_playlist_xp t)).

(** The six dicts keep their shape from [t] to [t']. *)
Definition same_shapes (t t' : tracking) : Prop :=
  shape (player_playlist_xp t') = shape (player_playlist_xp t) ∧
  shape (player_playlist_wins t') = shape (player_playlist_wins t) ∧
  shape (player_playlist_losses t') = shape (player_playlist_losses t) ∧
  shape (player_playlist_games t') = shape (player_playlist_games t) ∧
  shape (player_playlist_rank t') = shape (player_playlist_rank t) ∧
  shape (player_playlist_highest_rank t') = shape (player_playlist_highest_rank t).

(** What a row does to the cell of its player: the new XP, wins, losses
    and games from the old ones, by the outcome. *)
Definition result_cell (cfg : xp_config) (winners losers : list string) (name : string)
    (rank_before : Z) (c : Z * Z * Z * Z) : option (Z * Z * Z * Z) :=
  let '(x, w, l, g) := c in
  if mem name winners then
    d ← win_xp_change cfg rank_before; _ ← win_percent cfg rank_before;
    Some (x + d, w + 1, l, g + 1)
  else if mem name losers then
    d ← loss_xp_change cfg rank_before; _ ← loss_percent cfg rank_before;
    Some (Z.max 0 (x + d), w, l + 1, g + 1)
  else Some (x, w, l, g + 1).

(** The cell of a player before a row: the stored values, or the values
    the code starts a new playlist with. *)
Definition cell_before (t : tracking) (name playlist : string) : Z * Z * Z * Z :=
  (get2_default (player_playlist_xp t) name playlist 0,
   get2_default (player_playlist_wins t) name playlist 0,
   get2_default (player_playlist_losses t) name playlist 0,
   get2_default (player_playlist_games t) name playlist 0).

Definition rank_before_row (t : tracking) (name playlist : string) : Z :=
  if bool_decide (is_Some (get2 (player_playlist_xp t) name playlist))
  then get2_default (player_playlist_rank t) name playlist 1 else 1.

(** No accumulator holds a negative XP. *)
Definition xp_nonneg (t : tracking) : Prop :=
  ∀ name playlist v, get2 (player_playlist_xp t) name playlist = Some v → 0 ≤ v.

(** A win never costs XP: whenever the configuration yields the XP change
    of a win, the change is not negative (the base win XP and the win
    factors are not negative). *)
Definition wins_never_cost (cfg : xp_config) : Prop :=
  ∀ rank d, win_xp_change cfg rank = Some d → 0 ≤ d.

(** [teams.get(team)] on the insertion-ordered dict. *)
Fixpoint team_entry (teams : teams_dict) (team : string) : option (Z * list string) :=
  match teams with
  | [] => None
  | (t, e) :: rest => if String.eqb t team then Some e else team_entry rest team
  end.

(** The rows of a list that the engine puts on a team. *)
Definition rows_on (team : string) (ps : list player) : list player :=
  filter (λ p, on_team team p = true) ps.

(** The entry the engine holds for a team after the rows [ps]. *)
Definition entry_spec (ctf : bool) (detailed : gmap string Z) (ps : list player)
    (team : string) : option (Z * list string) :=
  if bool_decide ((team = "Red" ∨ team = "Blue") ∧ rows_on team ps ≠ [])
  then Some (sumZ (row_points ctf detailed <$> rows_on team ps), p_name <$> rows_on team ps)
  else None.

(** A team has rows in the match. *)
Definition has_team (g : game) (team : string) : Prop := rows_on team (g_players g) ≠ [].

(** A configuration: 100 XP for a win, 100 off for a loss, no factor
    tables, four tiers. *)
Definition sample_config : xp_config :=
  {| rank_thresholds := small_table;
     game_win := Py.NInt 100;
     game_loss := Py.NInt (-100);
     loss_factors := ∅;
     win_factors := ∅ |}.

(** Accumulators of two players before their first ranked match. *)
Definition fresh_two : tracking :=
  let d : ndict := {[ "Ace" := ∅; "Cat" := ∅ ]} in
  {| player_game_stats := {[ "Ace" := zero_stats; "Cat" := zero_stats ]};
     player_playlist_xp := d; player_playlist_wins := d; player_playlist_losses := d;
     player_playlist_games := d; player_playlist_rank := d;
     player_playlist_highest_rank := d |}.

Definition row (name team : string) (points : Z) : player :=
  {| p_name := name; p_team := team; p_score := Py.str_of_int points;
     p_score_numeric := points; p_kills := points; p_deaths := 0; p_assists := 0;
     p_head_shots := 0 |}.

(** A head-to-head match of two rows. *)
Definition duel (file a : string) (pa : Z) (b : string) (pb : Z) : game :=
  {| g_details := {[ "Game Type" := "Slayer"; "Variant Name" := "1v1 Slayer";
                     "Map Name" := "Lockout" ]};
     g_players := [row a "Red" pa; row b "Blue" pb];
     g_detailed_stats := [];
     g_source_file := file;
     g_playlist := Some PLAYLIST_HEAD_TO_HEAD;
     g_identity := ∅ |}.

(** Cat beats Ace three times. *)
Definition losing_streak : list game :=
  [duel "20251201_200000.xlsx" "Ace" 7 "Cat" 15;
   duel "20251201_201500.xlsx" "Ace" 9 "Cat" 15;
   duel "20251201_203000.xlsx" "Cat" 15 "Ace" 3].

(** The rows of a list that the replay processes for [name], from the
    accumulators [t]. *)
Definition rows_processed (t : tracking) (name : string) (ps : list player) : list player :=
  filter (λ p, p_name p = name ∧ is_dedicated_server name = false
               ∧ is_Some (player_playlist_xp t !! name)) ps.

(** The rows of a match that the replay processes for [name]: rows of that
    name, not a dedicated server, with accumulators. *)
Definition processed_rows (t : tracking) (g : game) (name : string) : list player :=
  rows_processed t name (g_players g).

(** The XP, wins and losses of every cell are the same in [t] and [t'],
    and the games of the cells of playlist [q] went up by [count]. *)
Definition tie_effect (q : string) (count : string → Z) (t t' : tracking) : Prop :=
  ∀ name playlist,
    get2_default (player_playlist_xp t') name playlist 0
      = get2_default (player_playlist_xp t) name playlist 0 ∧
    get2_default (player_playlist_wins t') name playlist 0
      = get2_default (player_playlist_wins t) name playlist 0 ∧
    get2_default (player_playlist_losses t') name playlist 0
      = get2_default (player_playlist_losses t) name playlist 0 ∧
    get2_default (player_playlist_games t') name playlist 0
      = get2_default (player_playlist_games t) name playlist 0
        + (if decide (playlist = q) then count name else 0).

(** Two players, three points each. *)
Definition drawn_duel : game := duel "20251202_210000.xlsx" "Ace" 3 "Cat" 3.

(** C5 as it is stated: the winner written to the log of [playlist_name]
    is Red, Blue or Tie by the comparison of the engine's team scores. *)
Definition winner_agrees (playlist_name : string) (display : string → string) (g : game)
    : Prop :=
  let winner := MatchLog.recorded_winner playlist_name display g in
  (winner = "Red" ↔ team_score g "Blue" < team_score g "Red") ∧
  (winner = "Blue" ↔ team_score g "Red" < team_score g "Blue") ∧
  (winner = "Tie" ↔ team_score g "Red" = team_score g "Blue").

(** A head-to-head match that Ace, on Red, wins 15 to 7. *)
Definition ace_wins : game := duel "20251203_190000.xlsx" "Ace" 15 "Cat" 7.

(** A doubles match that Red wins 50 to 30. *)
Definition red_wins_doubles : game :=
  {| g_details := {[ "Game Type" := "Slayer"; "Variant Name" := "Team Slayer";
                     "Map Name" := "Midship" ]};
     g_players := [row "Ace" "Red" 30; row "Bolt" "Red" 20;
                   row "Cat" "Blue" 20; row "Dan" "Blue" 10];
     g_detailed_stats := [];
     g_source_file := "20251203_193000.xlsx";
     g_playlist := Some PLAYLIST_DOUBLE_TEAM;
     g_identity := ∅ |}.

(** The four players of that match are linked to identities with Discord
    names. *)
Definition linked_ids : gmap string string :=
  {[ "Ace" := "1001"; "Bolt" := "1002"; "Cat" := "1003"; "Dan" := "1004" ]}.

Definition linked_rankstats : gmap string rank_entry :=
  {[ "1001" := new_entry "Alice" (Some true); "1002" := new_entry "Bob" (Some true);
     "1003" := new_entry "Carol" (Some true); "1004" := new_entry "Dave" (Some true) ]}.


(** The names that step 3 mapped to the identity [user_id], in the order
    in which step 4 visits [all_player_names]. *)
Definition aliases (r : registry) (user_id : string) : list string :=
  filter (λ n, player_to_id r !! n = Some user_id) (elements (all_player_names r)).

(** The standing that a run's output holds for an identity in a playlist. *)
Definition standing_of (o : option run_output) (user_id playlist : string)
    : option standing :=
  o ← o; e ← out_rankstats o !! user_id; re_playlists e !! playlist.

(** The accumulator cell of an in-game name at the end of a run. *)
Definition alias_xp (o : option run_output) (name playlist : string) : option Z :=
  o ← o; get2 (player_playlist_xp (tr (out_registry o))) name playlist.

(** A threshold table whose top band is wide. *)
Definition wide_config : xp_config :=
  {| rank_thresholds :=
       list_to_map [("1", (0, 99)); ("2", (100, 199)); ("3", (200, 299)); ("4", (300, 9999))];
     game_win := Py.NInt 100;
     game_loss := Py.NInt (-100);
     loss_factors := ∅;
     win_factors := ∅ |}.

(** The identity file of a session: Ace and Bolt are two in-game names of
    one machine. *)
Definition session_identity : gmap string string :=
  {[ "ace" := "0050f2a1b2c3"; "bolt" := "0050f2a1b2c3"; "cat" := "0050f2000002";
     "dan" := "0050f2000003"; "eve" := "0050f2000004" ]}.

(** The address registry of [players.json]. *)
Definition address_registry : gmap string string :=
  {[ "0050f2a1b2c3" := "210187331066396672"; "0050f2000002" := "310000000000000002";
     "0050f2000003" := "310000000000000003"; "0050f2000004" := "310000000000000004" ]}.

(** A head-to-head match of the session that [a], on Red, wins 15 to 5. *)
Definition session_duel (file a b : string) : game :=
  {| g_details := {[ "Game Type" := "Slayer"; "Variant Name" := "1v1 Slayer";
                     "Map Name" := "Lockout" ]};
     g_players := [row a "Red" 15; row b "Blue" 5];
     g_detailed_stats := [];
     g_source_file := file;
     g_playlist := Some PLAYLIST_HEAD_TO_HEAD;
     g_identity := session_identity |}.

(** Two matches that one person wins under two names, and a later match
    of two other players. *)
Definition alias_games : list game :=
  [session_duel "20251201_200000.xlsx" "Ace" "Cat";
   session_duel "20251201_201500.xlsx" "Bolt" "Cat"].

Definition later_game : game := session_duel "20251208_200000.xlsx" "Dan" "Eve".

Definition session_overrides : manual :=
  {[ "20251201_200000.xlsx" := Some "Head to Head";
     "20251201_201500.xlsx" := Some "Head to Head";
     "20251208_200000.xlsx" := Some "Head to Head" ]}.

Definition session_input (games : list game) : run_input :=
  {| in_rankstats := ∅; in_players := ∅; in_mac_to_discord := address_registry;
     in_games := games |}.

Module Session.
Section Runs.

Variable py_hash : string → Z.
Variable get_manual_playlists_hash : manual → string.

(** [main] on a directory of stats files, from the processed state
[loaded]. *)
Definition run_main (force_rebuild : bool) (games : list game) (loaded : processed_state)
  : option run_output :=
pl ← Current.plan_run get_manual_playlists_hash force_rebuild (g_source_file <$> games)
       session_overrides loaded;
Main.run py_hash get_manual_playlists_hash wide_config session_overrides pl
  (session_input games).

(** The first run, over the two matches, with no processed state. *)
Definition first_run : option run_output :=
run_main false alias_games empty_processed_state.

(** The plan of the next run, after the later match arrived. *)
Definition second_plan : option plan :=
o ← first_run;
Current.plan_run get_manual_playlists_hash false
  (g_source_file <$> alias_games ++ [later_game]) session_overrides (out_processed o).

Definition second_run : option run_output :=
o ← first_run; run_main false (alias_games ++ [later_game]) (out_processed o).

(** The same three matches with [--force]. *)
Definition forced_run : option run_output :=
run_main true (alias_games ++ [later_game]) empty_processed_state.

End Runs.
End Session.

(** The six per-playlist dicts of [name] hold the standings of the
    snapshot [state]. *)
Definition seeded (t : tracking) (name : string) (state : saved_state) : Prop :=
  ∀ q st, sv_playlists state !! q = Some st →
    get2 (player_playlist_xp t) name q = Some (st_xp st) ∧
    get2 (player_playlist_wins t) name q = Some (st_wins st) ∧
    get2 (player_playlist_losses t) name q = Some (st_losses st) ∧
    get2 (player_playlist_games t) name q = Some (st_games st) ∧
    get2 (player_playlist_rank t) name q = Some (st_rank st) ∧
    get2 (player_playlist_highest_rank t) name q = Some (st_highest_rank st).

(** The overall figures of the snapshot [state], as the row of
    [player_game_stats] that the restore gives a name. *)
Definition saved_figures (state : saved_state) : game_stats :=
  {| gs_kills := sv_kills state; gs_deaths := sv_deaths state;
     gs_assists := sv_assists state; gs_games := sv_total_games state;
     gs_headshots := sv_headshots state |}.

(** The six per-playlist dicts hold the same for [name] in [t] and [t']. *)
Definition same_dicts_at (t t' : tracking) (name : string) : Prop :=
  player_playlist_xp t' !! name = player_playlist_xp t !! name ∧
  player_playlist_wins t' !! name = player_playlist_wins t !! name ∧
  player_playlist_losses t' !! name = player_playlist_losses t !! name ∧
  player_playlist_games t' !! name = player_playlist_games t !! name ∧
  player_playlist_rank t' !! name = player_playlist_rank t !! name ∧
  player_playlist_highest_rank t' !! name = player_playlist_highest_rank t !! name.

(** A registry of an incremental run before the restore loop: two names
    of one identity, and the snapshot of the identity. *)
Definition two_names : registry :=
  {| all_player_names := {[ "Ace"; "Bolt" ]};
     player_to_id := {[ "Ace" := "210187331066396672"; "Bolt" := "210187331066396672" ]};
     rankstats := ∅;
     tr := empty_tracking |}.

Definition two_wins : saved_state :=
  {| sv_xp := 200; sv_rank := 3; sv_wins := 2; sv_losses := 0; sv_total_games := 2;
     sv_kills := 30; sv_deaths := 10; sv_assists := 0; sv_headshots := 0;
     sv_highest_rank := 2;
     sv_playlists := {[ "Head to Head" := {| st_xp := 200; st_rank := 3; st_highest_rank := 2;
                                             st_wins := 2; st_losses := 0; st_games := 2 |} ]} |}.

(** Step 4 summed the accumulators of the names of [u] into the entry of
    [u] in [rs]. *)
Definition sums_aliases (cfg : xp_config) (r : registry) (rs : gmap string rank_entry)
    (u : string) : Prop :=
  let names := aliases r u in
  let total (d : ndict) (q : string) := sumZ ((λ n, get2_default d n q 0) <$> names) in
  NoDup names ∧
  (∀ n, n ∈ names ↔ n ∈ all_player_names r ∧ player_to_id r !! n = Some u) ∧
  ∃ e, rs !! u = Some e ∧
    ∀ q, (∃ n, n ∈ names ∧ is_Some (get2 (player_playlist_xp (tr r)) n q)) →
      ∃ s, re_playlists e !! q = Some s ∧
        st_xp s = total (player_playlist_xp (tr r)) q ∧
        st_wins s = total (player_playlist_wins (tr r)) q ∧
        st_losses s = total (player_playlist_losses (tr r)) q ∧
        st_games s = total (player_playlist_games (tr r)) q ∧
        st_rank s = calculate_rank (st_xp s) (rank_thresholds cfg).

(** The accumulators of two names with 100 XP each in one playlist. *)
Definition two_names_played : registry :=
  let d (v : Z) : ndict :=
    {[ "Ace" := {[ "Head to Head" := v ]}; "Bolt" := {[ "Head to Head" := v ]} ]} in
  {| all_player_names := {[ "Ace"; "Bolt" ]};
     player_to_id := {[ "Ace" := "210187331066396672"; "Bolt" := "210187331066396672" ]};
     rankstats := ∅;
     tr := {| player_game_stats := {[ "Ace" := zero_stats; "Bolt" := zero_stats ]};
              player_playlist_xp := d 100; player_playlist_wins := d 1;
              player_playlist_losses := d 0; player_playlist_games := d 1;
              player_playlist_rank := d 2; player_playlist_highest_rank := d 2 |} |}.

(** The registry of a full rebuild while the players are identified: every
    name seen has an identity, and the XP, wins, losses and games dicts hold
    an empty dict for the same names, all of them names seen. *)
Definition fresh_registry (r : registry) : Prop :=
  (∀ n, n ∈ all_player_names r → is_Some (player_to_id r !! n)) ∧
  ∃ S : gset string, S ⊆ all_player_names r ∧
    player_playlist_xp (tr r) = gset_to_gmap ∅ S ∧
    player_playlist_wins (tr r) = gset_to_gmap ∅ S ∧
    player_playlist_losses (tr r) = gset_to_gmap ∅ S ∧
    player_playlist_games (tr r) = gset_to_gmap ∅ S.

(** The plan of a forced rebuild over the files of [games]. *)
Definition forced_plan (games : list game) : plan :=
  {| pl_full_rebuild := true; pl_new_files := g_source_file <$> games;
     pl_incremental := false; pl_processed := empty_processed_state |}.

(** ** MAC addresses: the bot's [/linkmac] and the stats side *)

Module PyStr.

Definition upper_ascii (a : ascii) : ascii :=
  let n := nat_of_ascii a in
  if ((97 <=? n)%nat && (n <=? 122)%nat) then ascii_of_nat (n - 32) else a.

(** [str.isascii]: every character is below 128.  A [str] of such
    characters and the [string] of its bytes are the same sequence. *)
Fixpoint is_ascii (s : string) : bool :=
  match s with
  | EmptyString => true
  | String a s' => (nat_of_ascii a <? 128)%nat && is_ascii s'
  end.

(** [str.upper] on ASCII text ([is_ascii]): the letters a to z go to A to Z
    and every other character stays.  On other text [str.upper] does more
    (it turns the sharp s into SS, for one), which is not modelled: a
    statement that depends on [upper] is about ASCII text. *)
Fixpoint upper (s : string) : string :=
  match s with
  | EmptyString => EmptyString
  | String a s' => String (upper_ascii a) (upper s')
  end.

(** [s.replace(c, '')] for a one-character [c]. *)
Fixpoint remove (c : ascii) (s : string) : string :=
  match s with
  | EmptyString => EmptyString
  | String a s' => if Ascii.eqb a c then remove c s' else String a (remove c s')
  end.

(** [s.replace(c, d)] for one-character [c] and [d]. *)
Fixpoint replace_char (c d : ascii) (s : string) : string :=
  match s with
  | EmptyString => EmptyString
  | String a s' => String (if Ascii.eqb a c then d else a) (replace_char c d s')
  end.

(** [sep.join(parts)]. *)
Fixpoint join (sep : string) (parts : list string) : string :=
  match parts with
  | [] => EmptyString
  | [p] => p
  | p :: ps => p ++ sep ++ join sep ps
  end.

End PyStr.

(** [normalize_mac] of [populate_stats.py]. *)
Definition normalize_mac (mac : string) : string :=
  if String.eqb mac "" then "" else
  Py.lower (PyStr.remove " " (PyStr.remove "-" (PyStr.remove ":" mac))).

Module Commands.

(** The cleaning of the address typed into [/linkmac] and [/unlinkmac]. *)
Definition clean_mac (mac_address : string) : string :=
  let mac_address := PyStr.upper (Py.strip mac_address) in
  let clean_mac := PyStr.remove " " (PyStr.replace_char "-" ":" mac_address) in
  if negb (Py.contains ":" clean_mac) && (String.length clean_mac =? 12)%nat
  then PyStr.join ":" ((λ i, String.substring i 2 clean_mac) <$> [0; 2; 4; 6; 8; 10]%nat)
  else clean_mac.

(** What the commands read and write of an entry of [players.json];
    [None] is a key that the entry does not have. *)
Record bot_player := {
  bp_mac_addresses : option (list string);
  bp_display_name : option string;
  bp_discord_name : option string;
}.

Definition no_player : bot_player :=
  {| bp_mac_addresses := None; bp_display_name := None; bp_discord_name := None |}.

(** [data.get("mac_addresses", [])]. *)
Definition macs_of (d : bot_player) : list string := default [] (bp_mac_addresses d).

(** The Discord member a command is about. *)
Record member := {
  mb_id : string;
  mb_display_name : string;
  mb_name : string;
}.

Inductive link_result := LinkedElsewhere | AlreadyLinked | Linked.

(** The loop "Check if this MAC is already linked to someone else". *)
Definition linked_elsewhere (players : gmap string bot_player) (user_id mac : string) : bool :=
  existsb (λ '(other_id, other_data),
             negb (String.eqb other_id user_id) && mem mac (macs_of other_data))
          (map_to_list players).

(** [/linkmac]: the content of [players.json] after the command, and its
    answer.  The file is written only when the address is added. *)
Definition link_mac (players : gmap string bot_player) (player : member)
    (mac_address : string) : gmap string bot_player * link_result :=
  let clean_mac := clean_mac mac_address in
  let user_id := mb_id player in
  let entry := default no_player (players !! user_id) in
  if linked_elsewhere players user_id clean_mac then (players, LinkedElsewhere)
  else if mem clean_mac (macs_of entry) then (players, AlreadyLinked)
  else
    (<[user_id :=
         {| bp_mac_addresses := Some (macs_of entry ++ [clean_mac]);
            bp_display_name := if String.eqb (mb_display_name player) ""
                               then bp_display_name entry
                               else Some (mb_display_name player);
            bp_discord_name := Some (mb_name player) |}]> players,
     Linked).

Inductive unlink_result := NothingLinked | RemovedAll (count : nat) | NotLinked | Removed.

(** [list.remove(x)]: the first occurrence goes. *)
Fixpoint remove_first (x : string) (l : list string) : list string :=
  match l with
  | [] => []
  | y :: l' => if String.eqb y x then l' else y :: remove_first x l'
  end.

Definition with_macs (d : bot_player) (macs : list string) : bot_player :=
  {| bp_mac_addresses := Some macs; bp_display_name := bp_display_name d;
     bp_discord_name := bp_discord_name d |}.

(** [/unlinkmac]. *)
Definition unlink_mac (players : gmap string bot_player) (player : member)
    (mac_address : string) : gmap string bot_player * unlink_result :=
  let user_id := mb_id player in
  match players !! user_id with
  | None => (players, NothingLinked)
  | Some entry =>
      match bp_mac_addresses entry with
      | None | Some [] => (players, NothingLinked)
      | Some macs =>
          if String.eqb (Py.lower mac_address) "all" then
            (<[user_id := with_macs entry []]> players, RemovedAll (length macs))
          else
            let clean_mac := clean_mac mac_address in
            if mem clean_mac macs
            then (<[user_id := with_macs entry (remove_first clean_mac macs)]> players, Removed)
            else (players, NotLinked)
      end
  end.

End Commands.

(** No address text is held by two players, and no player holds one
    twice.  The texts are compared as they are stored, which is how
    [/linkmac] compares them: two spellings of one address are two texts. *)
Definition macs_exclusive (players : gmap string Commands.bot_player) : Prop :=
  (∀ u1 u2 d1 d2 m, players !! u1 = Some d1 → players !! u2 = Some d2 →
     m ∈ Commands.macs_of d1 → m ∈ Commands.macs_of d2 → u1 = u2) ∧
  (∀ u d, players !! u = Some d → NoDup (Commands.macs_of d)).

(** The only white space of a string is the space character. *)
Definition blanks_only (s : string) : Prop :=
  ∀ a, a ∈ list_ascii_of_string s → Py.is_space a = true → a = " "%char.

(** A separator of a written address. *)
Definition is_separator (a : ascii) : bool :=
  Ascii.eqb a ":" || Ascii.eqb a "-" || Ascii.eqb a " ".

(** The string without the separators [:], [-] and the space. *)
Fixpoint without_separators (s : string) : string :=
  match s with
  | EmptyString => EmptyString
  | String a s' =>
      if is_separator a then without_separators s' else String a (without_separators s')
  end.

(** One player with one address, and a member without any. *)
Definition one_linked : gmap string Commands.bot_player :=
  {[ "210187331066396672" :=
       {| Commands.bp_mac_addresses := Some ["00:50:F2:A1:B2:C3"];
          Commands.bp_display_name := Some "Ace";
          Commands.bp_discord_name := Some "ace#0001" |} ]}.

(** The address of [one_linked] written with one colon. *)
Definition respelled : string := "0050:F2A1B2C3".

Definition newcomer : Commands.member :=
  {| Commands.mb_id := "310000000000000002"; Commands.mb_display_name := "Cat";
     Commands.mb_name := "cat#0002" |}.

(** ** The lookups built from [players.json] and the identity files *)

(** The [mac_address] value of an entry: missing, a string or a list. *)
Inductive mac_field := MacMissing | MacText (s : string) | MacList (l : list string).

(** What [populate_stats.py] reads of an entry of [players.json]; a list
    or string that is missing is the default of its [.get]. *)
Record players_entry := {
  pe_mac_addresses : list string;
  pe_mac_address : mac_field;
  pe_mac : string;
  pe_stats_profile : string;
  pe_display_name : string;
  pe_discord_name : string;
  pe_aliases : list string;
}.

(** The list that the loop of [build_mac_to_discord_lookup] runs over for
    one entry. *)
Definition mac_candidates (data : players_entry) : list string :=
  let mac_addresses := pe_mac_addresses data in
  let mac_addresses :=
    if bool_decide (mac_addresses = []) then
      match pe_mac_address data with
      | MacMissing => []
      | MacText s => [s]
      | MacList l => l
      end
    else mac_addresses in
  if bool_decide (mac_addresses = []) then
    if String.eqb (pe_mac data) "" then [] else [pe_mac data]
  else mac_addresses.

(** [build_mac_to_discord_lookup]; [players] is [players.json] in the
    order of its keys. *)
Definition build_mac_to_discord_lookup (players : list (string * players_entry))
    : gmap string string :=
  foldl (λ mac_to_user '(user_id, data),
           foldl (λ (mac_to_user : gmap string string) mac,
                    let normalized_mac := normalize_mac mac in
                    if String.eqb normalized_mac "" then mac_to_user
                    else <[normalized_mac := user_id]> mac_to_user)
                 mac_to_user (mac_candidates data))
        ∅ players.

(** [combined_identity]: the identity files' mappings merged in the order
    of the files, a later file overriding an earlier one. *)
Definition combine_identity (all_identity_mappings : list (string * gmap string string))
    : gmap string string :=
  foldl (λ combined '(_, mapping), mapping ∪ combined) ∅ all_identity_mappings.

(** [build_ingame_to_discord_id_mapping]. *)
Definition build_ingame_to_discord_id_mapping
    (all_identity_mappings : list (string * gmap string string))
    (mac_to_discord : gmap string string) : gmap string string :=
  omap (λ mac, truthy_id (mac_to_discord !! mac)) (combine_identity all_identity_mappings).

(** Two entries of [players.json]: addresses under [mac_addresses], and one
    under the legacy [mac] key. *)
Definition sample_players : list (string * players_entry) :=
  [("210187331066396672",
    {| pe_mac_addresses := ["00:50:F2:A1:B2:C3"; "00-50-F2-00-00-09"];
       pe_mac_address := MacMissing; pe_mac := "";
       pe_stats_profile := "Ace"; pe_display_name := "Alice"; pe_discord_name := "alice";
       pe_aliases := ["Bolt"] |});
   ("310000000000000002",
    {| pe_mac_addresses := []; pe_mac_address := MacMissing; pe_mac := "0050f2000002";
       pe_stats_profile := "Cat"; pe_display_name := ""; pe_discord_name := "carol";
       pe_aliases := [] |})].

(** ** Series of matches *)

Module Series.

(** [get_base_gametype]: the display name of a game type. *)
Definition gametype_names : gmap string string :=
  list_to_map [("ctf", "CTF"); ("capture the flag", "CTF"); ("slayer", "Team Slayer");
               ("team slayer", "Team Slayer"); ("oddball", "Oddball"); ("assault", "Bomb");
               ("bomb", "Bomb"); ("koth", "King of the Hill");
               ("king of the hill", "King of the Hill"); ("king", "King of the Hill");
               ("territories", "Territories"); ("juggernaut", "Juggernaut")].

Definition get_base_gametype (game_type_field : string) : string :=
  if String.eqb game_type_field "" then "Unknown" else
  let gt := Py.lower (Py.strip game_type_field) in
  default game_type_field (gametype_names !! gt).

(** An entry of the [games] list of a series. *)
Record series_game := {
  sg_timestamp : string;
  sg_map : string;
  sg_gametype : string;
  sg_variant_name : string;
  sg_winner : option string;
  sg_source_file : string;
}.

Record series := {
  se_series_id : string;
  se_playlist : option string;
  se_red_team : list string;
  se_blue_team : list string;
  se_games : list series_game;
  se_red_wins : Z;
  se_blue_wins : Z;
  se_start_time : string;
  se_end_time : string;
  se_winner : string;
  se_series_type : string;
}.

(** [_finalize_series]: the type of the series by the number of its games,
    and its winner. *)
Definition finalize_series (s : series) : series :=
  let red_wins := se_red_wins s in
  let blue_wins := se_blue_wins s in
  let total_games := Z.of_nat (length (se_games s)) in
  let '(series_type, wins_needed) :=
    if total_games <=? 3 then ("Bo3", 2)
    else if total_games <=? 5 then ("Bo5", 3)
    else if total_games <=? 7 then ("Bo7", 4)
    else ("Custom", total_games / 2 + 1) in
  let winner :=
    if wins_needed <=? red_wins then "Red"
    else if wins_needed <=? blue_wins then "Blue"
    else if blue_wins <? red_wins then "Red"
    else if red_wins <? blue_wins then "Blue"
    else "Tie" in
  {| se_series_id := se_series_id s; se_playlist := se_playlist s;
     se_red_team := se_red_team s; se_blue_team := se_blue_team s;
     se_games := se_games s; se_red_wins := red_wins; se_blue_wins := blue_wins;
     se_start_time := se_start_time s; se_end_time := se_end_time s;
     se_winner := winner; se_series_type := series_type |}.

(** [get_team_signature]: the lower-cased names of the red and of the blue
    rows, as sets. *)
Definition get_team_signature (g : game) : gset string * gset string :=
  (list_to_set (Py.lower <$> (p_name <$> MatchLog.log_rows g "Red")),
   list_to_set (Py.lower <$> (p_name <$> MatchLog.log_rows g "Blue"))).

(** [sorted(names)]: insertion into a sorted list, by [str] order. *)
Fixpoint insert_name (x : string) (l : list string) : list string :=
  match l with
  | [] => [x]
  | y :: l' => if String.leb x y then x :: y :: l' else y :: insert_name x l'
  end.

Definition sorted_names (l : list string) : list string := foldr insert_name [] l.

(** The team of the first row whose player is a winner. *)
Definition game_winner (g : game) : option string :=
  let winners := (determine_winners_losers g).1 in
  match find (λ p, mem (p_name p) winners) (g_players g) with
  | Some p =>
      if String.eqb (p_team p) "Red" then Some "Red"
      else if String.eqb (p_team p) "Blue" then Some "Blue"
      else None
  | None => None
  end.

Definition game_entry (g : game) : series_game :=
  {| sg_timestamp := get_str (g_details g) "Start Time" "";
     sg_map := get_str (g_details g) "Map Name" "Unknown";
     sg_gametype := get_base_gametype (get_str (g_details g) "Game Type" "");
     sg_variant_name := get_str (g_details g) "Variant Name" "";
     sg_winner := game_winner g;
     sg_source_file := g_source_file g |}.

Section Detect.

(** [parse_timestamp] on the text of the Start Time cell, as microseconds
  since [datetime.min]; [strptime] and [pandas] are not modelled. *)
Variable parse_timestamp : string → option Z.
Variable get_display_name_func : string → string.

Definition get_game_time (g : game) : Z :=
default 0 (parse_timestamp (get_str (g_details g) "Start Time" "")).

(** [sorted(games, key=get_game_time)]: the sort is stable. *)
Fixpoint insert_game (x : game) (l : list game) : list game :=
match l with
| [] => [x]
| y :: l' =>
    if get_game_time x <=? get_game_time y then x :: y :: l' else y :: insert_game x l'
end.

Definition sorted_games (games : list game) : list game := foldr insert_game [] games.

(** The loop's variables: the closed series, the open one with its team
  signature, and the counter. *)
Record scan := {
  sc_series_list : list series;
  sc_current : option ((gset string * gset string) * series);
  sc_counter : Z;
}.

Definition bump (winner : option string) (team : string) (wins : Z) : Z :=
if bool_decide (winner = Some team) then wins + 1 else wins.

Definition scan_game (st : scan) (g : game) : scan :=
let team_sig := get_team_signature g in
let red_team :=
  sorted_names (get_display_name_func <$> (p_name <$> MatchLog.log_rows g "Red")) in
let blue_team :=
  sorted_names (get_display_name_func <$> (p_name <$> MatchLog.log_rows g "Blue")) in
let entry := game_entry g in
let start_new (closed : list series) : scan :=
  let series_counter := sc_counter st + 1 in
  {| sc_series_list := closed;
     sc_current :=
       Some (team_sig,
             {| se_series_id := "series_" ++ Py.str_of_int series_counter;
                se_playlist := g_playlist g;
                se_red_team := red_team; se_blue_team := blue_team;
                se_games := [entry];
                se_red_wins := bump (sg_winner entry) "Red" 0;
                se_blue_wins := bump (sg_winner entry) "Blue" 0;
                se_start_time := sg_timestamp entry; se_end_time := sg_timestamp entry;
                se_winner := "Ongoing"; se_series_type := "Custom" |});
     sc_counter := series_counter |} in
match sc_current st with
| Some (sig, current) =>
    if bool_decide (sig = team_sig) then
      {| sc_series_list := sc_series_list st;
         sc_current :=
           Some (sig,
                 {| se_series_id := se_series_id current; se_playlist := se_playlist current;
                    se_red_team := se_red_team current;
                    se_blue_team := se_blue_team current;
                    se_games := se_games current ++ [entry];
                    se_red_wins := bump (sg_winner entry) "Red" (se_red_wins current);
                    se_blue_wins := bump (sg_winner entry) "Blue" (se_blue_wins current);
                    se_start_time := se_start_time current;
                    se_end_time := sg_timestamp entry;
                    se_winner := se_winner current;
                    se_series_type := se_series_type current |});
         sc_counter := sc_counter st |}
    else start_new (sc_series_list st ++ [finalize_series current])
| None => start_new (sc_series_list st)
end.

(** [detect_series]. *)
Definition detect_series (games : list game) : list series :=
let st := foldl scan_game {| sc_series_list := []; sc_current := None; sc_counter := 0 |}
                (sorted_games games) in
sc_series_list st ++
match sc_current st with
| Some (_, current) => [finalize_series current]
| None => []
end.

End Detect.
End Series.

(** The number of games of a series that a team won. *)
Definition won_by (team : string) (games : list Series.series_game) : Z :=
  Z.of_nat (length (filter (λ e, Series.sg_winner e = Some team) games)).

(** The order of the sort in [detect_series]: by the start time, games
    without a start time that parses first. *)
Definition by_time (parse_timestamp : string → option Z) (a b : game) : Prop :=
  Series.get_game_time parse_timestamp a ≤ Series.get_game_time parse_timestamp b.

(** The counters of a series are the counts of its games, and its winner
    is the team with more games won. *)
Definition series_by_majority (s : Series.series) : Prop :=
  Series.se_games s ≠ [] ∧
  Series.se_red_wins s = won_by "Red" (Series.se_games s) ∧
  Series.se_blue_wins s = won_by "Blue" (Series.se_games s) ∧
  (Series.se_winner s = "Red" ↔ Series.se_blue_wins s < Series.se_red_wins s) ∧
  (Series.se_winner s = "Blue" ↔ Series.se_red_wins s < Series.se_blue_wins s) ∧
  (Series.se_winner s = "Tie" ↔ Series.se_red_wins s = Series.se_blue_wins s).

(** A series being built: it has games, and its counters are the counts
    of its games. *)
Definition series_counted (s : Series.series) : Prop :=
  Series.se_games s ≠ [] ∧
  Series.se_red_wins s = won_by "Red" (Series.se_games s) ∧
  Series.se_blue_wins s = won_by "Blue" (Series.se_games s).

(** The games of the open series of the loop, if any. *)
Definition open_games (st : Series.scan) : list Series.series_game :=
  match Series.sc_current st with
  | Some (_, current) => Series.se_games current
  | None => []
  end.

(** The state of the loop of [detect_series] after the games [seen]. *)
Definition scan_ok (st : Series.scan) (seen : list game) : Prop :=
  (∀ s, s ∈ Series.sc_series_list st → series_by_majority s) ∧
  (∀ sig current, Series.sc_current st = Some (sig, current) → series_counted current) ∧
  flat_map Series.se_games (Series.sc_series_list st) ++ open_games st
  = Series.game_entry <$> seen.

(** Three head-to-head matches of the same two players, by start time. *)
Definition three_duels : list game :=
  [duel "20251203_190000.xlsx" "Ace" 15 "Cat" 7;
   duel "20251203_191500.xlsx" "Ace" 9 "Cat" 15;
   duel "20251203_193000.xlsx" "Ace" 15 "Cat" 11].

(** ** The team balancer of the bot *)

Module Balance.

(** [itertools.combinations(l, k)], in its order. *)
Fixpoint combinations {A} (l : list A) (k : nat) : list (list A) :=
  match l with
  | [] => match k with O => [[]] | S _ => [] end
  | x :: l' =>
      match k with
      | O => [[]]
      | S k' => ((x ::.) <$> combinations l' k') ++ combinations l' k
      end
  end.

(** [sum(player_mmrs[uid] for uid in team)]; [None] is [KeyError]. *)
Fixpoint sum_mmr (player_mmrs : gmap Z Z) (team : list Z) : option Z :=
  match team with
  | [] => Some 0
  | uid :: team' => m ← player_mmrs !! uid; s ← sum_mmr player_mmrs team'; Some (m + s)
  end.

(** [[p for p in player_ids if p not in team1]]. *)
Definition others (player_ids team1 : list Z) : list Z :=
  filter (λ p, p ∉ team1) player_ids.

(** The loop over the combinations; [best] is [None] while [best_diff] is
    infinite.  The outer [None] is an exception. *)
Fixpoint search (player_ids : list Z) (player_mmrs : gmap Z Z) (combos : list (list Z))
    (best : option (list Z * list Z * Z)) : option (option (list Z * list Z * Z)) :=
  match combos with
  | [] => Some best
  | team1 :: combos' =>
      let team2 := others player_ids team1 in
      team1_mmr ← sum_mmr player_mmrs team1;
      team2_mmr ← sum_mmr player_mmrs team2;
      let diff := Z.abs (team1_mmr - team2_mmr) in
      if (match best with None => true | Some (_, _, best_diff) => diff <? best_diff end)
      then
        if diff =? 0 then Some (Some (team1, team2, diff))
        else search player_ids player_mmrs combos' (Some (team1, team2, diff))
      else search player_ids player_mmrs combos' best
  end.

(** [s / 4] on an int: the quotient rounded to the nearest binary64;
    [None] is the [OverflowError] of a quotient too large for a float. *)
Definition true_div4 (s : Z) : option float :=
  match binary_normalize prec emax s (-2) false with
  | S754_infinity _ => None
  | sf => Some (SF2Prim sf)
  end.

(** [find_optimal_teams] of [commands.py]: the red team, the blue team
    and the MMR difference.  [None] is an exception: a player without an
    MMR, or fewer than four players ([best_team1] is still [None] when the
    averages are taken). *)
Definition find_optimal_teams (player_ids : list Z) (player_mmrs : gmap Z Z)
    : option (list Z * list Z * Z) :=
  best ← search player_ids player_mmrs (combinations player_ids 4) None;
  '(best_team1, best_team2, best_diff) ← best;
  s1 ← sum_mmr player_mmrs best_team1;
  s2 ← sum_mmr player_mmrs best_team2;
  team1_avg ← true_div4 s1;
  team2_avg ← true_div4 s2;
  Some (if PrimFloat.ltb team1_avg team2_avg
        then (best_team2, best_team1, best_diff)
        else (best_team1, best_team2, best_diff)).

End Balance.

(** The MMR difference of the split of [player_ids] that puts [team1] on
    one side. *)
Definition split_diff (player_ids : list Z) (player_mmrs : gmap Z Z) (team1 : list Z)
    : option Z :=
  m1 ← Balance.sum_mmr player_mmrs team1;
  m2 ← Balance.sum_mmr player_mmrs (Balance.others player_ids team1);
  Some (Z.abs (m1 - m2)).

(** Eight players and their MMRs. *)
Definition eight_ids : list Z := [101; 102; 103; 104; 105; 106; 107; 108].

Definition eight_mmrs : gmap Z Z :=
  list_to_map [(101, 1500); (102, 1400); (103, 1300); (104, 1200);
               (105, 1100); (106, 1000); (107, 900); (108, 800)].

(** A file of the ledger whose override is not the playlist the ledger
    holds. *)
Definition drifted (manual_playlists : manual) (old_games : gmap string (option string))
    (filename : string) : Prop :=
  is_Some (old_games !! filename) ∧
  mjoin (old_games !! filename) ≠ get_name manual_playlists filename.

(** An entry of [rankstats] that the snapshot keeps: games, wins or losses
    above 0. *)
Definition has_game_data (e : rank_entry) : Prop :=
  0 < re_total_games e ∨ 0 < re_wins e ∨ 0 < re_losses e.

(** The entry [e'] of the next run holds the overall figures of [e]. *)
Definition same_figures (e e' : rank_entry) : Prop :=
  re_xp e' = re_xp e ∧ re_rank e' = re_rank e ∧ re_wins e' = re_wins e ∧
  re_losses e' = re_losses e ∧ re_total_games e' = re_total_games e ∧
  re_kills e' = re_kills e ∧ re_deaths e' = re_deaths e ∧
  re_assists e' = re_assists e ∧ re_headshots e' = re_headshots e ∧
  re_highest_rank e' = re_highest_rank e.

(** An entry with one match won. *)
Definition won_once : rank_entry :=
  {| re_discord_name := "alice"; re_xp := 100; re_rank := 2; re_wins := 1; re_losses := 0;
     re_total_games := 1; re_kills := 15; re_deaths := 5; re_assists := 0;
     re_headshots := 0; re_highest_rank := 2;
     re_playlists := {[ "Head to Head" := {| st_xp := 100; st_rank := 2;
                                             st_highest_rank := 2; st_wins := 1;
                                             st_losses := 0; st_games := 1 |} ]};
     re_mac_linked := Some true |}.

(** A string of decimal digits, at least one. *)
Definition only_digits (s : string) : bool :=
  negb (String.eqb s "") &&
  forallb (λ a, bool_decide (is_Some (Py.digit_of a))) (list_ascii_of_string s).

(** A match file whose Duration cell holds plain seconds. *)
Definition seconds_row : details_row :=
  {| dr_map_name := "Lockout"; dr_game_type := "Slayer"; dr_duration := "300";
     dr_red_score := Some 50; dr_blue_score := Some 43 |}.

Definition seconds_file : game_file :=
  {| gf_name := "20251215_011357.xlsx"; gf_details := Some seconds_row;
     gf_teams := Some ["Red"; "Blue"] |}.

(** ** Matching a game file to a bot session *)

Module Sessions.

(** What [find_match_for_game] reads of an entry of the bot's match
    history.  The times are microseconds, as [datetime] counts them:
    [bs_start] is the parsed [start_time] ([None] when the field is
    missing, empty, or no ISO text), [bs_end] the parsed [end_time] ([None]
    when the match is still open or the text is no ISO text), both in UTC
    as the bot stores them. *)
Record bot_session := {
  bs_start : option Z;
  bs_end : option Z;
  bs_playlist : string;
  bs_player_ids : list string;     (* team1 and team2 [player_ids], as [str] *)
}.

Definition FIVE_HOURS : Z := 5 * 3600 * 1000000.
Definition FIVE_MINUTES : Z := 5 * 60 * 1000000.

(** "Resolve game players to Discord IDs". *)
Definition game_discord_ids (ingame_to_discord_id : gmap string string)
    (game_players : list string) : list string :=
  omap (λ player_name, truthy_id (ingame_to_discord_id !! Py.lower player_name))
       game_players.

(** The body of the loop for one entry: [true] when the entry is
    returned, [false] when the loop goes on. *)
Definition session_matches (game_dt : Z) (game_ids : list string) (m : bot_session) : bool :=
  match bs_start m with
  | None => false
  | Some start =>
      let start_dt := start - FIVE_HOURS in
      let start_dt_with_buffer := start_dt - FIVE_MINUTES in
      if game_dt <? start_dt_with_buffer then false
      else if (match bs_end m with
               | Some e => (e - FIVE_HOURS + FIVE_MINUTES) <? game_dt
               | None => false
               end) then false
      else if negb (bool_decide (game_ids = [])) && negb (bool_decide (bs_player_ids m = []))
              && negb (existsb (λ i, mem i (bs_player_ids m)) game_ids)
      then false
      else true
  end.

(** [find_match_for_game]; [game_dt] is [parse_timestamp] of the game's
    start time. *)
Definition find_match_for_game (game_dt : option Z) (all_matches : list bot_session)
    (game_players : list string) (ingame_to_discord_id : gmap string string)
    : option bot_session :=
  match game_dt with
  | None => None
  | Some game_dt =>
      find (session_matches game_dt (game_discord_ids ingame_to_discord_id game_players))
           all_matches
  end.

End Sessions.

(** The game started inside the session, five minutes of slack on both
    sides, the session's times moved from UTC to the local time of the
    stats files (five hours behind). *)
Definition in_window (game_dt : Z) (m : Sessions.bot_session) : Prop :=
  ∃ start, Sessions.bs_start m = Some start ∧
    start - Sessions.FIVE_HOURS - Sessions.FIVE_MINUTES ≤ game_dt ∧
    ∀ e, Sessions.bs_end m = Some e →
         game_dt ≤ e - Sessions.FIVE_HOURS + Sessions.FIVE_MINUTES.

(** The players do not speak against the session: no player of the game
    resolves to an ID, or the session lists no IDs, or they share one. *)
Definition ids_agree (game_ids : list string) (m : Sessions.bot_session) : Prop :=
  game_ids = [] ∨ Sessions.bs_player_ids m = [] ∨
  ∃ i, i ∈ game_ids ∧ i ∈ Sessions.bs_player_ids m.

(** ** The tally of a playlist *)

(** In every cell the wins and the losses are not negative and together do
    not exceed the games. *)
Definition tally_ok (t : tracking) : Prop :=
  ∀ name playlist w l g,
    get2 (player_playlist_wins t) name playlist = Some w →
    get2 (player_playlist_losses t) name playlist = Some l →
    get2 (player_playlist_games t) name playlist = Some g →
    0 ≤ w ∧ 0 ≤ l ∧ w + l ≤ g.

(** ** The identity of a name *)

(** The identity that the loop of step 3 gives a name it has not seen,
    from the identity file of the match: the Discord ID of the machine the
    name played on, or the temporary ID made from the name's hash. *)
Definition assigned_id (py_hash : string → Z) (mac_to_discord identity_name_to_mac
    : gmap string string) (player_name : string) : string :=
  default (Identity.temp_id py_hash player_name)
    (truthy_id (resolve_player_to_discord player_name identity_name_to_mac mac_to_discord)).

(** [name] has a row in the match. *)
Definition plays_in (name : string) (g : game) : Prop :=
  ∃ p, p ∈ g_players g ∧ p_name p = name.

(** A later session in which Ace plays on Cat's machine. *)
Definition swapped_duel : game :=
  {| g_details := {[ "Game Type" := "Slayer"; "Variant Name" := "1v1 Slayer";
                     "Map Name" := "Lockout" ]};
     g_players := [row "Ace" "Red" 15; row "Dan" "Blue" 5];
     g_detailed_stats := [];
     g_source_file := "20251215_200000.xlsx";
     g_playlist := Some PLAYLIST_HEAD_TO_HEAD;
     g_identity := {[ "ace" := "0050f2000002"; "dan" := "0050f2000003" ]} |}.
(** * Properties *)

(** *** Forced-unranked precedence *)

Lemma nonempty_dict_lookup {A} (d : gmap string A) (k : string) :
  is_Some (d !! k) → nonempty_dict d = true.
Proof.
  intros [v Hv]. unfold nonempty_dict.
  rewrite bool_decide_eq_false_2; [done|].
  intros ->. by rewrite lookup_empty in Hv.
Qed.

(** C9. A file listed in the forced-unranked override is classified as
    unranked by the classifier that reads that override (the one of the
    backup pipeline), whatever the forced-playlist override, the duration
    and the structure of the match are. *)
Theorem forced_unranked_precedence (f : game_file)
    (manual_playlists manual_unranked : manual) :
  is_Some (manual_unranked !! gf_name f) →
  Backup.determine_playlist f manual_playlists manual_unranked = None.
Proof.
  intros Hin. unfold Backup.determine_playlist, Backup.listed.
  rewrite (nonempty_dict_lookup _ _ Hin).
  by rewrite bool_decide_eq_true_2.
Qed.

Lemma forced_unranked_precedence_witness :
  Backup.determine_playlist lockout_slayer ∅ ∅ = Some PLAYLIST_MLG_4V4 ∧
  Backup.determine_playlist lockout_slayer
    {[ "20251215_011357.xlsx" := Some "Ranked Team Hardcore" ]} ∅ = Some PLAYLIST_TEAM_HARDCORE ∧
  Backup.determine_playlist lockout_slayer
    {[ "20251215_011357.xlsx" := Some "Ranked Team Hardcore" ]}
    {[ "20251215_011357.xlsx" := None ]} = None.
Proof.
  split; [vm_compute; reflexivity|].
  split; [vm_compute; reflexivity|].
  apply forced_unranked_precedence.
  vm_compute. eauto.
Defined.

(** The classifier of [populate_stats.py] takes no forced-unranked set: a
    file that such a set lists is ranked there by its entry in the
    forced-playlist override, and without one by the bot session that
    matches it. *)
Lemma current_ranks_forced_unranked :
  is_Some (({[ "20251215_011357.xlsx" := None ]} : manual) !! gf_name lockout_slayer) ∧
  Current.determine_playlist lockout_slayer None
    {[ "20251215_011357.xlsx" := Some "Ranked Team Hardcore" ]}
  = Some PLAYLIST_TEAM_HARDCORE ∧
  Current.determine_playlist lockout_slayer (Some "MLG 4v4") ∅ = Some PLAYLIST_MLG_4V4.
Proof. split; [vm_compute; eauto|]. split; vm_compute; reflexivity. Qed.

(** *** Ledger stickiness *)

Lemma build_games_snoc old nfr (gs : list game) (g : game) :
  Ledger.build_games old nfr (gs ++ [g])
  = Ledger.record_game old nfr (Ledger.build_games old nfr gs) g.
Proof. unfold Ledger.build_games. by rewrite foldl_snoc. Qed.


(** In a full rebuild the new classification is written as it is. *)
Lemma ledger_full_rebuild_demotes :
  Ledger.build_games {[ "20251128_201839.xlsx" := Some "MLG 4v4" ]} true [unranked_now]
    !! "20251128_201839.xlsx" = Some None.
Proof. vm_compute. reflexivity. Qed.

(** *** Rank tiers *)

Lemma first_band_desc (xp : Z) (t : gmap string (Z * Z)) (n : nat) :
  match first_band xp t (reverse (seqZ 1 (Z.of_nat n))) with
  | Some r => 1 ≤ r ≤ Z.of_nat n ∧ in_band t r xp ∧ ∀ s, r < s ≤ Z.of_nat n → ¬ in_band t s xp
  | None => ∀ s, 1 ≤ s ≤ Z.of_nat n → ¬ in_band t s xp
  end.
Proof.
  induction n as [|n IH].
  - simpl. intros s Hs. lia.
  - replace (Z.of_nat (S n)) with (Z.of_nat n + 1) by lia.
    rewrite seqZ_app by lia. rewrite reverse_app. simpl.
    replace (Z.of_nat 0 + (1 + Z.of_nat n)) with (Z.of_nat n + 1) by lia.
    destruct (t !! Py.str_of_int (Z.of_nat n + 1)) as [[lo hi]|] eqn:Hlook.
    + destruct ((lo <=? xp) && (xp <=? hi)) eqn:Hin.
      * apply andb_true_iff in Hin as [H1 H2].
        split; [lia|]. split; [|intros s Hs; lia].
        exists lo, hi. split; [done|lia].
      * assert (Hout : ¬ in_band t (Z.of_nat n + 1) xp).
        { intros (lo' & hi' & Hl & Hb). rewrite Hlook in Hl. simplify_eq.
          apply andb_false_iff in Hin as [Hin|Hin]; lia. }
        destruct (first_band xp t (reverse (seqZ 1 (Z.of_nat n)))) as [r|].
        -- destruct IH as (Hr & Hb & Hhi). split; [lia|]. split; [done|].
           intros s Hs. destruct (decide (s = Z.of_nat n + 1)) as [->|]; [done|].
           apply Hhi. lia.
        -- intros s Hs. destruct (decide (s = Z.of_nat n + 1)) as [->|]; [done|].
           apply IH. lia.
    + assert (Hout : ¬ in_band t (Z.of_nat n + 1) xp).
      { intros (lo' & hi' & Hl & Hb). rewrite Hlook in Hl. done. }
      destruct (first_band xp t (reverse (seqZ 1 (Z.of_nat n)))) as [r|].
      * destruct IH as (Hr & Hb & Hhi). split; [lia|]. split; [done|].
        intros s Hs. destruct (decide (s = Z.of_nat n + 1)) as [->|]; [done|].
        apply Hhi. lia.
      * intros s Hs. destruct (decide (s = Z.of_nat n + 1)) as [->|]; [done|].
        apply IH. lia.
Qed.

(** The lookup returns the highest tier of 1..50 whose band holds the XP,
    and tier 1 when no band does. *)
Lemma calculate_rank_cases (xp : Z) (t : gmap string (Z * Z)) :
  (1 ≤ calculate_rank xp t ≤ 50 ∧ in_band t (calculate_rank xp t) xp ∧
   ∀ s, 1 ≤ s ≤ 50 → in_band t s xp → s ≤ calculate_rank xp t)
  ∨ (calculate_rank xp t = 1 ∧ ¬ covered t xp).
Proof.
  unfold calculate_rank, ranks_desc.
  pose proof (first_band_desc xp t 50) as H.
  change (Z.of_nat 50) with 50 in H.
  destruct (first_band xp t (reverse (seqZ 1 50))) as [r|].
  - change (default 1 (Some r)) with r.
    destruct H as (Hr & Hb & Hhi). left. split; [exact Hr|]. split; [exact Hb|].
    intros s Hs Hin.
    destruct (decide (s ≤ r)) as [Hle|Hnle]; [exact Hle|].
    exfalso. apply (Hhi s); [lia|exact Hin].
  - change (default 1 (@None Z)) with 1.
    right. split; [reflexivity|]. intros (s & Hs & Hin). exact (H s Hs Hin).
Qed.

Lemma calculate_rank_range (xp : Z) (t : gmap string (Z * Z)) :
  1 ≤ calculate_rank xp t ≤ 50.
Proof. destruct (calculate_rank_cases xp t) as [(H & _)|(-> & _)]; lia. Qed.

(** C6, as amended. Under a threshold table whose bands climb with the
    tiers, the rank of an XP value that lies in some band is at least the
    rank of every smaller XP value; the lookup returns the highest tier
    whose band holds the XP, and tier 1 when no band does. *)
Theorem rank_monotone_on_bands (t : gmap string (Z * Z)) (a b : Z) :
  bands_ordered t → a < b → covered t b →
  calculate_rank a t ≤ calculate_rank b t ∧
  in_band t (calculate_rank b t) b ∧
  (∀ s, 1 ≤ s ≤ 50 → in_band t s b → s ≤ calculate_rank b t) ∧
  (¬ covered t a → calculate_rank a t = 1).
Proof.
  intros Hord Hab Hcov.
  pose proof (calculate_rank_range a t) as Hra.
  destruct (calculate_rank_cases b t) as [(Hrb & Hinb & Hmaxb)|(_ & Hn)]; [|done].
  split; [|split; [done|split; [done|]]].
  - destruct (calculate_rank_cases a t) as [(_ & Hina & _)|(-> & _)]; [|lia].
    destruct (decide (calculate_rank a t ≤ calculate_rank b t)) as [|Hgt]; [done|].
    exfalso.
    destruct Hina as (lo_a & hi_a & Hla & Hba).
    destruct Hinb as (lo_b & hi_b & Hlb & Hbb).
    pose proof (Hord (calculate_rank b t) (calculate_rank a t)
                  lo_b hi_b lo_a hi_a ltac:(lia) ltac:(lia) ltac:(lia) Hlb Hla).
    lia.
  - intros Hn.
    destruct (calculate_rank_cases a t) as [(Hr & Hina & _)|(Heq & _)]; [|exact Heq].
    exfalso. apply Hn. exists (calculate_rank a t). split; [exact Hr|exact Hina].
Qed.

Lemma small_table_ordered : bands_ordered small_table.
Proof.
  intros r s lo_r hi_r lo_s hi_s Hr Hrs Hs Hlr Hls.
  assert (Hcase : ∀ k lo hi, 1 ≤ k ≤ 50 →
            small_table !! Py.str_of_int k = Some (lo, hi) →
            lo = 100 * (k - 1) ∧ hi = 100 * k - 1).
  { intros k lo hi Hk.
    assert (Hk' : k ∈ seqZ 1 50) by (apply elem_of_seqZ; lia).
    revert lo hi. revert k Hk' Hk.
    apply (Forall_forall (λ k, 1 ≤ k ≤ 50 → ∀ lo hi,
             small_table !! Py.str_of_int k = Some (lo, hi) →
             lo = 100 * (k - 1) ∧ hi = 100 * k - 1)).
    vm_compute seqZ.
    repeat (apply Forall_cons; split;
            [intros _ lo hi; vm_compute; intros [=]; subst; done|]).
    apply Forall_nil. done. }
  destruct (Hcase r lo_r hi_r ltac:(lia) Hlr) as [-> ->].
  destruct (Hcase s lo_s hi_s ltac:(lia) Hls) as [-> ->].
  lia.
Qed.

Lemma rank_monotone_on_bands_witness :
  calculate_rank 150 small_table ≤ calculate_rank 250 small_table ∧
  in_band small_table (calculate_rank 250 small_table) 250 ∧
  (∀ s, 1 ≤ s ≤ 50 → in_band small_table s 250 → s ≤ calculate_rank 250 small_table) ∧
  (¬ covered small_table 150 → calculate_rank 150 small_table = 1).
Proof.
  apply rank_monotone_on_bands.
  - apply small_table_ordered.
  - lia.
  - exists 3. split; [lia|]. exists 200, 299. split; [vm_compute; reflexivity|lia].
Defined.

(** C6, as stated, fails above the top band: 350 XP is tier 4 and 400 XP
    falls back to tier 1. *)
Lemma rank_not_monotone :
  ¬ (∀ (t : gmap string (Z * Z)) (a b : Z),
       a < b → calculate_rank a t ≤ calculate_rank b t).
Proof.
  intros H. specialize (H small_table 350 400 ltac:(lia)).
  vm_compute in H. by apply H.
Qed.

Lemma foldr_max_bound (a : Z) (l : list Z) :
  a ≤ foldr Z.max a l ∧ ∀ x, x ∈ l → x ≤ foldr Z.max a l.
Proof.
  induction l as [|y l [IH1 IH2]]; simpl.
  - split; [lia|]. intros x Hx. by apply elem_of_nil in Hx.
  - split; [lia|]. intros x Hx. apply elem_of_cons in Hx as [->|Hx]; [lia|].
    specialize (IH2 x Hx). lia.
Qed.

(** The same holds of every table with a tier above the first that some
    XP reaches: a larger XP value with a smaller rank exists. *)
Lemma rank_drops_above_top (t : gmap string (Z * Z)) (a : Z) :
  1 < calculate_rank a t →
  ∃ b, a < b ∧ calculate_rank b t < calculate_rank a t.
Proof.
  intros Hgt.
  set (his := (λ kv : string * (Z * Z), kv.2.2) <$> map_to_list t).
  destruct (foldr_max_bound a his) as [Ha Hhi].
  exists (foldr Z.max a his + 1). split; [lia|].
  destruct (calculate_rank_cases (foldr Z.max a his + 1) t)
    as [(_ & Hin & _)|(Heq & _)]; [|lia].
  destruct Hin as (lo & hi & Hl & Hb).
  assert (Hmem : hi ∈ his).
  { subst his. apply list_elem_of_fmap.
    exists (Py.str_of_int (calculate_rank (foldr Z.max a ((λ kv : string * (Z * Z), kv.2.2) <$> map_to_list t) + 1) t), (lo, hi)).
    split; [done|]. by apply elem_of_map_to_list. }
  specialize (Hhi hi Hmem). lia.
Qed.

(** *** Full-rebuild escalation *)

(** C3, at the failing input. The override map changed since the snapshot
    (an entry was added for a new file), whatever its hash and the stored
    hash are: [populate_stats.py] plans an incremental run, not a full
    rebuild. *)
Theorem hash_drift_runs_incremental (get_manual_playlists_hash : manual → string)
    (stored_hash : string) :
  Current.plan_run get_manual_playlists_hash false
    ["20251128_201839.xlsx"; "20251128_202256.xlsx"] overrides_grown
    (after_first_run stored_hash)
  = Some {| pl_full_rebuild := false;
            pl_new_files := ["20251128_202256.xlsx"];
            pl_incremental := true;
            pl_processed := after_first_run stored_hash |}.
Proof. vm_compute. reflexivity. Qed.

(** [check_for_changes] of [populate_stats.py] never reads the stored hash. *)
Lemma current_ignores_hash (get_manual_playlists_hash : manual → string)
    (stats_files : list string) (manual_playlists : manual) (ps : processed_state)
    (other_hash : string) :
  Current.check_for_changes get_manual_playlists_hash stats_files manual_playlists
    {| ps_games := ps_games ps; ps_manual_playlists_hash := other_hash;
       ps_manual_unranked_hash := ps_manual_unranked_hash ps;
       ps_player_state := ps_player_state ps;
       ps_player_name_to_id := ps_player_name_to_id ps |}
  = Current.check_for_changes get_manual_playlists_hash stats_files manual_playlists ps.
Proof. reflexivity. Qed.

(** X25. The backup pipeline does escalate: a stored hash of either
    override file that differs from the hash of the file as it is now makes
    [needs_full_rebuild] true; the run is then a full rebuild and never
    incremental, whatever the files and the ledger are. *)
Lemma backup_escalates (get_manual_hash : manual → string) (stats_files : list string)
    (manual_playlists manual_unranked : manual) (ps : processed_state) :
  ps_manual_playlists_hash ps ≠ get_manual_hash manual_playlists
  ∨ ps_manual_unranked_hash ps ≠ get_manual_hash manual_unranked →
  ∃ p, Backup.plan_run get_manual_hash stats_files manual_playlists manual_unranked ps = Some p
       ∧ pl_full_rebuild p = true ∧ pl_incremental p = false.
Proof.
  intros Hdrift.
  assert (Hfull : needs_full_rebuild
            (Backup.check_for_changes get_manual_hash stats_files manual_playlists
               manual_unranked ps) = true).
  { unfold Backup.check_for_changes.
    destruct (scan_files _ _ _ _) as [nf ch]. simpl.
    destruct Hdrift as [H|H].
    - rewrite (bool_decide_eq_true_2 _ H). by rewrite orb_true_r.
    - rewrite (bool_decide_eq_true_2 (ps_manual_unranked_hash ps ≠ _) H).
      by rewrite orb_true_r. }
  unfold Backup.plan_run. rewrite Hfull. simpl.
  rewrite andb_false_r. eexists. split; [reflexivity|]. by simpl.
Qed.

(** The other half of C3 at a failing input: a file the ledger holds as
    unranked is now matched to a bot session and classified into MLG 4v4;
    the comparison of [check_for_changes] is against the override map, which
    has no entry for the file, and the run is incremental. *)
Lemma reassignment_runs_incremental (get_manual_playlists_hash : manual → string) :
  let ledger := {| ps_games := {[ "20251215_011357.xlsx" := None ]};
                   ps_manual_playlists_hash := get_manual_playlists_hash ∅;
                   ps_manual_unranked_hash := "";
                   ps_player_state := {[ "210187331066396672" := one_win ]};
                   ps_player_name_to_id := ∅ |} in
  Current.determine_playlist lockout_slayer (Some "MLG 4v4") ∅ = Some "MLG 4v4" ∧
  ps_games ledger !! "20251215_011357.xlsx" = Some None ∧
  Current.plan_run get_manual_playlists_hash false
    ["20251215_011357.xlsx"; "20251216_000000.xlsx"] ∅ ledger
  = Some {| pl_full_rebuild := false; pl_new_files := ["20251216_000000.xlsx"];
            pl_incremental := true; pl_processed := ledger |}.
Proof. repeat split; vm_compute; reflexivity. Qed.

(** *** Held-time parsing *)

(** C8, at the failing input. [time_to_seconds] of [populate_stats.py]
    returns 0 on ":56", where the claim (and [time_to_seconds] of the backup
    pipeline) gives 56 seconds. *)
Theorem held_time_without_minutes :
  Current_time.time_to_seconds (Py.VStr ":56") = 0 ∧
  Backup_time.time_to_seconds (Py.VStr ":56") = 56.
Proof. split; vm_compute; reflexivity. Qed.

(** The rest of C8 holds: "1:05" is 65 seconds, and a missing, empty or
    garbled value is 0. *)
Lemma held_time_examples :
  Current_time.time_to_seconds (Py.VStr "1:05") = 65 ∧
  Current_time.time_to_seconds (Py.VStr "0:56") = 56 ∧
  Current_time.time_to_seconds (Py.VStr " 12:34 ") = 754 ∧
  Current_time.time_to_seconds (Py.VStr "1:02:03") = 3723 ∧
  Current_time.time_to_seconds Py.VNone = 0 ∧
  Current_time.time_to_seconds (Py.VStr "") = 0 ∧
  Current_time.time_to_seconds (Py.VStr "n/a") = 0 ∧
  Current_time.time_to_seconds (Py.VStr "1:xx") = 0 ∧
  Current_time.time_to_seconds (Py.VStr "1:2:3:4") = 0 ∧
  Current_time.time_to_seconds (Py.VFloat nan) = 0 ∧
  Current_time.time_to_seconds (Py.VInt 65) = 65.
Proof. repeat split; vm_compute; reflexivity. Qed.

(** A value the [try] body cannot convert is 0: the function never
    raises. *)
Lemma time_to_seconds_garbled (v : Py.value) :
  Current_time.time_to_seconds_body v = None → Current_time.time_to_seconds v = 0.
Proof.
  intros H. unfold Current_time.time_to_seconds. rewrite H.
  by destruct (Current_time.falsy v).
Qed.

(** The score parser of the outcome engine and the held-time parser of the
    match log disagree on a three-part time. *)
Lemma score_parsers_disagree :
  (Current_time.parse_score "1:02:03").1 = 62 ∧
  Current_time.time_to_seconds (Py.VStr (Current_time.parse_score "1:02:03").2) = 3723.
Proof. split; vm_compute; reflexivity. Qed.

(** *** Dicts of dicts *)

Lemma get2_shape (d : ndict) (n q : string) :
  is_Some (get2 d n q) ↔ ∃ s, shape d !! n = Some s ∧ q ∈ s.
Proof.
  unfold get2, shape. rewrite lookup_fmap.
  destruct (d !! n) as [inner|]; simpl.
  - rewrite <- elem_of_dom. split.
    + intros H. by exists (dom inner).
    + by intros (s & [= <-] & H).
  - split; [by intros [? ?]|by intros (? & ? & ?)].
Qed.

Lemma set2_is_Some (d : ndict) (n q : string) (v : Z) :
  is_Some (d !! n) → is_Some (set2 d n q v).
Proof. intros [inner H]. unfold set2. rewrite H. simpl. eauto. Qed.

Lemma get2_set2 (d d' : ndict) (n q : string) (v : Z) (n' q' : string) :
  set2 d n q v = Some d' →
  get2 d' n' q' = if decide (n' = n ∧ q' = q) then Some v else get2 d n' q'.
Proof.
  unfold set2, get2. intros H.
  destruct (d !! n) as [inner|] eqn:Hn; simplify_eq/=.
  destruct (decide (n' = n)) as [->|Hne].
  - rewrite lookup_insert_eq. simpl. rewrite Hn. simpl.
    destruct (decide (q' = q)) as [->|Hq].
    + rewrite lookup_insert_eq. by rewrite decide_True.
    + rewrite lookup_insert_ne by done. rewrite decide_False; [done|]. by intros [_ ?].
  - rewrite lookup_insert_ne by done. rewrite decide_False; [done|]. by intros [? _].
Qed.

Lemma shape_set2 (d d' : ndict) (n q : string) (v : Z) :
  set2 d n q v = Some d' → shape d' = alter ({[q]} ∪.) n (shape d).
Proof.
  unfold set2, shape. intros H.
  destruct (d !! n) as [inner|] eqn:Hn; simplify_eq/=.
  apply map_eq. intros k. rewrite lookup_fmap.
  destruct (decide (k = n)) as [->|Hne].
  - rewrite lookup_insert_eq, lookup_alter_eq, lookup_fmap, Hn. simpl.
    f_equal. by rewrite dom_insert_L.
  - rewrite lookup_insert_ne, lookup_alter_ne, lookup_fmap by done. done.
Qed.

Lemma lookup_set2 (d d' : ndict) (n q : string) (v : Z) (n' : string) :
  set2 d n q v = Some d' → is_Some (d' !! n') ↔ is_Some (d !! n').
Proof.
  unfold set2. intros H.
  destruct (d !! n) as [inner|] eqn:Hn; simplify_eq/=.
  destruct (decide (n' = n)) as [->|Hne].
  - rewrite lookup_insert_eq, Hn. split; eauto.
  - by rewrite lookup_insert_ne.
Qed.

Lemma add2_inv (d d' : ndict) (n q : string) (delta : Z) :
  add2 d n q delta = Some d' →
  ∃ v, get2 d n q = Some v ∧ set2 d n q (v + delta) = Some d'.
Proof.
  unfold add2. intros H. destruct (get2 d n q) as [v|]; simplify_eq/=. eauto.
Qed.

Lemma add2_is_Some (d : ndict) (n q : string) (delta : Z) :
  is_Some (get2 d n q) → is_Some (add2 d n q delta).
Proof.
  intros [v H]. unfold add2. rewrite H. simpl. apply set2_is_Some.
  unfold get2 in H. destruct (d !! n); [eauto|done].
Qed.

(** Writing a cell that is there leaves the shape as it is. *)
Lemma shape_set2_present (d d' : ndict) (n q : string) (v : Z) :
  is_Some (get2 d n q) → set2 d n q v = Some d' → shape d' = shape d.
Proof.
  intros Hin Hset. rewrite (shape_set2 _ _ _ _ _ Hset).
  apply get2_shape in Hin as (s & Hs & Hq).
  apply map_eq. intros k. destruct (decide (k = n)) as [->|Hne].
  - rewrite lookup_alter_eq, Hs. simpl. f_equal. set_solver.
  - by rewrite lookup_alter_ne.
Qed.

Lemma shape_add2 (d d' : ndict) (n q : string) (delta : Z) :
  add2 d n q delta = Some d' → shape d' = shape d.
Proof.
  intros H. apply add2_inv in H as (v & Hv & Hset).
  eapply shape_set2_present; [|done]. eauto.
Qed.

Lemma covers_refl (a : gmap string (gset string)) : covers a a.
Proof. intros n s H. eauto. Qed.

Lemma covers_alter (a b : gmap string (gset string)) (n q : string) :
  covers a b → covers (alter ({[q]} ∪.) n a) (alter ({[q]} ∪.) n b).
Proof.
  intros H k s. destruct (decide (k = n)) as [->|Hne].
  - rewrite !lookup_alter_eq. destruct (b !! n) as [sb|] eqn:Hb; [|done].
    simpl. intros [= <-]. destruct (H n sb Hb) as (sa & -> & Hsub).
    simpl. eexists. split; [done|]. set_solver.
  - rewrite !lookup_alter_ne by done. apply H.
Qed.

(** *** The replay of one row *)

Lemma shape_lookup_is_Some (d : ndict) (n : string) :
  is_Some (shape d !! n) ↔ is_Some (d !! n).
Proof. unfold shape. rewrite lookup_fmap. by rewrite fmap_is_Some. Qed.

Lemma covers_name (a b : ndict) (n : string) :
  covers (shape a) (shape b) → is_Some (b !! n) → is_Some (a !! n).
Proof.
  intros H Hb. apply shape_lookup_is_Some in Hb as [s Hs].
  destruct (H n s Hs) as (s' & Hs' & _). apply shape_lookup_is_Some. eauto.
Qed.

Lemma covers_cell (a b : ndict) (n q : string) :
  covers (shape a) (shape b) → is_Some (get2 b n q) → is_Some (get2 a n q).
Proof.
  intros H Hb. apply get2_shape in Hb as (s & Hs & Hq).
  destruct (H n s Hs) as (s' & Hs' & Hsub). apply get2_shape. exists s'. split; [done|].
  set_solver.
Qed.

Lemma same_shapes_wf (t t' : tracking) : same_shapes t t' → tracking_wf t → tracking_wf t'.
Proof.
  intros (H1 & H2 & H3 & H4 & H5 & H6). unfold tracking_wf.
  by rewrite H1, H2, H3, H4, H5, H6.
Qed.

Lemma same_shapes_trans (t1 t2 t3 : tracking) :
  same_shapes t1 t2 → same_shapes t2 t3 → same_shapes t1 t3.
Proof.
  intros (H1 & H2 & H3 & H4 & H5 & H6) (K1 & K2 & K3 & K4 & K5 & K6).
  unfold same_shapes. by rewrite K1, K2, K3, K4, K5, K6.
Qed.

Lemma shape_eq_name (a b : ndict) (n : string) :
  shape a = shape b → is_Some (b !! n) → is_Some (a !! n).
Proof.
  intros H Hb. apply shape_lookup_is_Some. rewrite H. by apply shape_lookup_is_Some.
Qed.

Lemma shape_eq_cell (a b : ndict) (n q : string) :
  shape a = shape b → is_Some (get2 a n q) ↔ is_Some (get2 b n q).
Proof. intros H. by rewrite !get2_shape, H. Qed.

Lemma init_playlist_spec (t : tracking) (n q : string) :
  tracking_wf t → is_Some (player_playlist_xp t !! n) →
  ∃ t', Replay.init_playlist t n q = Some t' ∧ tracking_wf t' ∧
    player_game_stats t' = player_game_stats t ∧
    (∀ n', is_Some (player_playlist_xp t' !! n') ↔ is_Some (player_playlist_xp t !! n')) ∧
    (∀ n' q', get2 (player_playlist_xp t') n' q'
              = if decide (n' = n ∧ q' = q) then Some 0 else get2 (player_playlist_xp t) n' q') ∧
    (∀ n' q', get2 (player_playlist_wins t') n' q'
              = if decide (n' = n ∧ q' = q) then Some 0 else get2 (player_playlist_wins t) n' q') ∧
    (∀ n' q', get2 (player_playlist_losses t') n' q'
              = if decide (n' = n ∧ q' = q) then Some 0 else get2 (player_playlist_losses t) n' q') ∧
    (∀ n' q', get2 (player_playlist_games t') n' q'
              = if decide (n' = n ∧ q' = q) then Some 0 else get2 (player_playlist_games t) n' q') ∧
    (∀ n' q', get2 (player_playlist_rank t') n' q'
              = if decide (n' = n ∧ q' = q) then Some 1 else get2 (player_playlist_rank t) n' q') ∧
    (∀ n' q', get2 (player_playlist_highest_rank t') n' q'
              = if decide (n' = n ∧ q' = q) then Some 1
                else get2 (player_playlist_highest_rank t) n' q').
Proof.
  intros (Hw & Hl & Hg & Hr & Hh) Hn.
  destruct (set2_is_Some (player_playlist_xp t) n q 0 Hn) as [xp Hxp].
  destruct (set2_is_Some (player_playlist_wins t) n q 0 (shape_eq_name _ _ _ Hw Hn)) as [w Hw'].
  destruct (set2_is_Some (player_playlist_losses t) n q 0 (shape_eq_name _ _ _ Hl Hn)) as [l Hl'].
  destruct (set2_is_Some (player_playlist_games t) n q 0 (shape_eq_name _ _ _ Hg Hn)) as [g Hg'].
  destruct (set2_is_Some (player_playlist_rank t) n q 1 (covers_name _ _ _ Hr Hn)) as [r Hr'].
  destruct (set2_is_Some (player_playlist_highest_rank t) n q 1 (covers_name _ _ _ Hh Hn))
    as [h Hh'].
  unfold Replay.init_playlist. rewrite Hxp, Hw', Hl', Hg', Hr', Hh'. simpl.
  eexists. split; [reflexivity|]. simpl.
  split.
  { unfold tracking_wf. simpl.
    rewrite (shape_set2 _ _ _ _ _ Hxp), (shape_set2 _ _ _ _ _ Hw'),
      (shape_set2 _ _ _ _ _ Hl'), (shape_set2 _ _ _ _ _ Hg'),
      (shape_set2 _ _ _ _ _ Hr'), (shape_set2 _ _ _ _ _ Hh').
    rewrite Hw, Hl, Hg. repeat split; by apply covers_alter. }
  split; [done|].
  split; [intros n'; by eapply lookup_set2|].
  split_and!; intros n' q'; by eapply get2_set2.
Qed.

Lemma apply_result_spec (cfg : xp_config) (W L : list string) (n q : string) (rb : Z)
    (t : tracking) (x w l g : Z) :
  get2 (player_playlist_xp t) n q = Some x →
  get2 (player_playlist_wins t) n q = Some w →
  get2 (player_playlist_losses t) n q = Some l →
  get2 (player_playlist_games t) n q = Some g →
  match result_cell cfg W L n rb (x, w, l, g) with
  | None => Replay.apply_result cfg W L n q rb t = None
  | Some (x', w', l', g') =>
      ∃ t', Replay.apply_result cfg W L n q rb t = Some t' ∧ same_shapes t t' ∧
        player_game_stats t' = player_game_stats t ∧
        player_playlist_rank t' = player_playlist_rank t ∧
        player_playlist_highest_rank t' = player_playlist_highest_rank t ∧
        (∀ n', is_Some (player_playlist_xp t' !! n') ↔ is_Some (player_playlist_xp t !! n')) ∧
        (∀ n' q', get2 (player_playlist_xp t') n' q'
           = if decide (n' = n ∧ q' = q) then Some x' else get2 (player_playlist_xp t) n' q') ∧
        (∀ n' q', get2 (player_playlist_wins t') n' q'
           = if decide (n' = n ∧ q' = q) then Some w' else get2 (player_playlist_wins t) n' q') ∧
        (∀ n' q', get2 (player_playlist_losses t') n' q'
           = if decide (n' = n ∧ q' = q) then Some l'
             else get2 (player_playlist_losses t) n' q') ∧
        (∀ n' q', get2 (player_playlist_games t') n' q'
           = if decide (n' = n ∧ q' = q) then Some g' else get2 (player_playlist_games t) n' q')
  end.
Proof.
  intros Hx Hw Hl Hg. unfold result_cell, Replay.apply_result.
  assert (Hid : ∀ (d : ndict) v n' q', get2 d n q = Some v →
            get2 d n' q' = if decide (n' = n ∧ q' = q) then Some v else get2 d n' q').
  { intros d v n' q' Hv. case_decide as Hc; [|done]. by destruct Hc as [-> ->]. }
  destruct (add2_is_Some (player_playlist_games t) n q 1 (mk_is_Some _ _ Hg)) as [g1 Hg1].
  pose proof (add2_inv _ _ _ _ _ Hg1) as (g0 & Hg0 & Hgs).
      assert (g0 = g) as -> by congruence.
  destruct (mem n W).
  - destruct (win_xp_change cfg rb) as [d|]; simpl.
    + destruct (add2_is_Some (player_playlist_wins t) n q 1 (mk_is_Some _ _ Hw)) as [w1 Hw1].
      destruct (add2_is_Some (player_playlist_xp t) n q d (mk_is_Some _ _ Hx)) as [x1 Hx1].
      rewrite Hw1, Hg1, Hx1. simpl.
      destruct (win_percent cfg rb) as [pc|]; simpl; [|done].
      eexists. split; [reflexivity|]. simpl.
      pose proof (add2_inv _ _ _ _ _ Hw1) as (w0 & Hw0 & Hws).
      assert (w0 = w) as -> by congruence.
      pose proof (add2_inv _ _ _ _ _ Hx1) as (x0 & Hx0 & Hxs).
      assert (x0 = x) as -> by congruence.
      split.
      { unfold same_shapes. simpl.
        rewrite (shape_add2 _ _ _ _ _ Hx1), (shape_add2 _ _ _ _ _ Hw1),
          (shape_add2 _ _ _ _ _ Hg1). done. }
      split_and!; [done|done|done|intros n'; by eapply lookup_set2
                  |intros n' q'; by eapply get2_set2|intros n' q'; by eapply get2_set2
                  |intros n' q'; by apply Hid|intros n' q'; by eapply get2_set2].
    + destruct (add2 (player_playlist_wins t) n q 1); simpl; [|done].
      by rewrite Hg1.
  - destruct (mem n L).
    + destruct (loss_xp_change cfg rb) as [d|]; simpl.
      * destruct (add2_is_Some (player_playlist_losses t) n q 1 (mk_is_Some _ _ Hl))
          as [l1 Hl1].
        destruct (add2_is_Some (player_playlist_xp t) n q d (mk_is_Some _ _ Hx)) as [x1 Hx1].
        rewrite Hl1, Hg1, Hx1. simpl.
        pose proof (add2_inv _ _ _ _ _ Hl1) as (l0 & Hl0 & Hls).
      assert (l0 = l) as -> by congruence.
        pose proof (add2_inv _ _ _ _ _ Hx1) as (x0 & Hx0 & Hxs).
      assert (x0 = x) as -> by congruence.
        pose proof (get2_set2 _ _ _ _ _ n q Hxs) as Hcell.
        rewrite decide_True in Hcell by done. rewrite Hcell. simpl.
        destruct (x + d <? 0) eqn:Hneg.
        -- destruct (set2_is_Some x1 n q 0) as [x2 Hx2].
           { unfold get2 in Hcell. destruct (x1 !! n); [eauto|done]. }
           rewrite Hx2. simpl.
           destruct (loss_percent cfg rb) as [pc|]; simpl; [|done].
           eexists. split; [reflexivity|]. simpl.
           split.
           { unfold same_shapes. simpl.
             rewrite (shape_set2_present _ _ _ _ _ (mk_is_Some _ _ Hcell) Hx2),
               (shape_add2 _ _ _ _ _ Hx1), (shape_add2 _ _ _ _ _ Hl1),
               (shape_add2 _ _ _ _ _ Hg1). done. }
           apply Z.ltb_lt in Hneg. replace (Z.max 0 (x + d)) with 0 by lia.
           split_and!; [done|done|done| | |intros n' q'; by apply Hid
                       |intros n' q'; by eapply get2_set2|intros n' q'; by eapply get2_set2].
           ++ intros n'. rewrite (lookup_set2 _ _ _ _ _ n' Hx2). by eapply lookup_set2.
           ++ intros n' q'. rewrite (get2_set2 _ _ _ _ _ n' q' Hx2).
              case_decide; [done|]. rewrite (get2_set2 _ _ _ _ _ n' q' Hxs).
              by rewrite decide_False.
        -- simpl.
           destruct (loss_percent cfg rb) as [pc|]; simpl; [|done].
           eexists. split; [reflexivity|]. simpl.
           split.
           { unfold same_shapes. simpl.
             rewrite (shape_add2 _ _ _ _ _ Hx1), (shape_add2 _ _ _ _ _ Hl1),
               (shape_add2 _ _ _ _ _ Hg1). done. }
           apply Z.ltb_ge in Hneg. replace (Z.max 0 (x + d)) with (x + d) by lia.
           split_and!; [done|done|done|intros n'; by eapply lookup_set2
                       |intros n' q'; by eapply get2_set2|intros n' q'; by apply Hid
                       |intros n' q'; by eapply get2_set2|intros n' q'; by eapply get2_set2].
      * destruct (add2 (player_playlist_losses t) n q 1); simpl; [|done].
        by rewrite Hg1.
    + rewrite Hg1. simpl. eexists. split; [reflexivity|]. simpl.
      split.
      { unfold same_shapes. simpl. rewrite (shape_add2 _ _ _ _ _ Hg1). done. }
      split_and!; [done|done|done|done|intros n' q'; by apply Hid|intros n' q'; by apply Hid
                  |intros n' q'; by apply Hid|intros n' q'; by eapply get2_set2].
Qed.

Lemma update_rank_spec (cfg : xp_config) (n q : string) (t : tracking) (x h : Z) :
  get2 (player_playlist_xp t) n q = Some x →
  is_Some (get2 (player_playlist_rank t) n q) →
  get2 (player_playlist_highest_rank t) n q = Some h →
  ∃ t', Replay.update_rank cfg n q t = Some t' ∧ same_shapes t t' ∧
    player_game_stats t' = player_game_stats t ∧
    player_playlist_xp t' = player_playlist_xp t ∧
    player_playlist_wins t' = player_playlist_wins t ∧
    player_playlist_losses t' = player_playlist_losses t ∧
    player_playlist_games t' = player_playlist_games t ∧
    (∀ n' q', get2 (player_playlist_rank t') n' q'
       = if decide (n' = n ∧ q' = q) then Some (calculate_rank x (rank_thresholds cfg))
         else get2 (player_playlist_rank t) n' q') ∧
    (∀ n' q', get2 (player_playlist_highest_rank t') n' q'
       = if decide (n' = n ∧ q' = q)
         then Some (Z.max h (calculate_rank x (rank_thresholds cfg)))
         else get2 (player_playlist_highest_rank t) n' q').
Proof.
  intros Hx Hr Hh. unfold Replay.update_rank. rewrite Hx. simpl.
  destruct (set2_is_Some (player_playlist_rank t) n q
              (calculate_rank x (rank_thresholds cfg))) as [r Hr'].
  { destruct Hr as [v Hv]. unfold get2 in Hv.
    destruct (player_playlist_rank t !! n); [eauto|done]. }
  rewrite Hr'. simpl. rewrite Hh. simpl.
  assert (Hid : ∀ n' q',
            get2 (player_playlist_highest_rank t) n' q'
            = if decide (n' = n ∧ q' = q) then Some h
              else get2 (player_playlist_highest_rank t) n' q').
  { intros n' q'. case_decide as Hc; [|done]. by destruct Hc as [-> ->]. }
  destruct (h <? calculate_rank x (rank_thresholds cfg)) eqn:Hlt.
  - destruct (set2_is_Some (player_playlist_highest_rank t) n q
                (calculate_rank x (rank_thresholds cfg))) as [h' Hh'].
    { unfold get2 in Hh. destruct (player_playlist_highest_rank t !! n); [eauto|done]. }
    rewrite Hh'. simpl. eexists. split; [reflexivity|]. simpl.
    apply Z.ltb_lt in Hlt.
    replace (Z.max h (calculate_rank x (rank_thresholds cfg)))
      with (calculate_rank x (rank_thresholds cfg)) by lia.
    split.
    { unfold same_shapes. simpl.
      rewrite (shape_set2_present _ _ _ _ _ Hr Hr'),
        (shape_set2_present _ _ _ _ _ (mk_is_Some _ _ Hh) Hh'). done. }
    split_and!; [done|done|done|done|done|intros n' q'; by eapply get2_set2
                |intros n' q'; by eapply get2_set2].
  - eexists. split; [reflexivity|]. simpl.
    apply Z.ltb_ge in Hlt.
    replace (Z.max h (calculate_rank x (rank_thresholds cfg))) with h by lia.
    split.
    { unfold same_shapes. simpl. rewrite (shape_set2_present _ _ _ _ _ Hr Hr'). done. }
    split_and!; [done|done|done|done|done|intros n' q'; by eapply get2_set2|done].
Qed.

(** What the replay does with a row of a tracked player that is no
    dedicated server: the cell of the player in the match's playlist moves
    by [result_cell], every other cell stays, and the accumulators stay
    aligned.  An exception comes from the XP change only. *)
Lemma replay_player_spec (cfg : xp_config) (W L : list string) (q : string)
    (t : tracking) (p : player) :
  tracking_wf t →
  is_dedicated_server (p_name p) = false →
  is_Some (player_playlist_xp t !! p_name p) →
  match result_cell cfg W L (p_name p) (rank_before_row t (p_name p) q)
          (cell_before t (p_name p) q) with
  | None => Replay.replay_player cfg W L q t p = None
  | Some (x', w', l', g') =>
      ∃ t', Replay.replay_player cfg W L q t p = Some t' ∧ tracking_wf t' ∧
        player_game_stats t' = player_game_stats t ∧
        (∀ n', is_Some (player_playlist_xp t' !! n') ↔ is_Some (player_playlist_xp t !! n')) ∧
        (∀ n' q', get2 (player_playlist_xp t') n' q'
           = if decide (n' = p_name p ∧ q' = q) then Some x'
             else get2 (player_playlist_xp t) n' q') ∧
        (∀ n' q', get2 (player_playlist_wins t') n' q'
           = if decide (n' = p_name p ∧ q' = q) then Some w'
             else get2 (player_playlist_wins t) n' q') ∧
        (∀ n' q', get2 (player_playlist_losses t') n' q'
           = if decide (n' = p_name p ∧ q' = q) then Some l'
             else get2 (player_playlist_losses t) n' q') ∧
        (∀ n' q', get2 (player_playlist_games t') n' q'
           = if decide (n' = p_name p ∧ q' = q) then Some g'
             else get2 (player_playlist_games t) n' q')
  end.
Proof.
  intros Hwf Hded [inner Hinner].
  set (n := p_name p) in *.
  (* the state after "Initialize playlist tracking if needed" *)
  assert (Hstart : ∃ t1,
    (if bool_decide (is_Some (inner !! q)) then Some t
     else Replay.init_playlist t n q) = Some t1 ∧ tracking_wf t1 ∧
    player_game_stats t1 = player_game_stats t ∧
    (∀ n', is_Some (player_playlist_xp t1 !! n') ↔ is_Some (player_playlist_xp t !! n')) ∧
    (∃ x w l g rb,
       cell_before t n q = (x, w, l, g) ∧ rank_before_row t n q = rb ∧
       get2 (player_playlist_xp t1) n q = Some x ∧
       get2 (player_playlist_wins t1) n q = Some w ∧
       get2 (player_playlist_losses t1) n q = Some l ∧
       get2 (player_playlist_games t1) n q = Some g ∧
       get2 (player_playlist_rank t1) n q = Some rb) ∧
    is_Some (get2 (player_playlist_highest_rank t1) n q) ∧
    (∀ n' q', ¬ (n' = n ∧ q' = q) →
       get2 (player_playlist_xp t1) n' q' = get2 (player_playlist_xp t) n' q' ∧
       get2 (player_playlist_wins t1) n' q' = get2 (player_playlist_wins t) n' q' ∧
       get2 (player_playlist_losses t1) n' q' = get2 (player_playlist_losses t) n' q' ∧
       get2 (player_playlist_games t1) n' q' = get2 (player_playlist_games t) n' q')).
  { assert (Hcell : is_Some (inner !! q) ↔ is_Some (get2 (player_playlist_xp t) n q)).
    { unfold get2. by rewrite Hinner. }
    destruct Hwf as (Hw & Hl & Hg & Hr & Hh).
    case_bool_decide as Hq.
    - exists t. apply Hcell in Hq.
      destruct Hq as [x Hx].
      destruct (proj2 (shape_eq_cell _ _ n q Hw) (mk_is_Some _ _ Hx)) as [w Hw'].
      destruct (proj2 (shape_eq_cell _ _ n q Hl) (mk_is_Some _ _ Hx)) as [l Hl'].
      destruct (proj2 (shape_eq_cell _ _ n q Hg) (mk_is_Some _ _ Hx)) as [g Hg'].
      destruct (covers_cell _ _ n q Hr (mk_is_Some _ _ Hx)) as [rb Hrb].
      split_and!; [done|done|done|done| |by eapply covers_cell|done].
      exists x, w, l, g, rb. unfold cell_before, rank_before_row, get2_default.
      rewrite bool_decide_eq_true_2 by (rewrite Hx; eauto).
      rewrite Hx, Hw', Hl', Hg', Hrb. done.
    - assert (Hnone : get2 (player_playlist_xp t) n q = None).
      { apply eq_None_not_Some. by rewrite <- Hcell. }
      assert (Hnone' : ∀ d : ndict, shape d = shape (player_playlist_xp t) →
                get2 d n q = None).
      { intros d Hd. apply eq_None_not_Some. rewrite (shape_eq_cell _ _ n q Hd).
        by rewrite Hnone; intros [? ?]. }
      destruct (init_playlist_spec t n q (conj Hw (conj Hl (conj Hg (conj Hr Hh))))
                  (mk_is_Some _ _ Hinner))
        as (t1 & Ht1 & Hwf1 & Hst & Hnames & Hx1 & Hw1 & Hl1 & Hg1 & Hr1 & Hh1).
      exists t1. split_and!; [done|done|done|done| | |].
      + exists 0, 0, 0, 0, 1. unfold cell_before, rank_before_row, get2_default.
        rewrite bool_decide_eq_false_2 by (rewrite Hnone; by intros [? ?]).
        rewrite Hnone, (Hnone' _ Hw), (Hnone' _ Hl), (Hnone' _ Hg). simpl.
        rewrite Hx1, Hw1, Hl1, Hg1, Hr1. by rewrite !decide_True.
      + rewrite Hh1. rewrite decide_True by done. eauto.
      + intros n' q' Hne. rewrite Hx1, Hw1, Hl1, Hg1. by rewrite !decide_False. }
  destruct Hstart as (t1 & Ht1 & Hwf1 & Hst1 & Hnames1 & (x & w & l & g & rb & Hcb & Hrb
                      & Hx & Hw & Hl & Hg & Hr) & Hh & Hframe).
  rewrite Hcb, Hrb.
  pose proof (apply_result_spec cfg W L n q rb t1 x w l g Hx Hw Hl Hg) as Hres.
  destruct (result_cell cfg W L n rb (x, w, l, g)) as [[[[x' w'] l'] g']|].
  - destruct Hres as (t2 & Ht2 & Hsh2 & Hst2 & Hrk2 & Hhi2 & Hnames2
                      & Hx2 & Hw2 & Hl2 & Hg2).
    unfold Replay.replay_player. fold n. rewrite Hded, Hinner, Ht1. simpl.
    rewrite Hx, Hr. simpl.
    rewrite Ht2. simpl.
    assert (Hx2' : get2 (player_playlist_xp t2) n q = Some x').
    { rewrite Hx2. by rewrite decide_True. }
    destruct Hh as [h Hh].
    destruct (update_rank_spec cfg n q t2 x' h Hx2')
      as (t3 & Ht3 & Hsh3 & Hst3 & Hxp3 & Hwi3 & Hlo3 & Hga3 & _).
    { rewrite Hrk2. eauto. }
    { by rewrite Hhi2. }
    exists t3. split; [done|].
    split; [apply (same_shapes_wf t1); [by eapply same_shapes_trans|done]|].
    split; [congruence|].
    split; [intros n'; rewrite Hxp3, Hnames2; apply Hnames1|].
    rewrite Hxp3, Hwi3, Hlo3, Hga3.
    split_and!; intros n' q'.
    + rewrite Hx2. case_decide as Hc; [done|]. by apply Hframe.
    + rewrite Hw2. case_decide as Hc; [done|]. by apply Hframe.
    + rewrite Hl2. case_decide as Hc; [done|]. by apply Hframe.
    + rewrite Hg2. case_decide as Hc; [done|]. by apply Hframe.
  - unfold Replay.replay_player. fold n. rewrite Hded, Hinner, Ht1. simpl.
    rewrite Hx, Hr. simpl. by rewrite Hres.
Qed.

(** *** The outcome engine *)

Lemma sumZ_app (l1 l2 : list Z) : sumZ (l1 ++ l2) = sumZ l1 + sumZ l2.
Proof. unfold sumZ. induction l1 as [|x l1 IH]; simpl; lia. Qed.

Lemma eqb_decide (a b : string) : String.eqb a b = bool_decide (a = b).
Proof.
  destruct (String.eqb_spec a b) as [->|Hne].
  - by rewrite bool_decide_eq_true_2.
  - by rewrite bool_decide_eq_false_2.
Qed.

Lemma team_entry_add (teams : teams_dict) (team : string) (pts : Z) (name t' : string) :
  team_entry (add_to_team teams team pts name) t'
  = if decide (t' = team)
    then Some (match team_entry teams team with
               | Some (sc, ns) => (sc + pts, ns ++ [name])
               | None => (0 + pts, [name])
               end)
    else team_entry teams t'.
Proof.
  induction teams as [|[t [sc ns]] rest IH]; simpl.
  - rewrite eqb_decide. case_decide; case_bool_decide; naive_solver.
  - rewrite (eqb_decide t team). case_bool_decide as Ht; simpl.
    + subst t. rewrite (eqb_decide team t'). case_decide; case_bool_decide; naive_solver.
    + rewrite (eqb_decide t t'). rewrite IH.
      case_decide; case_bool_decide; naive_solver.
Qed.

Lemma length_add_to_team (teams : teams_dict) (team : string) (pts : Z) (name : string) :
  length (add_to_team teams team pts name)
  = match team_entry teams team with
    | Some _ => length teams
    | None => S (length teams)
    end.
Proof.
  induction teams as [|[t [sc ns]] rest IH]; simpl; [done|].
  destruct (String.eqb t team); simpl; [done|].
  rewrite IH. by destruct (team_entry rest team).
Qed.

Lemma rows_on_snoc (team : string) (ps : list player) (p : player) :
  rows_on team (ps ++ [p]) = rows_on team ps ++ (if on_team team p then [p] else []).
Proof.
  unfold rows_on. rewrite filter_app. f_equal.
  rewrite filter_cons, filter_nil.
  destruct (on_team team p); by case_decide.
Qed.

Lemma qualifies_iff (p : player) :
  negb (String.eqb (Py.strip (p_team p)) "") && mem (Py.strip (p_team p)) ["Red"; "Blue"] = true
  ↔ Py.strip (p_team p) = "Red" ∨ Py.strip (p_team p) = "Blue".
Proof.
  unfold mem. rewrite andb_true_iff, negb_true_iff, eqb_decide.
  rewrite bool_decide_eq_false, bool_decide_eq_true.
  rewrite !elem_of_cons, elem_of_nil. split.
  - naive_solver.
  - intros [H|H]; rewrite H; naive_solver.
Qed.

Lemma on_team_eq (team : string) (p : player) :
  on_team team p = true ↔ Py.strip (p_team p) = team.
Proof. unfold on_team. by rewrite eqb_decide, bool_decide_eq_true. Qed.

Lemma snoc_ne_nil {A} (l : list A) (x : A) : l ++ [x] ≠ [].
Proof. destruct l; simpl; discriminate. Qed.
(** After the rows [ps] the dict holds, for Red and for Blue, the entry of
    the team's rows, and as many entries as teams with rows. *)
Lemma teams_after_rows (ctf : bool) (detailed : gmap string Z) (ps : list player) :
  let teams := foldl (add_row ctf detailed) [] ps in
  (∀ team, team_entry teams team = entry_spec ctf detailed ps team) ∧
  length teams = ((if bool_decide (rows_on "Red" ps ≠ []) then 1 else 0)
                  + (if bool_decide (rows_on "Blue" ps ≠ []) then 1 else 0))%nat.
Proof.
  induction ps as [|p ps IH] using rev_ind; simpl.
  - split; [|done]. intros team. unfold entry_spec.
    rewrite bool_decide_eq_false_2; [done|]. by intros [_ H].
  - destruct IH as [IHe IHl]. rewrite foldl_snoc.
    set (teams := foldl (add_row ctf detailed) [] ps) in *.
    destruct (negb (String.eqb (Py.strip (p_team p)) "")
              && mem (Py.strip (p_team p)) ["Red"; "Blue"]) eqn:Hq.
    + assert (Hstep : add_row ctf detailed teams p
                = add_to_team teams (Py.strip (p_team p)) (row_points ctf detailed p) (p_name p)).
      { unfold add_row. by rewrite Hq. }
      rewrite Hstep. clear Hstep.
      apply qualifies_iff in Hq.
      set (tm := Py.strip (p_team p)) in *.
      assert (Hon : ∀ team, on_team team p = bool_decide (team = tm)).
      { intros team. unfold on_team. fold tm. rewrite eqb_decide.
        apply bool_decide_ext. naive_solver. }
      assert (Hrows : ∀ team, rows_on team (ps ++ [p])
                = if decide (team = tm) then rows_on team ps ++ [p] else rows_on team ps).
      { intros team. rewrite rows_on_snoc, Hon. case_decide.
        - by rewrite bool_decide_eq_true_2.
        - rewrite bool_decide_eq_false_2 by done. by rewrite app_nil_r. }
      split.
      * clear IHl. intros team. rewrite team_entry_add, IHe.
        unfold entry_spec. rewrite !Hrows.
        case_decide as Ht.
        -- subst team.
           rewrite (bool_decide_eq_true_2 ((tm = "Red" ∨ tm = "Blue") ∧ rows_on tm ps ++ [p] ≠ [])).
           2:{ split; [done|]. apply snoc_ne_nil. }
           case_bool_decide as Hp.
           ++ rewrite !fmap_app, sumZ_app. simpl. do 2 f_equal. unfold sumZ. simpl. lia.
           ++ assert (rows_on tm ps = []) as ->.
              { destruct (rows_on tm ps); [done|]. exfalso. apply Hp. by split. }
              simpl. do 2 f_equal. unfold sumZ. simpl. lia.
        -- done.
      * rewrite length_add_to_team, IHe, IHl. clear IHl IHe. unfold entry_spec.
        rewrite !Hrows.
        assert (Hsn : ∀ t, rows_on t ps ++ [p] ≠ []) by (intros; apply snoc_ne_nil).
        destruct Hq as [Hq|Hq]; rewrite Hq; clear Hrows Hon; clearbody tm; subst tm.
        -- rewrite (decide_True (P := "Red" = "Red")) by done.
           rewrite (decide_False (P := "Blue" = "Red")) by done.
           rewrite (bool_decide_eq_true_2 _ (Hsn "Red")).
           destruct (decide (rows_on "Red" ps = [])) as [Hr|Hr].
           ++ rewrite (bool_decide_eq_false_2 (_ ∧ _)) by (intros [_ ?]; done).
              rewrite (bool_decide_eq_false_2 (rows_on "Red" ps ≠ [])) by (intros ?; done).
              done.
           ++ rewrite (bool_decide_eq_true_2 (_ ∧ _)) by (split; [by left|done]).
              by rewrite (bool_decide_eq_true_2 (rows_on "Red" ps ≠ [])).
        -- rewrite (decide_True (P := "Blue" = "Blue")) by done.
           rewrite (decide_False (P := "Red" = "Blue")) by done.
           rewrite (bool_decide_eq_true_2 _ (Hsn "Blue")).
           destruct (decide (rows_on "Blue" ps = [])) as [Hr|Hr].
           ++ rewrite (bool_decide_eq_false_2 (_ ∧ _)) by (intros [_ ?]; done).
              rewrite (bool_decide_eq_false_2 (rows_on "Blue" ps ≠ [])) by (intros ?; done).
              destruct (bool_decide (rows_on "Red" ps ≠ [])); simpl; lia.
           ++ rewrite (bool_decide_eq_true_2 (_ ∧ _)) by (split; [by right|done]).
              rewrite (bool_decide_eq_true_2 (rows_on "Blue" ps ≠ [])) by done.
              destruct (bool_decide (rows_on "Red" ps ≠ [])); simpl; lia.
    + assert (Hstep : add_row ctf detailed teams p = teams).
      { unfold add_row. by rewrite Hq. }
      rewrite Hstep. clear Hstep.
      assert (Hoff : ∀ team, team = "Red" ∨ team = "Blue" → on_team team p = false).
      { intros team Ht. apply not_true_is_false. intros Hon.
        apply on_team_eq in Hon. apply not_true_iff_false in Hq. apply Hq.
        apply qualifies_iff. naive_solver. }
      assert (Hrows : ∀ team, team = "Red" ∨ team = "Blue" →
                rows_on team (ps ++ [p]) = rows_on team ps).
      { intros team Ht. by rewrite rows_on_snoc, (Hoff team Ht), app_nil_r. }
      split.
      * intros team. rewrite IHe. unfold entry_spec.
        destruct (decide (team = "Red" ∨ team = "Blue")) as [Ht|Ht].
        -- by rewrite (Hrows team Ht).
        -- rewrite !(bool_decide_eq_false_2 (_ ∧ _)); [done| |]; by intros [? _].
      * rewrite IHl, !Hrows by auto. done.
Qed.

Lemma detailed_lookup_nonempty (stats : list detailed_stat) :
  stats ≠ [] → nonempty_dict (detailed_lookup stats) = true.
Proof.
  intros Hne. unfold detailed_lookup.
  destruct stats as [|s stats _] using rev_ind; [done|].
  rewrite foldl_snoc. apply (nonempty_dict_lookup _ (ds_player s)).
  rewrite lookup_insert_eq. eauto.
Qed.

Lemma build_teams_rows (g : game) :
  build_teams g
  = foldl (add_row (use_ctf g) (detailed_lookup (g_detailed_stats g))) [] (g_players g).
Proof.
  unfold build_teams, use_ctf.
  destruct (is_ctf g); simpl; [|done].
  case_bool_decide as Hs; simpl.
  - assert (Hext : ∀ d1 d2 ps acc,
              foldl (add_row false d1) acc ps = foldl (add_row false d2) acc ps).
    { intros d1 d2 ps. induction ps as [|p ps IH]; intros acc; simpl; [done|].
      by rewrite IH. }
    unfold nonempty_dict. rewrite bool_decide_eq_true_2 by done. simpl. apply Hext.
  - by rewrite detailed_lookup_nonempty.
Qed.

Lemma entry_spec_team (g : game) (team : string) :
  team = "Red" ∨ team = "Blue" →
  entry_spec (use_ctf g) (detailed_lookup (g_detailed_stats g)) (g_players g) team
  = if bool_decide (has_team g team) then Some (team_score g team, team_names g team)
    else None.
Proof.
  intros Ht. unfold entry_spec, has_team, team_score, team_names.
  fold (rows_on team (g_players g)).
  destruct (decide (rows_on team (g_players g) = [])) as [He|He].
  - rewrite (bool_decide_eq_false_2 (_ ∧ _)) by (by intros [_ ?]).
    by rewrite (bool_decide_eq_false_2 (rows_on team (g_players g) ≠ [])) by (by intros ?).
  - rewrite (bool_decide_eq_true_2 (_ ∧ _)) by done.
    by rewrite (bool_decide_eq_true_2 (rows_on team (g_players g) ≠ [])).
Qed.

(** The outcome engine, by the teams that have rows and their scores. *)
Lemma engine_outcome (g : game) :
  determine_winners_losers g
  = if bool_decide (has_team g "Red" ∧ has_team g "Blue") then
      if team_score g "Blue" <? team_score g "Red"
      then (team_names g "Red", team_names g "Blue")
      else if team_score g "Red" <? team_score g "Blue"
      then (team_names g "Blue", team_names g "Red")
      else ([], [])
    else ([], []).
Proof.
  unfold determine_winners_losers. rewrite build_teams_rows.
  destruct (teams_after_rows (use_ctf g) (detailed_lookup (g_detailed_stats g))
              (g_players g)) as [He Hl].
  set (teams := foldl _ _ _) in *.
  pose proof (He "Red") as HR. pose proof (He "Blue") as HB.
  rewrite entry_spec_team in HR by auto. rewrite entry_spec_team in HB by auto.
  fold (has_team g "Red") in Hl. fold (has_team g "Blue") in Hl.
  clearbody teams. clear He.
  destruct (bool_decide (has_team g "Red")) eqn:Hr;
    destruct (bool_decide (has_team g "Blue")) eqn:Hb.
  - rewrite bool_decide_eq_true_2
      by (split; [by apply bool_decide_eq_true in Hr|by apply bool_decide_eq_true in Hb]).
    destruct teams as [|[t1 [s1 n1]] [|[t2 [s2 n2]] [|? ?]]]; try done.
    simpl in HR, HB.
    rewrite !eqb_decide in HR, HB.
    repeat case_bool_decide; simplify_eq/=;
      repeat (match goal with
              | |- context [?a <? ?b] => destruct (Z.ltb_spec a b)
              | |- context [?a =? ?b] => destruct (Z.eqb_spec a b)
              end; simpl); try done; lia.
  - rewrite bool_decide_eq_false_2
      by (intros [_ H]; by apply bool_decide_eq_false in Hb).
    by destruct teams as [|[t1 [s1 n1]] [|[t2 [s2 n2]] [|? ?]]].
  - rewrite bool_decide_eq_false_2
      by (intros [H _]; by apply bool_decide_eq_false in Hr).
    by destruct teams as [|[t1 [s1 n1]] [|[t2 [s2 n2]] [|? ?]]].
  - rewrite bool_decide_eq_false_2
      by (intros [H _]; by apply bool_decide_eq_false in Hr).
    by destruct teams as [|[t1 [s1 n1]] [|[t2 [s2 n2]] [|? ?]]].
Qed.

(** Equal team scores: no winners and no losers. *)
Lemma engine_tie (g : game) :
  team_score g "Red" = team_score g "Blue" → determine_winners_losers g = ([], []).
Proof.
  intros Heq. rewrite engine_outcome, Heq.
  rewrite Z.ltb_irrefl. by destruct (bool_decide _).
Qed.

(** *** The replay loops *)

Lemma foldlM_keeps {A B} (f : A → B → option A) (I : A → Prop) (l : list B) (a a' : A) :
  (∀ a b a', I a → f a b = Some a' → I a') → I a → foldlM f a l = Some a' → I a'.
Proof.
  intros Hstep. revert a. induction l as [|b l IH]; intros a Ha; simpl.
  - by intros [= <-].
  - destruct (f a b) as [a1|] eqn:Hf; [|done]. simpl. apply IH. by eapply Hstep.
Qed.

Lemma replay_player_skip (cfg : xp_config) (W L : list string) (q : string)
    (t : tracking) (p : player) :
  is_dedicated_server (p_name p) = true ∨ player_playlist_xp t !! p_name p = None →
  Replay.replay_player cfg W L q t p = Some t.
Proof.
  intros [H|H]; unfold Replay.replay_player; [by rewrite H|].
  rewrite H. by destruct (is_dedicated_server _).
Qed.

Lemma get2_default_nonneg (t : tracking) (n q : string) :
  xp_nonneg t → 0 ≤ get2_default (player_playlist_xp t) n q 0.
Proof.
  intros H. unfold get2_default.
  destruct (get2 (player_playlist_xp t) n q) as [v|] eqn:Hv; simpl; [|lia].
  by apply (H n q).
Qed.

(** A row that does not raise keeps the accumulators aligned and the XP
    at or above 0, when a win never costs XP. *)
Lemma replay_player_nonneg (cfg : xp_config) (W L : list string) (q : string)
    (t t' : tracking) (p : player) :
  wins_never_cost cfg → tracking_wf t ∧ xp_nonneg t →
  Replay.replay_player cfg W L q t p = Some t' →
  tracking_wf t' ∧ xp_nonneg t'.
Proof.
  intros Hcfg [Hwf Hnn] Hrun.
  destruct (is_dedicated_server (p_name p)) eqn:Hded.
  { rewrite replay_player_skip in Hrun by (by left). by injection Hrun as <-. }
  destruct (player_playlist_xp t !! p_name p) as [inner|] eqn:Hin.
  2:{ rewrite replay_player_skip in Hrun by (by right). by injection Hrun as <-. }
  pose proof (replay_player_spec cfg W L q t p Hwf Hded (mk_is_Some _ _ Hin)) as Hspec.
  pose proof (get2_default_nonneg t (p_name p) q Hnn) as Hx0.
  unfold cell_before in Hspec.
  set (x := get2_default (player_playlist_xp t) (p_name p) q 0) in *.
  destruct (result_cell cfg W L (p_name p) _ _) as [[[[x' w'] l'] g']|] eqn:Hcell;
    [|by rewrite Hspec in Hrun].
  destruct Hspec as (t1 & Ht1 & Hwf' & _ & _ & Hxp & _).
  rewrite Ht1 in Hrun. injection Hrun as <-. split; [done|].
  assert (Hnew : 0 ≤ x').
  { unfold result_cell in Hcell.
    destruct (mem (p_name p) W).
    - destruct (win_xp_change cfg _) as [d|] eqn:Hd; [|done]. simpl in Hcell.
      destruct (win_percent cfg _); [|done]. simpl in Hcell.
      apply Hcfg in Hd. simplify_eq. lia.
    - destruct (mem (p_name p) L).
      + destruct (loss_xp_change cfg _); [|done]. simpl in Hcell.
        destruct (loss_percent cfg _); [|done]. simpl in Hcell. simplify_eq. lia.
      + simplify_eq. lia. }
  intros n' q' v Hv. rewrite Hxp in Hv. case_decide; [by simplify_eq|].
  by apply (Hnn n' q').
Qed.

Lemma replay_game_nonneg (cfg : xp_config) (t t' : tracking) (g : game) :
  wins_never_cost cfg → tracking_wf t ∧ xp_nonneg t →
  Replay.replay_game cfg t g = Some t' →
  tracking_wf t' ∧ xp_nonneg t'.
Proof.
  intros Hcfg Ht Hg. unfold Replay.replay_game in Hg.
  destruct (determine_winners_losers g) as [W L].
  destruct (g_playlist g) as [q|]; [|by injection Hg as <-].
  destruct (String.eqb q ""); [by injection Hg as <-|].
  eapply (foldlM_keeps (Replay.replay_player cfg W L q)
            (λ t, tracking_wf t ∧ xp_nonneg t)); [|exact Ht|exact Hg].
  intros a b a' Ha Hb. by eapply replay_player_nonneg.
Qed.

Lemma replay_nonneg (cfg : xp_config) (t t' : tracking) (games : list game) :
  wins_never_cost cfg → tracking_wf t ∧ xp_nonneg t →
  Replay.replay cfg t games = Some t' →
  tracking_wf t' ∧ xp_nonneg t'.
Proof.
  intros Hcfg Ht Hrun.
  eapply (foldlM_keeps (Replay.replay_game cfg) (λ t, tracking_wf t ∧ xp_nonneg t));
    [|exact Ht|exact Hrun].
  intros a b a' Ha Hb. by eapply replay_game_nonneg.
Qed.

(** C2, X26. From aligned accumulators that hold no negative XP (the empty
    ones of a full rebuild, or the ones restored from a snapshot), with a
    configuration in which a win never costs XP, the XP of every player in
    every playlist is at least 0 after every match that the replay of the
    ranked matches gets through: however far the replay runs without
    raising, the accumulators are aligned and no XP is negative.  A row of a
    loss that is replayed without raising and whose XP change would bring
    the XP below 0 leaves it at exactly 0. *)
Theorem xp_floor (cfg : xp_config) (t : tracking) (games : list game) :
  wins_never_cost cfg → tracking_wf t → xp_nonneg t →
  (∀ n t_n, Replay.replay cfg t (take n games) = Some t_n →
            tracking_wf t_n ∧ xp_nonneg t_n) ∧
  (∀ W L q p d t',
     is_dedicated_server (p_name p) = false →
     is_Some (player_playlist_xp t !! p_name p) →
     mem (p_name p) W = false → mem (p_name p) L = true →
     loss_xp_change cfg (rank_before_row t (p_name p) q) = Some d →
     get2_default (player_playlist_xp t) (p_name p) q 0 + d < 0 →
     Replay.replay_player cfg W L q t p = Some t' →
     get2 (player_playlist_xp t') (p_name p) q = Some 0).
Proof.
  intros Hcfg Hwf Hnn. split.
  - intros n t_n Hrun. by eapply replay_nonneg.
  - intros W L q p d t' Hded Hin HW HL Hd Hneg Hrun.
    pose proof (replay_player_spec cfg W L q t p Hwf Hded Hin) as Hspec.
    unfold cell_before, result_cell in Hspec. rewrite HW, HL, Hd in Hspec.
    simpl in Hspec.
    destruct (loss_percent cfg _); simpl in Hspec; [|by rewrite Hspec in Hrun].
    destruct Hspec as (t1 & Ht1 & _ & _ & _ & Hxp & _).
    rewrite Ht1 in Hrun. injection Hrun as <-.
    rewrite Hxp, decide_True by done. f_equal. lia.
Qed.

Lemma sample_wins_never_cost : wins_never_cost sample_config.
Proof.
  intros rank d. unfold win_xp_change, get_win_factor. simpl.
  rewrite lookup_empty. simpl.
  destruct (rank <=? 40); vm_compute; intros [= <-]; done.
Qed.

Lemma fresh_two_wf : tracking_wf fresh_two.
Proof. unfold tracking_wf. simpl. split_and!; try done; apply covers_refl. Qed.

Lemma fresh_two_nonneg : xp_nonneg fresh_two.
Proof.
  intros n q v. unfold get2, fresh_two. cbn [player_playlist_xp].
  destruct (decide (n = "Ace")) as [->|].
  { rewrite lookup_insert_eq. simpl. by rewrite lookup_empty. }
  rewrite lookup_insert_ne by done.
  destruct (decide (n = "Cat")) as [->|].
  { rewrite lookup_singleton_eq. simpl. by rewrite lookup_empty. }
  by rewrite lookup_singleton_ne.
Qed.

Lemma xp_floor_witness :
  ∃ t3, Replay.replay sample_config fresh_two (take 3 losing_streak) = Some t3 ∧
        get2 (player_playlist_xp t3) "Ace" "Head to Head" = Some 0 ∧
        get2 (player_playlist_xp t3) "Cat" "Head to Head" = Some 300 ∧
        tracking_wf t3 ∧ xp_nonneg t3.
Proof.
  exists (default empty_tracking
            (Replay.replay sample_config fresh_two (take 3 losing_streak))).
  assert (Hrun : Replay.replay sample_config fresh_two (take 3 losing_streak)
                 = Some (default empty_tracking
                           (Replay.replay sample_config fresh_two (take 3 losing_streak))))
    by (vm_compute; reflexivity).
  split; [exact Hrun|]. split; [vm_compute; reflexivity|].
  split; [vm_compute; reflexivity|].
  exact (proj1 (xp_floor sample_config fresh_two losing_streak
                  sample_wins_never_cost fresh_two_wf fresh_two_nonneg)
           3%nat _ Hrun).
Defined.

(** *** Ties *)

(** A row of a match without winners or losers. *)
Lemma replay_player_tie (cfg : xp_config) (q : string) (t : tracking) (p : player) :
  tracking_wf t →
  ∃ t', Replay.replay_player cfg [] [] q t p = Some t' ∧ tracking_wf t' ∧
    (∀ n', is_Some (player_playlist_xp t' !! n') ↔ is_Some (player_playlist_xp t !! n')) ∧
    tie_effect q (λ name, Z.of_nat (length (rows_processed t name [p]))) t t'.
Proof.
  intros Hwf.
  assert (Hskip : is_dedicated_server (p_name p) = true
                  ∨ player_playlist_xp t !! p_name p = None →
    ∀ name, Z.of_nat (length (rows_processed t name [p])) = 0).
  { intros Hs name. unfold rows_processed. rewrite filter_cons, filter_nil.
    case_decide as Hc; [|done]. destruct Hc as (<- & Hd & Hi). exfalso.
    destruct Hs as [Hs|Hs]; [congruence|]. rewrite Hs in Hi. by destruct Hi. }
  assert (Hnop : is_dedicated_server (p_name p) = true
                 ∨ player_playlist_xp t !! p_name p = None →
    ∃ t', Replay.replay_player cfg [] [] q t p = Some t' ∧ tracking_wf t' ∧
      (∀ n', is_Some (player_playlist_xp t' !! n') ↔ is_Some (player_playlist_xp t !! n')) ∧
      tie_effect q (λ name, Z.of_nat (length (rows_processed t name [p]))) t t').
  { intros Hs. exists t. split; [by apply replay_player_skip|]. split; [done|].
    split; [done|]. intros name playlist. rewrite (Hskip Hs).
    split_and!; try done. case_decide; lia. }
  destruct (is_dedicated_server (p_name p)) eqn:Hded; [apply Hnop; by left|].
  destruct (player_playlist_xp t !! p_name p) as [inner|] eqn:Hin; [|apply Hnop; by right].
  clear Hskip Hnop.
  pose proof (replay_player_spec cfg [] [] q t p Hwf Hded (mk_is_Some _ _ Hin)) as Hspec.
  unfold cell_before, result_cell in Hspec. simpl in Hspec.
  destruct Hspec as (t' & Ht' & Hwf' & _ & Hnames & Hx & Hw & Hl & Hg).
  exists t'. split; [done|]. split; [done|]. split; [done|].
  intros name playlist. unfold get2_default. rewrite Hx, Hw, Hl, Hg.
  assert (Hcount : Z.of_nat (length (rows_processed t name [p]))
                   = if decide (name = p_name p) then 1 else 0).
  { unfold rows_processed. rewrite filter_cons, filter_nil.
    case_decide as Hc.
    - destruct Hc as (<- & _). by rewrite decide_True.
    - rewrite decide_False; [done|]. intros ->. apply Hc.
      split; [done|]. split; [done|]. rewrite Hin. eauto. }
  rewrite Hcount.
  destruct (decide (name = p_name p ∧ playlist = q)) as [[-> ->]|Hne].
  - rewrite !decide_True by done. simpl. split_and!; try done; lia.
  - split_and!; try done.
    destruct (decide (playlist = q)); destruct (decide (name = p_name p)); try lia.
    exfalso. by apply Hne.
Qed.

Lemma rows_processed_names (t t' : tracking) (name : string) (ps : list player) :
  (∀ n', is_Some (player_playlist_xp t' !! n') ↔ is_Some (player_playlist_xp t !! n')) →
  rows_processed t' name ps = rows_processed t name ps.
Proof.
  intros H. unfold rows_processed. apply list_filter_iff. intros p. by rewrite (H name).
Qed.

(** The rows of a match without winners or losers. *)
Lemma replay_rows_tie (cfg : xp_config) (q : string) (ps : list player) (t : tracking) :
  tracking_wf t →
  ∃ t', foldlM (Replay.replay_player cfg [] [] q) t ps = Some t' ∧ tracking_wf t' ∧
    (∀ n', is_Some (player_playlist_xp t' !! n') ↔ is_Some (player_playlist_xp t !! n')) ∧
    tie_effect q (λ name, Z.of_nat (length (rows_processed t name ps))) t t'.
Proof.
  revert t. induction ps as [|p ps IH]; intros t Hwf; simpl.
  - exists t. split; [done|]. split; [done|]. split; [done|].
    intros name playlist. split_and!; try done. case_decide; lia.
  - destruct (replay_player_tie cfg q t p Hwf) as (t1 & Ht1 & Hwf1 & Hn1 & He1).
    rewrite Ht1. simpl.
    destruct (IH t1 Hwf1) as (t2 & Ht2 & Hwf2 & Hn2 & He2).
    exists t2. split; [done|]. split; [done|].
    split; [intros n'; by rewrite Hn2, Hn1|].
    intros name playlist.
    destruct (He1 name playlist) as (Hx1 & Hw1 & Hl1 & Hg1).
    destruct (He2 name playlist) as (Hx2 & Hw2 & Hl2 & Hg2).
    rewrite Hx2, Hw2, Hl2, Hg2, Hx1, Hw1, Hl1, Hg1.
    rewrite (rows_processed_names t t1 name ps Hn1).
    split_and!; try done.
    change (p :: ps) with ([p] ++ ps).
    unfold rows_processed at 3. rewrite filter_app. fold (rows_processed t name [p]).
    fold (rows_processed t name ps). rewrite length_app.
    case_decide; lia.
Qed.

(** C4, X27. A ranked match whose two team scores are equal has no winners and
    no losers, and its replay leaves the XP, wins and losses of every player
    in every playlist as they are, and adds to the games of a player in the
    match's playlist one for each row of the player that the replay
    processes: exactly 1 for a player with one row. *)
Theorem tie_neutrality (cfg : xp_config) (t : tracking) (g : game) (q : string) :
  tracking_wf t →
  g_playlist g = Some q → q ≠ "" →
  team_score g "Red" = team_score g "Blue" →
  determine_winners_losers g = ([], []) ∧
  ∃ t', Replay.replay_game cfg t g = Some t' ∧
    tie_effect q (λ name, Z.of_nat (length (processed_rows t g name))) t t' ∧
    (∀ name, length (processed_rows t g name) = 1%nat →
       get2_default (player_playlist_games t') name q 0
       = get2_default (player_playlist_games t) name q 0 + 1).
Proof.
  intros Hwf Hq Hne Htie.
  pose proof (engine_tie g Htie) as Hengine. split; [done|].
  unfold Replay.replay_game. rewrite Hengine, Hq.
  rewrite (proj2 (String.eqb_neq q "") Hne).
  destruct (replay_rows_tie cfg q (g_players g) t Hwf) as (t' & Ht' & _ & _ & He).
  fold (processed_rows t g) in He.
  exists t'. split; [done|]. split; [exact He|].
  intros name Hone. destruct (He name q) as (_ & _ & _ & Hg).
  rewrite Hg, decide_True by done.
  unfold processed_rows in Hone. rewrite Hone. lia.
Qed.

Lemma drawn_duel_tie : team_score drawn_duel "Red" = team_score drawn_duel "Blue".
Proof. vm_compute. reflexivity. Qed.

Lemma tie_neutrality_witness :
  determine_winners_losers drawn_duel = ([], []) ∧
  ∃ t', Replay.replay_game sample_config fresh_two drawn_duel = Some t' ∧
    tie_effect "Head to Head"
      (λ name, Z.of_nat (length (processed_rows fresh_two drawn_duel name))) fresh_two t' ∧
    (∀ name, length (processed_rows fresh_two drawn_duel name) = 1%nat →
       get2_default (player_playlist_games t') name "Head to Head" 0
       = get2_default (player_playlist_games fresh_two) name "Head to Head" 0 + 1).
Proof.
  apply (tie_neutrality sample_config fresh_two drawn_duel "Head to Head").
  - exact fresh_two_wf.
  - reflexivity.
  - discriminate.
  - exact drawn_duel_tie.
Defined.

(** *** The winner written to the match log *)

(** C5, as stated, fails on the Head to Head log: Ace, on Red, wins 15 to
    7 and the recorded winner is "Ace", not "Red". *)
Lemma head_to_head_winner_is_a_name :
  MatchLog.recorded_winner PLAYLIST_HEAD_TO_HEAD (MatchLog.get_display_name ∅ ∅) ace_wins
    = "Ace" ∧
  ¬ winner_agrees PLAYLIST_HEAD_TO_HEAD (MatchLog.get_display_name ∅ ∅) ace_wins.
Proof.
  split; [vm_compute; reflexivity|].
  intros (Hred & _). unfold winner_agrees in *.
  assert (H : MatchLog.recorded_winner PLAYLIST_HEAD_TO_HEAD
                (MatchLog.get_display_name ∅ ∅) ace_wins = "Red").
  { apply Hred. vm_compute. reflexivity. }
  vm_compute in H. discriminate.
Qed.

(** Where the players are shown under a Discord name, the test "a winner
    is in the red team" compares in-game names with Discord names: Red wins
    50 to 30 and the recorded winner is "Blue". *)
Lemma display_names_hide_red_winner :
  determine_winners_losers red_wins_doubles = (["Ace"; "Bolt"], ["Cat"; "Dan"]) ∧
  MatchLog.recorded_winner PLAYLIST_DOUBLE_TEAM
    (MatchLog.get_display_name linked_ids linked_rankstats) red_wins_doubles = "Blue".
Proof. split; vm_compute; reflexivity. Qed.

Lemma filter_iff_in {A} (P1 P2 : A → Prop) `{!∀ x, Decision (P1 x), !∀ x, Decision (P2 x)}
    (l : list A) :
  (∀ x, x ∈ l → P1 x ↔ P2 x) → filter P1 l = filter P2 l.
Proof.
  induction l as [|a l IH]; intros Hall; [done|].
  rewrite !filter_cons.
  assert (Ha : P1 a ↔ P2 a) by (apply Hall; left).
  rewrite IH by (intros x Hx; apply Hall; by right).
  destruct (decide (P1 a)), (decide (P2 a)); tauto.
Qed.

Lemma log_rows_stripped (g : game) (team : string) :
  (∀ p, p ∈ g_players g → Py.strip (p_team p) = p_team p) →
  MatchLog.log_rows g team = rows_on team (g_players g).
Proof.
  intros Hs. unfold MatchLog.log_rows, rows_on. apply filter_iff_in.
  intros p Hp. rewrite on_team_eq, (Hs p Hp). done.
Qed.

Lemma existsb_elem_of {A} (f : A → bool) (l : list A) :
  existsb f l = true ↔ ∃ x, x ∈ l ∧ f x = true.
Proof.
  rewrite existsb_exists. split; intros (x & Hx & Hf); exists x;
    (split; [by apply list_elem_of_In|done]).
Qed.

(** C5 as amended, X28. In the log of a team playlist (any playlist but Head
    to Head), for a match whose team cells are stored stripped, where the
    red players are shown under their in-game names and no blue player
    bears the name of a red one: when both teams have rows the recorded
    winner is Red, Blue or Tie exactly by the comparison of the engine's
    team scores, and when a team has no rows it is Tie.  In the Head to
    Head log the field holds the in-game name of the first winner, or Tie
    when the engine names no winner. *)
Theorem recorded_winner_by_scores (playlist_name : string) (display : string → string)
    (g : game) :
  (∀ p, p ∈ g_players g → Py.strip (p_team p) = p_team p) →
  (∀ p, p ∈ g_players g → p_team p = "Red" → display (p_name p) = p_name p) →
  (∀ p r, p ∈ g_players g → r ∈ g_players g →
          p_team p = "Blue" → p_team r = "Red" → p_name p ≠ p_name r) →
  (playlist_name ≠ PLAYLIST_HEAD_TO_HEAD → has_team g "Red" → has_team g "Blue" →
     winner_agrees playlist_name display g) ∧
  (playlist_name ≠ PLAYLIST_HEAD_TO_HEAD → ¬ (has_team g "Red" ∧ has_team g "Blue") →
     MatchLog.recorded_winner playlist_name display g = "Tie") ∧
  (playlist_name = PLAYLIST_HEAD_TO_HEAD →
     MatchLog.recorded_winner playlist_name display g
     = default "Tie" (head (determine_winners_losers g).1)).
Proof.
  intros Hstrip Hshow Hnames.
  assert (Hred : display <$> (p_name <$> MatchLog.log_rows g "Red") = team_names g "Red").
  { rewrite (log_rows_stripped g "Red" Hstrip). unfold team_names.
    fold (rows_on "Red" (g_players g)).
    rewrite <- list_fmap_compose. apply list_fmap_ext. intros i p Hp. simpl.
    apply list_elem_of_lookup_2 in Hp. unfold rows_on in Hp.
    apply list_elem_of_filter in Hp as [Hon Hin]. apply Hshow; [done|].
    apply on_team_eq in Hon. by rewrite <- (Hstrip p Hin). }
  assert (Hmember : ∀ team n, n ∈ team_names g team →
            ∃ p, p ∈ g_players g ∧ p_team p = team ∧ p_name p = n).
  { intros team n Hn. unfold team_names in Hn.
    apply list_elem_of_fmap in Hn as (p & -> & Hp).
    apply list_elem_of_filter in Hp as [Hon Hin].
    exists p. split; [done|]. split; [|done].
    apply on_team_eq in Hon. by rewrite <- (Hstrip p Hin). }
  assert (Hne : ∀ team, has_team g team → team_names g team ≠ []).
  { intros team Hhas. unfold has_team, rows_on in Hhas. unfold team_names.
    by destruct (filter _ (g_players g)). }
  split; [|split].
  - intros Hpl HR HB. unfold winner_agrees, MatchLog.recorded_winner.
    rewrite (proj2 (String.eqb_neq _ _) Hpl).
    unfold MatchLog.winner_team. rewrite engine_outcome, Hred.
    rewrite bool_decide_eq_true_2 by done.
    destruct (Z.ltb_spec (team_score g "Blue") (team_score g "Red")) as [Hlt|Hge].
    + assert (He : existsb (λ p, mem p (team_names g "Red")) (team_names g "Red") = true).
      { apply existsb_elem_of. specialize (Hne "Red" HR).
        destruct (team_names g "Red") as [|n ns]; [done|].
        exists n. split; [left|]. unfold mem. apply bool_decide_eq_true. left. }
      rewrite He. split_and!; split; intros H; try done; try lia.
    + destruct (Z.ltb_spec (team_score g "Red") (team_score g "Blue")) as [Hlt|Hge'].
      * assert (He : existsb (λ p, mem p (team_names g "Red")) (team_names g "Blue") = false).
        { apply not_true_is_false. intros He. apply existsb_elem_of in He as (n & Hn & Hm).
          unfold mem in Hm. apply bool_decide_eq_true in Hm.
          destruct (Hmember "Blue" n Hn) as (p & Hp & Hpt & Hpn).
          destruct (Hmember "Red" n Hm) as (r & Hr & Hrt & Hrn).
          apply (Hnames p r Hp Hr Hpt Hrt). congruence. }
        rewrite He. rewrite bool_decide_eq_false_2 by (by apply Hne). simpl.
        split_and!; split; intros H; try done; try lia.
      * simpl. split_and!; split; intros H; try done; try lia.
  - intros Hpl Hno. unfold MatchLog.recorded_winner.
    rewrite (proj2 (String.eqb_neq _ _) Hpl).
    unfold MatchLog.winner_team. rewrite engine_outcome.
    by rewrite bool_decide_eq_false_2.
  - intros ->. unfold MatchLog.recorded_winner. simpl.
    by destruct ((determine_winners_losers g).1).
Qed.

Ltac each_row H :=
  repeat (apply elem_of_cons in H as [->|H]); [..|by apply elem_of_nil in H].

Lemma recorded_winner_by_scores_witness :
  winner_agrees PLAYLIST_DOUBLE_TEAM (MatchLog.get_display_name ∅ ∅) red_wins_doubles ∧
  MatchLog.recorded_winner PLAYLIST_DOUBLE_TEAM (MatchLog.get_display_name ∅ ∅)
    red_wins_doubles = "Red".
Proof.
  split; [|vm_compute; reflexivity].
  apply (recorded_winner_by_scores PLAYLIST_DOUBLE_TEAM (MatchLog.get_display_name ∅ ∅)
           red_wins_doubles).
  - intros p Hp. each_row Hp; reflexivity.
  - intros p Hp. each_row Hp; reflexivity.
  - intros p r Hp Hr. each_row Hp; each_row Hr; vm_compute; congruence.
  - discriminate.
  - vm_compute. discriminate.
  - vm_compute. discriminate.
Defined.

(** *** Aliases *)

(** C7, at the failing input. One person wins two head-to-head matches
    under the names Ace and Bolt; the first run gives the identity 200 XP,
    2 wins and 2 games, 100 XP from each name. A third match of two other
    players arrives and the next run is incremental: it seeds both names
    with the identity's saved standing and step 4 adds them up, so the
    identity ends with 400 XP, 4 wins and 4 games without having played.
    A forced rebuild over the same three matches gives 200 XP. *)
Theorem incremental_run_recounts_aliases (py_hash : string → Z)
    (get_manual_playlists_hash : manual → string) :
  let first := Session.first_run py_hash get_manual_playlists_hash in
  let second := Session.second_run py_hash get_manual_playlists_hash in
  let forced := Session.forced_run py_hash get_manual_playlists_hash in
  let won (n : Z) (rank : Z) :=
    {| st_xp := 100 * n; st_rank := rank; st_highest_rank := 2; st_wins := n;
       st_losses := 0; st_games := n |} in
  standing_of first "210187331066396672" "Head to Head" = Some (won 2 3) ∧
  alias_xp first "Ace" "Head to Head" = Some 100 ∧
  alias_xp first "Bolt" "Head to Head" = Some 100 ∧
  (pl_incremental <$> Session.second_plan py_hash get_manual_playlists_hash) = Some true ∧
  (pl_new_files <$> Session.second_plan py_hash get_manual_playlists_hash)
    = Some ["20251208_200000.xlsx"] ∧
  alias_xp second "Ace" "Head to Head" = Some 200 ∧
  alias_xp second "Bolt" "Head to Head" = Some 200 ∧
  standing_of second "210187331066396672" "Head to Head" = Some (won 4 4) ∧
  standing_of forced "210187331066396672" "Head to Head" = Some (won 2 3).
Proof. vm_compute. done. Qed.

(** *** Step 4: the consolidation of aliases *)

Lemma group_fold (ids : gmap string string) (l : list string)
    (m m' : gmap string (list string)) :
  foldlM (λ (m : gmap string (list string)) player_name,
            user_id ← ids !! player_name;
            Some (<[user_id := default [] (m !! user_id) ++ [player_name]]> m)) m l = Some m' →
  ∀ u, m' !! u = match filter (λ n, ids !! n = Some u) l with
                 | [] => m !! u
                 | ns => Some (default [] (m !! u) ++ ns)
                 end.
Proof.
  revert m. induction l as [|x l IH]; intros m Hf u; simpl in Hf.
  - by simplify_eq.
  - destruct (ids !! x) as [ux|] eqn:Hx; [|done]. simpl in Hf.
    rewrite (IH _ Hf u). rewrite filter_cons.
    case_decide as Hd.
    + assert (ux = u) as -> by congruence.
      rewrite lookup_insert_eq. simpl.
      destruct (filter _ l); simpl; [done|]. by rewrite <- app_assoc.
    + rewrite lookup_insert_ne by congruence. done.
Qed.

Lemma group_names_lookup (r : registry) (groups : gmap string (list string)) :
  Steps.group_names r = Some groups →
  ∀ u, groups !! u = match aliases r u with [] => None | ns => Some ns end.
Proof.
  intros Hg u. unfold Steps.group_names in Hg.
  rewrite (group_fold _ _ _ _ Hg u). rewrite lookup_empty. done.
Qed.

Lemma group_fold_is_Some (ids : gmap string string) (l : list string)
    (m : gmap string (list string)) :
  (∀ n, n ∈ l → is_Some (ids !! n)) →
  is_Some (foldlM (λ (m : gmap string (list string)) player_name,
            user_id ← ids !! player_name;
            Some (<[user_id := default [] (m !! user_id) ++ [player_name]]> m)) m l).
Proof.
  revert m. induction l as [|x l IH]; intros m Hall; simpl; [eauto|].
  destruct (Hall x) as [ux Hx]; [left|]. rewrite Hx. simpl.
  apply IH. intros n Hn. apply Hall. by right.
Qed.

Lemma consolidate_fold (cfg : xp_config) (players : gmap string string) (t : tracking)
    (l : list (string * list string)) (rs : gmap string rank_entry) (u : string) :
  NoDup l.*1 →
  foldl (λ rs '(user_id, player_names),
           Steps.consolidate_user cfg players t rs user_id player_names) rs l !! u
  = match (list_to_map l : gmap string (list string)) !! u with
    | Some ns => Some (Steps.consolidate_entry cfg players t (rs !! u) u ns)
    | None => rs !! u
    end.
Proof.
  revert rs. induction l as [|[k ns] l IH]; intros rs Hnd; simpl.
  - by rewrite lookup_empty.
  - apply NoDup_cons in Hnd as [Hk Hnd]. rewrite (IH _ Hnd).
    unfold Steps.consolidate_user.
    destruct (decide (k = u)) as [->|Hne].
    + rewrite lookup_insert_eq.
      rewrite (not_elem_of_list_to_map_1 _ _ Hk). by rewrite lookup_insert_eq.
    + rewrite !lookup_insert_ne by done. done.
Qed.

(** What step 4 leaves under an identity: the entry built from its names,
    or the entry it had when no name maps to it. *)
Lemma consolidate_lookup (cfg : xp_config) (players : gmap string string) (r : registry)
    (rs : gmap string rank_entry) (u : string) :
  Steps.consolidate cfg players r = Some rs →
  rs !! u = match aliases r u with
            | [] => rankstats r !! u
            | ns => Some (Steps.consolidate_entry cfg players (tr r) (rankstats r !! u) u ns)
            end.
Proof.
  unfold Steps.consolidate. intros Hc.
  destruct (Steps.group_names r) as [groups|] eqn:Hg; [|done]. simpl in Hc.
  injection Hc as <-.
  rewrite consolidate_fold by apply NoDup_fst_map_to_list.
  rewrite list_to_map_to_list, (group_names_lookup r groups Hg u).
  by destruct (aliases r u).
Qed.

Lemma all_playlists_spec (t : tracking) (names : list string) (q : string) :
  q ∈ Steps.all_playlists t names
  ↔ ∃ n, n ∈ names ∧ is_Some (get2 (player_playlist_xp t) n q).
Proof.
  unfold Steps.all_playlists. rewrite elem_of_union_list. split.
  - intros (X & HX & Hq). apply list_elem_of_fmap in HX as (n & -> & Hn).
    exists n. split; [done|]. unfold get2.
    destruct (player_playlist_xp t !! n) as [inner|]; simpl in *.
    + by apply elem_of_dom.
    + by apply elem_of_dom in Hq as [? ?].
  - intros (n & Hn & Hq). exists (dom (default ∅ (player_playlist_xp t !! n))).
    split; [apply list_elem_of_fmap; by exists n|].
    unfold get2 in Hq. destruct (player_playlist_xp t !! n) as [inner|]; simpl in *.
    + by apply elem_of_dom.
    + by destruct Hq.
Qed.

(** X1. Step 4 gives an identity that has names one entry, and in it, for
    every playlist that one of its names holds XP in, a standing whose XP,
    wins, losses and games are the sums of the accumulators of the
    identity's names, each name counted once, and whose rank is the rank of
    the summed XP. *)
Theorem consolidate_sums_aliases (cfg : xp_config) (players : gmap string string)
    (r : registry) (rs : gmap string rank_entry) (u : string) :
  Steps.consolidate cfg players r = Some rs →
  aliases r u ≠ [] →
  sums_aliases cfg r rs u.
Proof.
  intros Hc Hne. unfold sums_aliases. set (names := aliases r u).
  split; [apply NoDup_filter, NoDup_elements|].
  split.
  { intros n. unfold names, aliases. rewrite list_elem_of_filter, elem_of_elements. tauto. }
  pose proof (consolidate_lookup cfg players r rs u Hc) as Hl.
  assert (Hl' : rs !! u = Some (Steps.consolidate_entry cfg players (tr r)
                                  (rankstats r !! u) u names)).
  { rewrite Hl. unfold names. by destruct (aliases r u). }
  eexists. split; [exact Hl'|].
  intros q Hq. apply all_playlists_spec in Hq.
  unfold Steps.consolidate_entry.
  destruct (Steps.scan_playlists cfg (tr r) names (elements (Steps.all_playlists (tr r) names)))
    as [[overall primary] pxp]. simpl.
  exists (Steps.playlist_standing cfg (tr r) names q). split; [|done].
  apply lookup_set_to_map; [|by exists q].
  intros y y' _ _ Hy. exact Hy.
Qed.

Lemma consolidate_sums_aliases_witness :
  ∃ rs, Steps.consolidate sample_config ∅ two_names_played = Some rs ∧
    sums_aliases sample_config two_names_played rs "210187331066396672" ∧
    (rs !! "210187331066396672" ≫= λ e, re_playlists e !! "Head to Head")
    = Some {| st_xp := 200; st_rank := 3; st_highest_rank := 2; st_wins := 2;
              st_losses := 0; st_games := 2 |}.
Proof.
  exists (default ∅ (Steps.consolidate sample_config ∅ two_names_played)).
  split; [vm_compute; reflexivity|].
  split; [|vm_compute; reflexivity].
  apply (consolidate_sums_aliases sample_config ∅ two_names_played).
  - vm_compute. reflexivity.
  - vm_compute. discriminate.
Defined.

(** *** The restore loop of an incremental run *)

Lemma update2_lookup (d d' : ndict) (n : string) (new : gmap string Z) (n' : string) :
  update2 d n new = Some d' →
  d' !! n' = if decide (n' = n) then Some (new ∪ default ∅ (d !! n)) else d !! n'.
Proof.
  unfold update2. destruct (d !! n) as [inner|] eqn:Hin; [|done]. simpl.
  intros [= <-]. case_decide as Hd.
  - subst. by rewrite lookup_insert_eq.
  - by rewrite lookup_insert_ne.
Qed.

(** One visit of the restore loop: the six dicts of the name hold the
    saved standing, and no other name is touched. *)
Lemma restore_name_spec (t t' : tracking) (n : string) (state : saved_state) :
  Identity.restore_name t n state = Some t' →
  seeded t' n state ∧ ∀ n', n' ≠ n → same_dicts_at t t' n'.
Proof.
  unfold Identity.restore_name, seeded, same_dicts_at. intros H.
  set (t0 := match player_playlist_xp t !! n with Some _ => t | None => _ end) in H.
  assert (Hother : ∀ n', n' ≠ n →
     player_playlist_xp t0 !! n' = player_playlist_xp t !! n' ∧
     player_playlist_wins t0 !! n' = player_playlist_wins t !! n' ∧
     player_playlist_losses t0 !! n' = player_playlist_losses t !! n' ∧
     player_playlist_games t0 !! n' = player_playlist_games t !! n' ∧
     player_playlist_rank t0 !! n' = player_playlist_rank t !! n' ∧
     player_playlist_highest_rank t0 !! n' = player_playlist_highest_rank t !! n').
  { intros n' Hn'. unfold t0. destruct (player_playlist_xp t !! n); [done|].
    simpl. by rewrite !lookup_insert_ne. }
  clearbody t0.
  destruct (update2 (player_playlist_xp t0) _ _) as [xp|] eqn:Hxp; [|done].
  destruct (update2 (player_playlist_rank t0) _ _) as [rk|] eqn:Hrk; [|done].
  destruct (update2 (player_playlist_highest_rank t0) _ _) as [hi|] eqn:Hhi; [|done].
  destruct (update2 (player_playlist_wins t0) _ _) as [wi|] eqn:Hwi; [|done].
  destruct (update2 (player_playlist_losses t0) _ _) as [lo|] eqn:Hlo; [|done].
  destruct (update2 (player_playlist_games t0) _ _) as [ga|] eqn:Hga; [|done].
  simpl in H. injection H as <-. simpl.
  split.
  - intros q st Hq. unfold get2.
    rewrite (update2_lookup _ _ _ _ n Hxp), (update2_lookup _ _ _ _ n Hwi),
      (update2_lookup _ _ _ _ n Hlo), (update2_lookup _ _ _ _ n Hga),
      (update2_lookup _ _ _ _ n Hrk), (update2_lookup _ _ _ _ n Hhi).
    rewrite !decide_True by done. simpl.
    split_and!; apply lookup_union_Some_l; by rewrite lookup_fmap, Hq.
  - intros n' Hn'.
    rewrite (update2_lookup _ _ _ _ n' Hxp), (update2_lookup _ _ _ _ n' Hwi),
      (update2_lookup _ _ _ _ n' Hlo), (update2_lookup _ _ _ _ n' Hga),
      (update2_lookup _ _ _ _ n' Hrk), (update2_lookup _ _ _ _ n' Hhi).
    rewrite !decide_False by done. by apply Hother.
Qed.

Lemma same_dicts_at_seeded (t t' : tracking) (n : string) (state : saved_state) :
  same_dicts_at t t' n → seeded t n state → seeded t' n state.
Proof.
  intros (Hx & Hw & Hl & Hg & Hr & Hh) Hs q st Hq.
  specialize (Hs q st Hq). unfold get2 in *.
  by rewrite Hx, Hw, Hl, Hg, Hr, Hh.
Qed.

Lemma same_dicts_at_trans (t1 t2 t3 : tracking) (n : string) :
  same_dicts_at t1 t2 n → same_dicts_at t2 t3 n → same_dicts_at t1 t3 n.
Proof.
  intros (Hx & Hw & Hl & Hg & Hr & Hh) (Hx' & Hw' & Hl' & Hg' & Hr' & Hh').
  unfold same_dicts_at. by rewrite Hx', Hw', Hl', Hg', Hr', Hh'.
Qed.

Lemma restore_loop_other (saved : gmap string saved_state) (l : list (string * string))
    (t t' : tracking) (name : string) :
  name ∉ l.*1 →
  foldlM (λ t '(player_name, pid),
            match saved !! pid with
            | Some state => Identity.restore_name t player_name state
            | None => Some t
            end) t l = Some t' →
  same_dicts_at t t' name.
Proof.
  revert t. induction l as [|[n pid] l IH]; intros t Hnot Hf; simpl in Hf.
  - by simplify_eq.
  - apply not_elem_of_cons in Hnot as [Hne Hnot]. simpl in Hne.
    destruct (saved !! pid) as [state|].
    + destruct (Identity.restore_name t n state) as [t1|] eqn:H1; [|done]. simpl in Hf.
      apply (same_dicts_at_trans t t1 t').
      * by apply (restore_name_spec t t1 n state H1).
      * by apply IH.
    + simpl in Hf. by apply IH.
Qed.

Lemma restore_loop (saved : gmap string saved_state) (l : list (string * string))
    (t t' : tracking) (name u : string) (s : saved_state) :
  NoDup l.*1 → (name, u) ∈ l → saved !! u = Some s →
  foldlM (λ t '(player_name, pid),
            match saved !! pid with
            | Some state => Identity.restore_name t player_name state
            | None => Some t
            end) t l = Some t' →
  seeded t' name s.
Proof.
  revert t. induction l as [|[n pid] l IH]; intros t Hnd Hin Hs Hf; simpl in Hf.
  - by apply elem_of_nil in Hin.
  - apply NoDup_cons in Hnd as [Hn Hnd]. simpl in Hn.
    apply elem_of_cons in Hin as [Heq|Hin].
    + injection Heq as <- <-. rewrite Hs in Hf.
      destruct (Identity.restore_name t name s) as [t1|] eqn:H1; [|done]. simpl in Hf.
      apply (same_dicts_at_seeded t1 t').
      * by apply (restore_loop_other saved l).
      * by apply (restore_name_spec t t1 name s H1).
    + destruct (saved !! pid) as [state|].
      * destruct (Identity.restore_name t n state) as [t1|]; [|done]. simpl in Hf.
        by apply (IH t1).
      * simpl in Hf. by apply (IH t).
Qed.

(** One visit of the restore loop gives the name the overall figures of
    the snapshot and leaves the rows of the other names. *)
Lemma restore_name_stats (t t' : tracking) (n : string) (state : saved_state) (n' : string) :
  Identity.restore_name t n state = Some t' →
  player_game_stats t' !! n'
  = if decide (n' = n) then Some (saved_figures state) else player_game_stats t !! n'.
Proof.
  unfold Identity.restore_name. intros H.
  set (t0 := match player_playlist_xp t !! n with Some _ => t | None => _ end) in H.
  assert (Hstats : player_game_stats t0 = player_game_stats t).
  { unfold t0. by destruct (player_playlist_xp t !! n). }
  clearbody t0.
  destruct (update2 (player_playlist_xp t0) _ _) as [xp|]; [|done].
  destruct (update2 (player_playlist_rank t0) _ _) as [rk|]; [|done].
  destruct (update2 (player_playlist_highest_rank t0) _ _) as [hi|]; [|done].
  destruct (update2 (player_playlist_wins t0) _ _) as [wi|]; [|done].
  destruct (update2 (player_playlist_losses t0) _ _) as [lo|]; [|done].
  destruct (update2 (player_playlist_games t0) _ _) as [ga|]; [|done].
  simpl in H. injection H as <-. simpl. rewrite Hstats.
  case_decide as Hd.
  - subst. by rewrite lookup_insert_eq.
  - by rewrite lookup_insert_ne.
Qed.

Lemma restore_loop_stats_other (saved : gmap string saved_state)
    (l : list (string * string)) (t t' : tracking) (name : string) :
  name ∉ l.*1 →
  foldlM (λ t '(player_name, pid),
            match saved !! pid with
            | Some state => Identity.restore_name t player_name state
            | None => Some t
            end) t l = Some t' →
  player_game_stats t' !! name = player_game_stats t !! name.
Proof.
  revert t. induction l as [|[n pid] l IH]; intros t Hnot Hf; simpl in Hf.
  - by simplify_eq.
  - apply not_elem_of_cons in Hnot as [Hne Hnot]. simpl in Hne.
    destruct (saved !! pid) as [state|].
    + destruct (Identity.restore_name t n state) as [t1|] eqn:H1; [|done]. simpl in Hf.
      rewrite (IH t1 Hnot Hf), (restore_name_stats t t1 n state name H1).
      by rewrite decide_False.
    + simpl in Hf. by apply IH.
Qed.

Lemma restore_loop_stats (saved : gmap string saved_state) (l : list (string * string))
    (t t' : tracking) (name u : string) (s : saved_state) :
  NoDup l.*1 → (name, u) ∈ l → saved !! u = Some s →
  foldlM (λ t '(player_name, pid),
            match saved !! pid with
            | Some state => Identity.restore_name t player_name state
            | None => Some t
            end) t l = Some t' →
  player_game_stats t' !! name = Some (saved_figures s).
Proof.
  revert t. induction l as [|[n pid] l IH]; intros t Hnd Hin Hs Hf; simpl in Hf.
  - by apply elem_of_nil in Hin.
  - apply NoDup_cons in Hnd as [Hn Hnd]. simpl in Hn.
    apply elem_of_cons in Hin as [Heq|Hin].
    + injection Heq as <- <-. rewrite Hs in Hf.
      destruct (Identity.restore_name t name s) as [t1|] eqn:H1; [|done]. simpl in Hf.
      rewrite (restore_loop_stats_other saved l t1 t' name Hn Hf),
        (restore_name_stats t t1 name s name H1).
      by rewrite decide_True.
    + destruct (saved !! pid) as [state|].
      * destruct (Identity.restore_name t n state) as [t1|]; [|done]. simpl in Hf.
        by apply (IH t1).
      * simpl in Hf. by apply (IH t).
Qed.

(** X2. In an incremental run the restore loop gives to every in-game name
    that maps to an identity of the snapshot the whole saved standing of
    that identity, playlist by playlist (XP, rank, highest rank, wins,
    losses and games), and the identity's overall figures (kills, deaths,
    assists, head shots and games): two names of one identity both start
    from the identity's consolidated totals. *)
Theorem restore_seeds_every_alias (saved : gmap string saved_state) (r r' : registry)
    (name u : string) (s : saved_state) :
  Identity.restore true saved r = Some r' →
  player_to_id r !! name = Some u → saved !! u = Some s →
  seeded (tr r') name s ∧
  player_game_stats (tr r') !! name = Some (saved_figures s).
Proof.
  unfold Identity.restore. intros Hr Hid Hs.
  assert (Hne : nonempty_dict saved = true).
  { unfold nonempty_dict. apply negb_true_iff, bool_decide_eq_false.
    intros ->. by rewrite lookup_empty in Hs. }
  rewrite Hne in Hr. simpl in Hr.
  destruct (foldlM _ (tr r) (map_to_list (player_to_id r))) as [t|] eqn:Hf; [|done].
  simpl in Hr. injection Hr as <-. simpl. split.
  - apply (restore_loop saved (map_to_list (player_to_id r)) (tr r) t name u s);
      [apply NoDup_fst_map_to_list|by apply elem_of_map_to_list|done|done].
  - apply (restore_loop_stats saved (map_to_list (player_to_id r)) (tr r) t name u s);
      [apply NoDup_fst_map_to_list|by apply elem_of_map_to_list|done|done].
Qed.

Lemma restore_seeds_every_alias_witness :
  ∃ r', Identity.restore true {[ "210187331066396672" := two_wins ]} two_names = Some r' ∧
    (seeded (tr r') "Ace" two_wins ∧
     player_game_stats (tr r') !! "Ace" = Some (saved_figures two_wins)) ∧
    (seeded (tr r') "Bolt" two_wins ∧
     player_game_stats (tr r') !! "Bolt" = Some (saved_figures two_wins)).
Proof.
  exists (default two_names
            (Identity.restore true {[ "210187331066396672" := two_wins ]} two_names)).
  split; [vm_compute; reflexivity|].
  split.
  - apply (restore_seeds_every_alias {[ "210187331066396672" := two_wins ]} two_names _
             "Ace" "210187331066396672" two_wins); vm_compute; reflexivity.
  - apply (restore_seeds_every_alias {[ "210187331066396672" := two_wins ]} two_names _
             "Bolt" "210187331066396672" two_wins); vm_compute; reflexivity.
Defined.

(** *** The identification of the players *)

Lemma identify_player_fresh (py_hash : string → Z) (saved : gmap string saved_state)
    (macs ident : gmap string string) (r : registry) (p : player) :
  fresh_registry r →
  fresh_registry (Identity.identify_player py_hash false saved macs ident r p).
Proof.
  intros [Hids (S & HS & Hx & Hw & Hl & Hg)]. unfold Identity.identify_player.
  destruct (is_dedicated_server (p_name p)); [by split; eauto 10|].
  assert (Htr : ∀ uid, ∃ S' : gset string, S' ⊆ {[p_name p]} ∪ all_player_names r ∧
    player_playlist_xp (Identity.first_tracking false saved (tr r) (p_name p) uid)
      = gset_to_gmap ∅ S' ∧
    player_playlist_wins (Identity.first_tracking false saved (tr r) (p_name p) uid)
      = gset_to_gmap ∅ S' ∧
    player_playlist_losses (Identity.first_tracking false saved (tr r) (p_name p) uid)
      = gset_to_gmap ∅ S' ∧
    player_playlist_games (Identity.first_tracking false saved (tr r) (p_name p) uid)
      = gset_to_gmap ∅ S').
  { intros uid. unfold Identity.first_tracking.
    destruct (player_game_stats (tr r) !! p_name p).
    - exists S. split; [set_solver|done].
    - exists ({[p_name p]} ∪ S). split; [set_solver|]. simpl.
      rewrite Hx, Hw, Hl, Hg. by rewrite !gset_to_gmap_union_singleton. }
  destruct (player_to_id r !! p_name p) as [u|] eqn:Hu.
  - split; simpl.
    + intros n Hn. apply elem_of_union in Hn as [Hn|Hn]; [|by apply Hids].
      apply elem_of_singleton in Hn as ->. by rewrite Hu.
    + exists S. split; [set_solver|done].
  - destruct (truthy_id _) as [u|]; split; simpl; try apply Htr.
    + intros n Hn. destruct (decide (n = p_name p)) as [->|Hne].
      * rewrite lookup_insert_eq. eauto.
      * rewrite lookup_insert_ne by done. apply Hids. set_solver.
    + intros n Hn. destruct (decide (n = p_name p)) as [->|Hne].
      * rewrite lookup_insert_eq. eauto.
      * rewrite lookup_insert_ne by done. apply Hids. set_solver.
Qed.

Lemma identify_fresh (py_hash : string → Z) (saved : gmap string saved_state)
    (macs : gmap string string) (games : list game) (r : registry) :
  fresh_registry r →
  fresh_registry (Identity.identify py_hash false saved macs r games).
Proof.
  unfold Identity.identify. revert r.
  induction games as [|g games IH]; intros r Hr; simpl; [done|].
  apply IH. unfold Identity.identify_game.
  generalize (g_players g). intros ps. revert r Hr.
  induction ps as [|p ps IHp]; intros r Hr; simpl; [done|].
  apply IHp. by apply identify_player_fresh.
Qed.

Lemma sumZ_nonneg (l : list Z) : (∀ v, v ∈ l → 0 ≤ v) → 0 ≤ sumZ l.
Proof.
  unfold sumZ. induction l as [|v l IH]; intros H; simpl; [lia|].
  assert (0 ≤ v) by (apply H; left).
  assert (0 ≤ foldr Z.add 0 l) by (apply IH; intros w Hw; apply H; by right).
  lia.
Qed.

Lemma fresh_tracking_wf (r : registry) (saved : gmap string saved_state) :
  fresh_registry r →
  tracking_wf (tr (Identity.with_start_ranks false saved r))
  ∧ xp_nonneg (tr (Identity.with_start_ranks false saved r)).
Proof.
  intros [_ (S & HS & Hx & Hw & Hl & Hg)].
  assert (Hcov : ∀ field,
    covers (shape (Identity.start_ranks false saved field r)) (shape (gset_to_gmap ∅ S))).
  { intros field n s Hn. unfold shape in Hn. rewrite lookup_fmap in Hn.
    rewrite lookup_gset_to_gmap in Hn.
    destruct (guard (n ∈ S)) as [Hin|] eqn:Hguard; [|done].
    simpl in Hn. injection Hn as <-.
    assert (Hlook : Identity.start_ranks false saved field r !! n = Some ∅).
    { unfold Identity.start_ranks. apply lookup_set_to_map.
      - intros y y' _ _ Hy. exact Hy.
      - exists n. split; [by apply HS|done]. }
    exists (dom (∅ : gmap string Z)). split; [|done].
    unfold shape. by rewrite lookup_fmap, Hlook. }
  split.
  - unfold tracking_wf. simpl. rewrite Hx, Hw, Hl, Hg. split_and!; try done; apply Hcov.
  - intros n q v. simpl. rewrite Hx. unfold get2. rewrite lookup_gset_to_gmap.
    destruct (guard (n ∈ S)); simpl; [by rewrite lookup_empty|done].
Qed.

Lemma bind_Some_l {A B} (x : A) (f : A → option B) : Some x ≫= f = f x.
Proof. reflexivity. Qed.

(** X3. In a run that is not incremental (a full rebuild, or the first
    run) that gets from the parsed matches to the consolidated standings
    without raising, whatever the matches, the registry and the hash are,
    when a win never costs XP: every name seen has an identity, and every
    per-playlist standing of an identity with names holds XP of at least 0
    and a rank from 1 to 50. *)
Theorem full_rebuild_standings_sound (py_hash : string → Z)
    (get_manual_playlists_hash : manual → string) (cfg : xp_config)
    (manual_playlists : manual) (pl : plan) (i : run_input) (out : run_output) :
  wins_never_cost cfg → pl_incremental pl = false →
  Main.run py_hash get_manual_playlists_hash cfg manual_playlists pl i = Some out →
  (∀ n, n ∈ all_player_names (out_registry out) →
        is_Some (player_to_id (out_registry out) !! n)) ∧
  ∀ u e q s, aliases (out_registry out) u ≠ [] →
    out_rankstats out !! u = Some e → re_playlists e !! q = Some s →
    0 ≤ st_xp s ∧ 1 ≤ st_rank s ≤ 50.
Proof.
  intros Hcfg Hinc Hrun. unfold Main.run in Hrun. rewrite Hinc in Hrun. cbv zeta in Hrun.
  set (r0 := {| all_player_names := ∅; player_to_id := ∅;
                rankstats := Steps.step1 false ∅ (in_rankstats i);
                tr := empty_tracking |}) in *.
  assert (Hr0 : fresh_registry r0).
  { split; [set_solver|]. exists ∅. split; [done|].
    by rewrite gset_to_gmap_empty. }
  pose proof (identify_fresh py_hash ∅ (in_mac_to_discord i) (in_games i) r0 Hr0) as Hr1.
  set (r1 := Identity.identify py_hash false ∅ (in_mac_to_discord i) r0 (in_games i)) in *.
  destruct (fresh_tracking_wf r1 ∅ Hr1) as [Hwf Hnn].
  set (r2 := Identity.with_start_ranks false ∅ r1) in *.
  set (games := Steps.games_to_process false (pl_new_files pl) (in_games i)) in *.
  change (Identity.restore false ∅ r2) with (Some r2) in Hrun.
  rewrite bind_Some_l in Hrun.
  destruct (Replay.replay cfg (Steps.step3a (tr r2) games) games) as [t'|] eqn:Ht';
    [|done].
  rewrite bind_Some_l in Hrun.
  assert (Hst : tracking_wf (Steps.step3a (tr r2) games)
                ∧ xp_nonneg (Steps.step3a (tr r2) games)) by done.
  destruct (replay_nonneg cfg _ t' games Hcfg Hst Ht') as [Hwf' Hnn'].
  set (r3 := {| all_player_names := all_player_names r2; player_to_id := player_to_id r2;
                rankstats := rankstats r2; tr := t' |}) in *.
  destruct Hr1 as [Hids _].
  destruct (Steps.consolidate cfg (in_players i) r3) as [rs|] eqn:Hrs; [|done].
  rewrite bind_Some_l in Hrun. injection Hrun as <-.
  cbn [out_registry out_rankstats].
  split; [exact Hids|].
  intros u e q s Hne He Hq.
  pose proof (consolidate_lookup cfg (in_players i) r3 rs u Hrs) as Hl.
  rewrite He in Hl.
  destruct (aliases r3 u) as [|n0 ns] eqn:Hal; [done|]. injection Hl as ->.
  unfold Steps.consolidate_entry in Hq.
  destruct (Steps.scan_playlists _ _ _ _) as [[overall primary] pxp]. simpl in Hq.
  apply lookup_set_to_map in Hq as (q' & _ & Hq'); [|intros y y' _ _ Hy; exact Hy].
  injection Hq' as -> <-. unfold Steps.playlist_standing. cbn [st_xp st_rank].
  split; [|apply calculate_rank_range].
  apply sumZ_nonneg. intros v Hv.
  apply list_elem_of_fmap in Hv as (n & -> & _).
  by apply get2_default_nonneg.
Qed.

Lemma full_rebuild_standings_sound_witness :
  ∃ out, Main.run (λ _, 0) (λ _, "md5") sample_config session_overrides
           (forced_plan alias_games) (session_input alias_games) = Some out ∧
    (∀ n, n ∈ all_player_names (out_registry out) →
          is_Some (player_to_id (out_registry out) !! n)) ∧
    ∀ u e q s, aliases (out_registry out) u ≠ [] →
      out_rankstats out !! u = Some e → re_playlists e !! q = Some s →
      0 ≤ st_xp s ∧ 1 ≤ st_rank s ≤ 50.
Proof.
  exists (default {| out_rankstats := ∅;
                     out_registry := {| all_player_names := ∅; player_to_id := ∅;
                                        rankstats := ∅; tr := empty_tracking |};
                     out_processed := empty_processed_state |}
            (Main.run (λ _, 0) (λ _, "md5") sample_config session_overrides
               (forced_plan alias_games) (session_input alias_games))).
  assert (Hrun : Main.run (λ _, 0) (λ _, "md5") sample_config session_overrides
                   (forced_plan alias_games) (session_input alias_games)
                 = Some (default {| out_rankstats := ∅;
                     out_registry := {| all_player_names := ∅; player_to_id := ∅;
                                        rankstats := ∅; tr := empty_tracking |};
                     out_processed := empty_processed_state |}
            (Main.run (λ _, 0) (λ _, "md5") sample_config session_overrides
               (forced_plan alias_games) (session_input alias_games))))
    by (vm_compute; reflexivity).
  split; [exact Hrun|].
  exact (full_rebuild_standings_sound (λ _, 0) (λ _, "md5") sample_config session_overrides
           (forced_plan alias_games) (session_input alias_games) _
           sample_wins_never_cost eq_refl Hrun).
Defined.

(** *** MAC addresses *)

Ltac each_ascii a := destruct a as [[] [] [] [] [] [] [] []].

Lemma remove_separators (s : string) :
  PyStr.remove " " (PyStr.remove "-" (PyStr.remove ":" s)) = without_separators s.
Proof.
  induction s as [|a s IH]; [done|]. simpl. unfold is_separator.
  destruct (Ascii.eqb a ":") eqn:E1; simpl; [done|].
  destruct (Ascii.eqb a "-") eqn:E2; simpl; [done|].
  destruct (Ascii.eqb a " ") eqn:E3; simpl; [done|].
  by rewrite IH.
Qed.

Lemma normalize_mac_eq (mac : string) :
  normalize_mac mac = Py.lower (without_separators mac).
Proof.
  unfold normalize_mac. rewrite remove_separators.
  by destruct mac.
Qed.

Lemma lower_ascii_separator (a : ascii) :
  is_separator (Py.lower_ascii a) = is_separator a.
Proof. each_ascii a; reflexivity. Qed.

Lemma lower_ascii_idemp (a : ascii) : Py.lower_ascii (Py.lower_ascii a) = Py.lower_ascii a.
Proof. each_ascii a; reflexivity. Qed.

Lemma lower_upper_ascii (a : ascii) : Py.lower_ascii (PyStr.upper_ascii a) = Py.lower_ascii a.
Proof. each_ascii a; reflexivity. Qed.

Lemma upper_ascii_separator (a : ascii) :
  is_separator (PyStr.upper_ascii a) = is_separator a.
Proof. each_ascii a; reflexivity. Qed.

Lemma without_separators_lower (s : string) :
  without_separators (Py.lower s) = Py.lower (without_separators s).
Proof.
  induction s as [|a s IH]; [done|]. simpl. rewrite lower_ascii_separator.
  destruct (is_separator a); simpl; by rewrite IH.
Qed.

Lemma without_separators_upper (s : string) :
  without_separators (PyStr.upper s) = PyStr.upper (without_separators s).
Proof.
  induction s as [|a s IH]; [done|]. simpl. rewrite upper_ascii_separator.
  destruct (is_separator a); simpl; by rewrite IH.
Qed.

Lemma without_separators_idemp (s : string) :
  without_separators (without_separators s) = without_separators s.
Proof.
  induction s as [|a s IH]; [done|]. simpl.
  destruct (is_separator a) eqn:E; simpl; [done|]. by rewrite E, IH.
Qed.

Lemma lower_idemp (s : string) : Py.lower (Py.lower s) = Py.lower s.
Proof. induction s as [|a s IH]; [done|]. simpl. by rewrite lower_ascii_idemp, IH. Qed.

Lemma lower_upper (s : string) : Py.lower (PyStr.upper s) = Py.lower s.
Proof. induction s as [|a s IH]; [done|]. simpl. by rewrite lower_upper_ascii, IH. Qed.

Lemma without_separators_chars (s : string) (a : ascii) :
  a ∈ list_ascii_of_string (without_separators s) →
  is_separator a = false ∧ a ∈ list_ascii_of_string s.
Proof.
  induction s as [|b s IH]; simpl; [by intros ?%elem_of_nil|].
  destruct (is_separator b) eqn:E; simpl.
  - intros H. destruct (IH H). split; [done|by right].
  - intros [->|H]%elem_of_cons; [split; [done|left]|].
    destruct (IH H). split; [done|by right].
Qed.

Lemma lower_chars (s : string) (a : ascii) :
  a ∈ list_ascii_of_string (Py.lower s) →
  ∃ b, b ∈ list_ascii_of_string s ∧ a = Py.lower_ascii b.
Proof.
  induction s as [|b s IH]; simpl; [by intros ?%elem_of_nil|].
  intros [->|H]%elem_of_cons; [exists b; split; [left|done]|].
  destruct (IH H) as (c & Hc & ->). exists c. split; [by right|done].
Qed.

Lemma normalize_mac_idemp (mac : string) :
  normalize_mac (normalize_mac mac) = normalize_mac mac.
Proof.
  rewrite !normalize_mac_eq.
  by rewrite without_separators_lower, without_separators_idemp, lower_idemp.
Qed.

(** X4. [normalize_mac] gives a canonical form: normalising twice is
    normalising once, and the result holds no colon, dash or space and no
    upper-case ASCII letter. *)
Theorem normalize_mac_canonical (mac : string) :
  normalize_mac (normalize_mac mac) = normalize_mac mac ∧
  ∀ a, a ∈ list_ascii_of_string (normalize_mac mac) →
    a ≠ ":"%char ∧ a ≠ "-"%char ∧ a ≠ " "%char ∧ Py.lower_ascii a = a.
Proof.
  split; [apply normalize_mac_idemp|]. rewrite normalize_mac_eq.
  intros a Ha. rewrite <- without_separators_lower in Ha.
  apply without_separators_chars in Ha as [Hsep Ha].
  apply lower_chars in Ha as (b & _ & ->).
  rewrite lower_ascii_idemp. split_and!; try done; intros Hb; rewrite Hb in Hsep; done.
Qed.

Lemma without_separators_app (s1 s2 : string) :
  without_separators (s1 ++ s2) = (without_separators s1 ++ without_separators s2)%string.
Proof.
  induction s1 as [|a s1 IH]; [done|]. simpl.
  destruct (is_separator a); simpl; by rewrite IH.
Qed.

Lemma without_separators_replace (s : string) :
  without_separators (PyStr.remove " " (PyStr.replace_char "-" ":" s))
  = without_separators s.
Proof.
  induction s as [|a s IH]; [done|].
  each_ascii a; simpl; by rewrite ?IH.
Qed.

Lemma without_separators_pairs (s : string) :
  String.length s = 12%nat →
  without_separators
    (PyStr.join ":" ((λ i, String.substring i 2 s) <$> [0; 2; 4; 6; 8; 10]%nat))
  = without_separators s.
Proof.
  intros Hlen.
  assert (Hs : s = (String.substring 0 2 s ++ String.substring 2 2 s
                    ++ String.substring 4 2 s ++ String.substring 6 2 s
                    ++ String.substring 8 2 s ++ String.substring 10 2 s)%string).
  { do 12 (destruct s as [|? s]; [discriminate|]). by destruct s. }
  simpl.
  remember (String.substring 0 2 s) as p1. remember (String.substring 2 2 s) as p2.
  remember (String.substring 4 2 s) as p3. remember (String.substring 6 2 s) as p4.
  remember (String.substring 8 2 s) as p5. remember (String.substring 10 2 s) as p6.
  rewrite Hs. rewrite !without_separators_app. simpl. done.
Qed.

Lemma blanks_only_tail (a : ascii) (s : string) :
  blanks_only (String a s) → blanks_only s.
Proof. intros H b Hb. apply H. simpl. by right. Qed.

Lemma without_separators_lstrip (s : string) :
  blanks_only s → without_separators (Py.lstrip s) = without_separators s.
Proof.
  induction s as [|a s IH]; intros Hb; [done|]. simpl.
  destruct (Py.is_space a) eqn:E; [|done].
  rewrite (Hb a) by (done || simpl; left). simpl.
  apply IH. by eapply blanks_only_tail.
Qed.

Lemma without_separators_rstrip (s : string) :
  blanks_only s → without_separators (Py.rstrip s) = without_separators s.
Proof.
  induction s as [|a s IH]; intros Hb; [done|]. simpl.
  specialize (IH (blanks_only_tail a s Hb)).
  destruct (Py.rstrip s) as [|b r] eqn:Hr.
  - simpl in IH. destruct (Py.is_space a) eqn:E.
    + rewrite (Hb a) by (done || simpl; left). simpl. done.
    + simpl. by rewrite <- IH.
  - change (without_separators (String a (String b r)))
      with (if is_separator a then without_separators (String b r)
            else String a (without_separators (String b r))).
    by rewrite IH.
Qed.

Lemma blanks_only_lstrip (s : string) : blanks_only s → blanks_only (Py.lstrip s).
Proof.
  induction s as [|a s IH]; intros Hb; [done|]. simpl.
  destruct (Py.is_space a); [|done]. apply IH. by eapply blanks_only_tail.
Qed.

(** X5. The address that [/linkmac] stores and the address as typed
    normalise to the same key of the stats side, for an address typed in
    ASCII characters whose only white space is the space character. *)
Theorem linked_mac_same_key (mac_address : string) :
  PyStr.is_ascii mac_address = true →
  blanks_only mac_address →
  normalize_mac (Commands.clean_mac mac_address) = normalize_mac mac_address.
Proof.
  intros _ Hb. rewrite !normalize_mac_eq. unfold Commands.clean_mac.
  set (c := PyStr.remove " " (PyStr.replace_char "-" ":" (PyStr.upper (Py.strip mac_address)))).
  assert (Hc : Py.lower (without_separators c) = Py.lower (without_separators mac_address)).
  { unfold c. rewrite without_separators_replace, without_separators_upper, lower_upper.
    unfold Py.strip.
    rewrite without_separators_rstrip by (by apply blanks_only_lstrip).
    by rewrite without_separators_lstrip. }
  destruct (negb (Py.contains ":" c) && (String.length c =? 12)%nat) eqn:E; [|done].
  apply andb_true_iff in E as [_ Hlen]. apply Nat.eqb_eq in Hlen.
  by rewrite without_separators_pairs.
Qed.

Lemma linked_mac_same_key_witness :
  PyStr.is_ascii "0050F2A1B2C3" = true ∧
  blanks_only " 00-50-f2-a1-b2-c3 " ∧
  normalize_mac (Commands.clean_mac " 00-50-f2-a1-b2-c3 ") = "0050f2a1b2c3" ∧
  normalize_mac (Commands.clean_mac "0050F2A1B2C3") = normalize_mac "0050F2A1B2C3".
Proof.
  assert (Hb : ∀ s, forallb (λ a, negb (Py.is_space a) || Ascii.eqb a " ")
                      (list_ascii_of_string s) = true → blanks_only s).
  { intros s Hs a Ha Hsp. rewrite forallb_forall in Hs.
    specialize (Hs a (proj1 (list_elem_of_In _ _) Ha)).
    rewrite Hsp in Hs. simpl in Hs. by apply Ascii.eqb_eq in Hs. }
  split; [reflexivity|]. split; [by apply Hb|]. split; [reflexivity|].
  apply (linked_mac_same_key "0050F2A1B2C3"); [reflexivity|by apply Hb].
Defined.

Lemma mem_spec (x : string) (xs : list string) : mem x xs = true ↔ x ∈ xs.
Proof. unfold mem. apply bool_decide_eq_true. Qed.

Lemma linked_elsewhere_false (players : gmap string Commands.bot_player)
    (user_id mac : string) :
  Commands.linked_elsewhere players user_id mac = false →
  ∀ o d, players !! o = Some d → o ≠ user_id → mac ∉ Commands.macs_of d.
Proof.
  unfold Commands.linked_elsewhere. intros Hex o d Ho Hne Hin.
  apply not_true_iff_false in Hex. apply Hex.
  apply existsb_exists. exists (o, d). split.
  - apply list_elem_of_In. by apply elem_of_map_to_list.
  - apply andb_true_iff. split; [|by apply mem_spec].
    apply negb_true_iff. by apply String.eqb_neq.
Qed.

(** X6. [/linkmac] keeps the address texts of [players.json] exclusive:
    when no text is stored for two players or twice for one, the same
    holds after the command, whatever its answer.  This is exclusivity of
    the texts as stored, not of the addresses they spell: see
    [link_mac_respelled]. *)
Theorem link_mac_keeps_exclusive (players : gmap string Commands.bot_player)
    (player : Commands.member) (mac_address : string) :
  macs_exclusive players →
  macs_exclusive (Commands.link_mac players player mac_address).1.
Proof.
  intros [Huniq Hnodup]. unfold Commands.link_mac.
  set (c := Commands.clean_mac mac_address). set (u := Commands.mb_id player).
  set (entry := default Commands.no_player (players !! u)).
  destruct (Commands.linked_elsewhere players u c) eqn:He; [done|].
  destruct (mem c (Commands.macs_of entry)) eqn:Hm; [done|].
  pose proof (linked_elsewhere_false players u c He) as Hother.
  assert (Hc : c ∉ Commands.macs_of entry).
  { intros Hin. apply mem_spec in Hin. congruence. }
  assert (Hold : ∀ m, m ∈ Commands.macs_of entry →
                 ∃ d, players !! u = Some d ∧ m ∈ Commands.macs_of d).
  { intros m Hin. unfold entry in *. destruct (players !! u) as [d|]; [eauto|].
    by apply elem_of_nil in Hin. }
  simpl. split.
  - intros u1 u2 d1 d2 m H1 H2 Hm1 Hm2.
    destruct (decide (u1 = u)) as [->|Hn1]; destruct (decide (u2 = u)) as [->|Hn2];
      [done| | |].
    + rewrite lookup_insert_eq in H1. rewrite lookup_insert_ne in H2 by done.
      injection H1 as <-. unfold Commands.macs_of in Hm1. simpl in Hm1.
      apply elem_of_app in Hm1 as [Hm1|Hm1].
      * destruct (Hold m Hm1) as (d & Hd & Hmd). by apply (Huniq u u2 d d2 m).
      * apply list_elem_of_singleton in Hm1 as ->. by destruct (Hother u2 d2 H2).
    + rewrite lookup_insert_ne in H1 by done. rewrite lookup_insert_eq in H2.
      injection H2 as <-. unfold Commands.macs_of in Hm2. simpl in Hm2.
      apply elem_of_app in Hm2 as [Hm2|Hm2].
      * destruct (Hold m Hm2) as (d & Hd & Hmd). by apply (Huniq u1 u d1 d m).
      * apply list_elem_of_singleton in Hm2 as ->. by destruct (Hother u1 d1 H1).
    + rewrite lookup_insert_ne in H1 by done. rewrite lookup_insert_ne in H2 by done.
      by apply (Huniq u1 u2 d1 d2 m).
  - intros u' d Hd. destruct (decide (u' = u)) as [->|Hn].
    + rewrite lookup_insert_eq in Hd. injection Hd as <-.
      unfold Commands.macs_of at 1. simpl. apply NoDup_app. split_and!.
      * unfold entry. destruct (players !! u) as [d|] eqn:Hd; [by apply (Hnodup u)|].
        apply NoDup_nil_2.
      * intros m Hin Hin'. apply list_elem_of_singleton in Hin' as ->. done.
      * apply NoDup_singleton.
    + rewrite lookup_insert_ne in Hd by done. by apply (Hnodup u').
Qed.

Lemma one_linked_exclusive : macs_exclusive one_linked.
Proof.
  unfold one_linked. split.
  - intros u1 u2 d1 d2 m H1 H2 _ _.
    apply lookup_singleton_Some in H1 as [<- _].
    by apply lookup_singleton_Some in H2 as [<- _].
  - intros u d Hd. apply lookup_singleton_Some in Hd as [_ <-].
    apply NoDup_singleton.
Qed.

(** The check of [/linkmac] compares texts: an address that one player
    holds is linked to a second player when it is typed in another
    spelling, and both texts normalise to one key of the stats side. *)
Lemma link_mac_respelled :
  (Commands.link_mac one_linked newcomer respelled).2 = Commands.Linked ∧
  Commands.macs_of
    (default Commands.no_player
       ((Commands.link_mac one_linked newcomer respelled).1 !! Commands.mb_id newcomer))
  = [respelled] ∧
  normalize_mac respelled = normalize_mac "00:50:F2:A1:B2:C3".
Proof. vm_compute. done. Qed.

Lemma link_mac_keeps_exclusive_witness :
  macs_exclusive (Commands.link_mac one_linked newcomer "0050f2000002").1 ∧
  (Commands.link_mac one_linked newcomer "0050f2000002").2 = Commands.Linked ∧
  (Commands.link_mac one_linked newcomer "00-50-f2-a1-b2-c3").2 = Commands.LinkedElsewhere.
Proof.
  split; [|split; vm_compute; reflexivity].
  apply (link_mac_keeps_exclusive one_linked newcomer "0050f2000002").
  exact one_linked_exclusive.
Defined.

Lemma remove_first_snoc (x : string) (l : list string) :
  x ∉ l → Commands.remove_first x (l ++ [x]) = l.
Proof.
  induction l as [|y l IH]; intros Hx; simpl.
  - by rewrite String.eqb_refl.
  - apply not_elem_of_cons in Hx as [Hne Hx].
    rewrite (proj2 (String.eqb_neq y x)) by done. by rewrite IH.
Qed.

(** X7. An address that [/linkmac] has just added to a player is taken
    off again by [/unlinkmac] with the same text (any text but [all], which
    empties the list): the player's list is what it was and no other entry
    changes. *)
Theorem link_then_unlink (players players' : gmap string Commands.bot_player)
    (player : Commands.member) (mac_address : string) :
  Commands.link_mac players player mac_address = (players', Commands.Linked) →
  Py.lower mac_address ≠ "all" →
  ∃ players'',
    Commands.unlink_mac players' player mac_address = (players'', Commands.Removed) ∧
    (Commands.macs_of <$> players'' !! Commands.mb_id player)
    = Some (Commands.macs_of (default Commands.no_player
                                (players !! Commands.mb_id player))) ∧
    ∀ other, other ≠ Commands.mb_id player → players'' !! other = players !! other.
Proof.
  unfold Commands.link_mac, Commands.unlink_mac.
  set (c := Commands.clean_mac mac_address). set (u := Commands.mb_id player).
  set (entry := default Commands.no_player (players !! u)).
  destruct (Commands.linked_elsewhere players u c); [done|].
  destruct (mem c (Commands.macs_of entry)) eqn:Hm; [done|].
  intros [= <-] Hall.
  assert (Hc : c ∉ Commands.macs_of entry).
  { intros Hin. apply mem_spec in Hin. congruence. }
  rewrite lookup_insert_eq. simpl.
  destruct (Commands.macs_of entry ++ [c]) as [|m0 ms] eqn:Hl.
  { by destruct (Commands.macs_of entry). }
  rewrite (proj2 (String.eqb_neq _ _) Hall).
  assert (Hin : mem c (m0 :: ms) = true).
  { apply mem_spec. rewrite <- Hl. apply elem_of_app. right. left. }
  assert (Hrem : Commands.remove_first c (m0 :: ms) = Commands.macs_of entry).
  { rewrite <- Hl. by apply remove_first_snoc. }
  rewrite Hin, Hrem.
  eexists. split; [reflexivity|]. split.
  - by rewrite lookup_insert_eq.
  - intros other Hne. by rewrite !lookup_insert_ne.
Qed.

Lemma link_then_unlink_witness :
  ∃ players'',
    Commands.unlink_mac (Commands.link_mac one_linked newcomer "0050f2000002").1
      newcomer "0050f2000002" = (players'', Commands.Removed) ∧
    (Commands.macs_of <$> players'' !! Commands.mb_id newcomer)
    = Some (Commands.macs_of (default Commands.no_player
                                (one_linked !! Commands.mb_id newcomer))) ∧
    ∀ other, other ≠ Commands.mb_id newcomer → players'' !! other = one_linked !! other.
Proof.
  apply (link_then_unlink one_linked
           (Commands.link_mac one_linked newcomer "0050f2000002").1
           newcomer "0050f2000002").
  - vm_compute. reflexivity.
  - vm_compute. discriminate.
Defined.

(** *** The address lookup of the stats side *)

Lemma mac_lookup_inner (user_id : string) (macs : list string) (m : gmap string string)
    (k u : string) :
  foldl (λ (mac_to_user : gmap string string) mac,
           let normalized_mac := normalize_mac mac in
           if String.eqb normalized_mac "" then mac_to_user
           else <[normalized_mac := user_id]> mac_to_user) m macs !! k = Some u →
  m !! k = Some u ∨ (u = user_id ∧ k ≠ "" ∧ ∃ mac, mac ∈ macs ∧ normalize_mac mac = k).
Proof.
  revert m. induction macs as [|mac macs IH]; intros m; simpl; [by left|].
  intros H. apply IH in H as [H|(-> & Hk & mac' & Hin & Hn)].
  - destruct (String.eqb (normalize_mac mac) "") eqn:E; [by left|].
    apply String.eqb_neq in E.
    destruct (decide (normalize_mac mac = k)) as [<-|Hne].
    + rewrite lookup_insert_eq in H. injection H as <-. right.
      split; [done|]. split; [done|]. exists mac. split; [left|done].
    + rewrite lookup_insert_ne in H by done. by left.
  - right. split; [done|]. split; [done|]. exists mac'. split; [by right|done].
Qed.

Lemma mac_lookup_inner_keeps (user_id : string) (macs : list string)
    (m : gmap string string) (k : string) :
  is_Some (m !! k) →
  is_Some (foldl (λ (mac_to_user : gmap string string) mac,
           let normalized_mac := normalize_mac mac in
           if String.eqb normalized_mac "" then mac_to_user
           else <[normalized_mac := user_id]> mac_to_user) m macs !! k).
Proof.
  revert m. induction macs as [|mac macs IH]; intros m H; simpl; [done|].
  apply IH. destruct (String.eqb (normalize_mac mac) ""); [done|].
  destruct (decide (normalize_mac mac = k)) as [<-|Hne].
  - rewrite lookup_insert_eq. eauto.
  - by rewrite lookup_insert_ne.
Qed.

Lemma mac_lookup_inner_adds (user_id : string) (macs : list string)
    (m : gmap string string) (mac : string) :
  mac ∈ macs → normalize_mac mac ≠ "" →
  is_Some (foldl (λ (mac_to_user : gmap string string) mac,
           let normalized_mac := normalize_mac mac in
           if String.eqb normalized_mac "" then mac_to_user
           else <[normalized_mac := user_id]> mac_to_user) m macs !! normalize_mac mac).
Proof.
  revert m. induction macs as [|mac' macs IH]; intros m Hin Hne; simpl.
  - by apply elem_of_nil in Hin.
  - apply elem_of_cons in Hin as [->|Hin]; [|by apply IH].
    apply mac_lookup_inner_keeps.
    rewrite (proj2 (String.eqb_neq _ _) Hne). rewrite lookup_insert_eq. eauto.
Qed.

(** X8. The address lookup built from [players.json] holds only
    normalised, non-empty addresses, each mapped to a player that lists an
    address with that normal form; and every listed address with a
    non-empty normal form is a key of the lookup. *)
Theorem mac_lookup_sound_complete (players : list (string * players_entry)) :
  (∀ k u, build_mac_to_discord_lookup players !! k = Some u →
     k ≠ "" ∧ normalize_mac k = k ∧
     ∃ data mac, (u, data) ∈ players ∧ mac ∈ mac_candidates data ∧ normalize_mac mac = k) ∧
  (∀ u data mac, (u, data) ∈ players → mac ∈ mac_candidates data →
     normalize_mac mac ≠ "" →
     is_Some (build_mac_to_discord_lookup players !! normalize_mac mac)).
Proof.
  unfold build_mac_to_discord_lookup.
  assert (Hgen : ∀ m,
    (∀ k u, foldl (λ mac_to_user '(user_id, data),
                     foldl (λ (mac_to_user : gmap string string) mac,
                              let normalized_mac := normalize_mac mac in
                              if String.eqb normalized_mac "" then mac_to_user
                              else <[normalized_mac := user_id]> mac_to_user)
                           mac_to_user (mac_candidates data)) m players !! k = Some u →
       m !! k = Some u ∨
       (k ≠ "" ∧ ∃ data mac, (u, data) ∈ players ∧ mac ∈ mac_candidates data
                             ∧ normalize_mac mac = k)) ∧
    (∀ k, is_Some (m !! k) →
       is_Some (foldl (λ mac_to_user '(user_id, data),
                     foldl (λ (mac_to_user : gmap string string) mac,
                              let normalized_mac := normalize_mac mac in
                              if String.eqb normalized_mac "" then mac_to_user
                              else <[normalized_mac := user_id]> mac_to_user)
                           mac_to_user (mac_candidates data)) m players !! k)) ∧
    (∀ u data mac, (u, data) ∈ players → mac ∈ mac_candidates data →
       normalize_mac mac ≠ "" →
       is_Some (foldl (λ mac_to_user '(user_id, data),
                     foldl (λ (mac_to_user : gmap string string) mac,
                              let normalized_mac := normalize_mac mac in
                              if String.eqb normalized_mac "" then mac_to_user
                              else <[normalized_mac := user_id]> mac_to_user)
                           mac_to_user (mac_candidates data)) m players
                !! normalize_mac mac))).
  { induction players as [|[uid d] players IH]; intros m; simpl.
    - split; [by left|]. split; [done|]. intros u data mac Hin. by apply elem_of_nil in Hin.
    - destruct (IH (foldl (λ (mac_to_user : gmap string string) mac,
                              let normalized_mac := normalize_mac mac in
                              if String.eqb normalized_mac "" then mac_to_user
                              else <[normalized_mac := uid]> mac_to_user)
                           m (mac_candidates d))) as (Hs & Hk & Hc).
      split; [|split].
      + intros k u H. apply Hs in H as [H|(Hne & data & mac & Hin & Hm & Hn)].
        * apply mac_lookup_inner in H as [H|(-> & Hne & mac & Hm & Hn)]; [by left|].
          right. split; [done|]. exists d, mac. split; [left|done].
        * right. split; [done|]. exists data, mac. split; [by right|done].
      + intros k H. apply Hk. by apply mac_lookup_inner_keeps.
      + intros u data mac Hin Hm Hne. apply elem_of_cons in Hin as [Heq|Hin].
        * injection Heq as -> ->. apply Hk. by apply mac_lookup_inner_adds.
        * by apply (Hc u data mac). }
  destruct (Hgen ∅) as (Hs & _ & Hc). split; [|exact Hc].
  intros k u H. apply Hs in H as [H|(Hne & data & mac & Hin & Hm & Hn)].
  { by rewrite lookup_empty in H. }
  split; [done|]. split; [|by exists data, mac].
  rewrite <- Hn. apply normalize_mac_idemp.
Qed.

(** X9. The bulk mapping from in-game names to Discord IDs, which the
    matching of bot sessions uses, and the resolver of the ranking step
    agree: the mapping holds for the stripped, lower-cased name exactly the
    ID that [resolve_player_to_discord] finds through the merged identity
    files, and nothing when the resolver finds none or an empty one. *)
Theorem ingame_id_mapping_agrees
    (all_identity_mappings : list (string * gmap string string))
    (mac_to_discord : gmap string string) (player_name : string) :
  build_ingame_to_discord_id_mapping all_identity_mappings mac_to_discord
    !! Py.lower (Py.strip player_name)
  = truthy_id (resolve_player_to_discord player_name
                 (combine_identity all_identity_mappings) mac_to_discord).
Proof.
  unfold build_ingame_to_discord_id_mapping, resolve_player_to_discord.
  rewrite lookup_omap.
  by destruct (combine_identity all_identity_mappings !! Py.lower (Py.strip player_name)).
Qed.

(** *** Series *)

Lemma won_by_snoc (team : string) (games : list Series.series_game)
    (e : Series.series_game) :
  won_by team (games ++ [e])
  = Series.bump (Series.sg_winner e) team (won_by team games).
Proof.
  unfold won_by, Series.bump. rewrite filter_app, length_app, filter_cons, filter_nil.
  case_bool_decide as Hw.
  - rewrite decide_True by done. simpl. lia.
  - rewrite decide_False by done. simpl. lia.
Qed.

Lemma won_by_bounds (games : list Series.series_game) :
  0 ≤ won_by "Red" games ∧ 0 ≤ won_by "Blue" games ∧
  won_by "Red" games + won_by "Blue" games ≤ Z.of_nat (length games).
Proof.
  unfold won_by. induction games as [|e games IH]; simpl; [lia|].
  rewrite !filter_cons.
  destruct (decide (Series.sg_winner e = Some "Red")) as [Hr|Hr];
    destruct (decide (Series.sg_winner e = Some "Blue")) as [Hb|Hb]; simpl; try lia.
  congruence.
Qed.

Lemma finalize_series_majority (s : Series.series) :
  0 ≤ Series.se_red_wins s → 0 ≤ Series.se_blue_wins s →
  Series.se_red_wins s + Series.se_blue_wins s ≤ Z.of_nat (length (Series.se_games s)) →
  let s' := Series.finalize_series s in
  (Series.se_winner s' = "Red" ↔ Series.se_blue_wins s < Series.se_red_wins s) ∧
  (Series.se_winner s' = "Blue" ↔ Series.se_red_wins s < Series.se_blue_wins s) ∧
  (Series.se_winner s' = "Tie" ↔ Series.se_red_wins s = Series.se_blue_wins s).
Proof.
  intros Hr Hb Hsum. unfold Series.finalize_series.
  set (total := Z.of_nat (length (Series.se_games s))) in *.
  set (red := Series.se_red_wins s) in *. set (blue := Series.se_blue_wins s) in *.
  assert (Hdiv : total < 2 * (total / 2 + 1)).
  { pose proof (Z.div_mod total 2 ltac:(lia)). pose proof (Z.mod_pos_bound total 2 ltac:(lia)).
    lia. }
  generalize dependent (total / 2 + 1). intros needed Hneeded.
  destruct (Z.leb_spec total 3); [|destruct (Z.leb_spec total 5);
    [|destruct (Z.leb_spec total 7)]]; simpl;
    repeat (match goal with
            | |- context [?a <=? ?b] => destruct (Z.leb_spec a b)
            | |- context [?a <? ?b] => destruct (Z.ltb_spec a b)
            end; simpl);
    split_and!; split; intros; try done; try lia.
Qed.

Lemma finalize_series_keeps (s : Series.series) :
  Series.se_games (Series.finalize_series s) = Series.se_games s ∧
  Series.se_red_wins (Series.finalize_series s) = Series.se_red_wins s ∧
  Series.se_blue_wins (Series.finalize_series s) = Series.se_blue_wins s.
Proof. unfold Series.finalize_series. by repeat case_match. Qed.

Lemma finalize_counted (s : Series.series) :
  series_counted s → series_by_majority (Series.finalize_series s).
Proof.
  intros (Hne & Hr & Hb).
  pose proof (won_by_bounds (Series.se_games s)) as (H1 & H2 & H3).
  pose proof (finalize_series_majority s) as Hm.
  rewrite Hr, Hb in Hm. specialize (Hm H1 H2 H3). simpl in Hm.
  unfold series_by_majority.
  destruct (finalize_series_keeps s) as (Hgames & Hred & Hblue).
  rewrite Hgames, Hred, Hblue, Hr, Hb. split_and!; try done; apply Hm.
Qed.

Lemma scan_game_ok (display : string → string) (st : Series.scan) (seen : list game)
    (g : game) :
  scan_ok st seen → scan_ok (Series.scan_game display st g) (seen ++ [g]).
Proof.
  intros (Hdone & Hcur & Hcat). unfold Series.scan_game.
  assert (Hnew : ∀ closed,
    (∀ s, s ∈ closed → series_by_majority s) →
    flat_map Series.se_games closed = Series.game_entry <$> seen →
    scan_ok
      {| Series.sc_series_list := closed;
         Series.sc_current :=
           Some (Series.get_team_signature g,
                 {| Series.se_series_id := "series_" ++ Py.str_of_int (Series.sc_counter st + 1);
                    Series.se_playlist := g_playlist g;
                    Series.se_red_team :=
                      Series.sorted_names
                        (display <$> (p_name <$> MatchLog.log_rows g "Red"));
                    Series.se_blue_team :=
                      Series.sorted_names
                        (display <$> (p_name <$> MatchLog.log_rows g "Blue"));
                    Series.se_games := [Series.game_entry g];
                    Series.se_red_wins :=
                      Series.bump (Series.sg_winner (Series.game_entry g)) "Red" 0;
                    Series.se_blue_wins :=
                      Series.bump (Series.sg_winner (Series.game_entry g)) "Blue" 0;
                    Series.se_start_time := Series.sg_timestamp (Series.game_entry g);
                    Series.se_end_time := Series.sg_timestamp (Series.game_entry g);
                    Series.se_winner := "Ongoing"; Series.se_series_type := "Custom" |});
         Series.sc_counter := Series.sc_counter st + 1 |} (seen ++ [g])).
  { intros closed Hclosed Hflat. split; [exact Hclosed|]. split.
    - intros sig current [= <- <-]. split; [done|]. simpl.
      split; symmetry; apply (won_by_snoc _ [] (Series.game_entry g)).
    - unfold open_games. simpl. by rewrite Hflat, fmap_app. }
  destruct (Series.sc_current st) as [[sig current]|] eqn:Hc.
  - destruct (Hcur sig current eq_refl) as (Hne & Hr & Hb).
    unfold open_games in Hcat. rewrite Hc in Hcat.
    case_bool_decide as Hsig.
    + split; [exact Hdone|]. split.
      * intros sig' current' [= <- <-]. unfold series_counted.
        cbn [Series.se_games Series.se_red_wins Series.se_blue_wins].
        split; [by destruct (Series.se_games current)|].
        by rewrite !won_by_snoc, Hr, Hb.
      * unfold open_games. simpl. by rewrite app_assoc, Hcat, fmap_app.
    + apply Hnew.
      * intros s Hs. apply elem_of_app in Hs as [Hs|Hs]; [by apply Hdone|].
        apply list_elem_of_singleton in Hs as ->. by apply finalize_counted.
      * rewrite flat_map_app. simpl. rewrite app_nil_r.
        rewrite (proj1 (finalize_series_keeps current)). exact Hcat.
  - apply Hnew; [exact Hdone|].
    unfold open_games in Hcat. rewrite Hc in Hcat. by rewrite app_nil_r in Hcat.
Qed.

Lemma scan_games_ok (display : string → string) (l : list game) (st : Series.scan)
    (seen : list game) :
  scan_ok st seen → scan_ok (foldl (Series.scan_game display) st l) (seen ++ l).
Proof.
  revert st seen. induction l as [|g l IH]; intros st seen Hst; simpl.
  - by rewrite app_nil_r.
  - replace (seen ++ g :: l) with ((seen ++ [g]) ++ l) by (by rewrite <- app_assoc).
    apply IH. by apply scan_game_ok.
Qed.

Lemma insert_game_perm (parse : string → option Z) (x : game) (l : list game) :
  Series.insert_game parse x l ≡ₚ x :: l.
Proof.
  induction l as [|y l IH]; simpl; [done|].
  destruct (_ <=? _); [done|]. rewrite IH. apply Permutation_swap.
Qed.

Lemma sorted_games_perm (parse : string → option Z) (games : list game) :
  Series.sorted_games parse games ≡ₚ games.
Proof.
  unfold Series.sorted_games. induction games as [|g games IH]; simpl; [done|].
  by rewrite insert_game_perm, IH.
Qed.

Lemma insert_game_sorted (parse : string → option Z) (x : game) (l : list game) :
  StronglySorted (by_time parse) l →
  StronglySorted (by_time parse) (Series.insert_game parse x l).
Proof.
  induction l as [|y l IH]; intros Hl; simpl.
  - by repeat constructor.
  - apply StronglySorted_inv in Hl as [Hl Hy].
    destruct (Z.leb_spec (Series.get_game_time parse x) (Series.get_game_time parse y))
      as [Hle|Hgt].
    + constructor; [by constructor|].
      constructor; [exact Hle|].
      eapply Forall_impl; [exact Hy|]. intros z Hz. unfold by_time in *. lia.
    + constructor; [by apply IH|].
      apply Forall_forall. intros z Hz.
      rewrite insert_game_perm in Hz. apply elem_of_cons in Hz as [->|Hz].
      * unfold by_time. lia.
      * by apply (proj1 (Forall_forall _ _) Hy).
Qed.

Lemma sorted_games_sorted (parse : string → option Z) (games : list game) :
  StronglySorted (by_time parse) (Series.sorted_games parse games).
Proof.
  unfold Series.sorted_games. induction games as [|g games IH]; simpl.
  - constructor.
  - by apply insert_game_sorted.
Qed.

Lemma insert_game_stable (parse : string → option Z) (k : Z) (x : game) (l : list game) :
  filter (λ g, Series.get_game_time parse g = k) (Series.insert_game parse x l)
  = filter (λ g, Series.get_game_time parse g = k) (x :: l).
Proof.
  induction l as [|y l IH]; simpl; [done|].
  destruct (Z.leb_spec (Series.get_game_time parse x) (Series.get_game_time parse y))
    as [Hle|Hgt]; [done|].
  rewrite filter_cons, IH, !filter_cons.
  repeat case_decide; try done; lia.
Qed.

Lemma sorted_games_stable (parse : string → option Z) (k : Z) (games : list game) :
  filter (λ g, Series.get_game_time parse g = k) (Series.sorted_games parse games)
  = filter (λ g, Series.get_game_time parse g = k) games.
Proof.
  unfold Series.sorted_games. induction games as [|g games IH]; simpl; [done|].
  by rewrite insert_game_stable, !filter_cons, IH.
Qed.

(** X10. [detect_series] puts every game into exactly one series: the
    games of the series, one series after the other, are the games given
    in the order of the stable sort by start time, which is a permutation
    of the games in which no game starts before one that precedes it and
    games with the same start time keep the order they were given in.  In
    every series returned the counters are the numbers of its games that
    Red and that Blue won, and the winner is Red, Blue or Tie by which
    counter is greater: the thresholds of the best-of types never change
    that. *)
Theorem detect_series_by_majority (parse_timestamp : string → option Z)
    (display : string → string) (games : list game) :
  let found := Series.detect_series parse_timestamp display games in
  let sorted := Series.sorted_games parse_timestamp games in
  flat_map Series.se_games found = Series.game_entry <$> sorted ∧
  sorted ≡ₚ games ∧
  StronglySorted (by_time parse_timestamp) sorted ∧
  (∀ k, filter (λ g, Series.get_game_time parse_timestamp g = k) sorted
        = filter (λ g, Series.get_game_time parse_timestamp g = k) games) ∧
  ∀ s, s ∈ found → series_by_majority s.
Proof.
  simpl. unfold Series.detect_series.
  pose proof (scan_games_ok display (Series.sorted_games parse_timestamp games)
                {| Series.sc_series_list := []; Series.sc_current := None;
                   Series.sc_counter := 0 |} []) as Hok.
  destruct Hok as (Hdone & Hcur & Hcat).
  { split; [by intros s ?%elem_of_nil|]. split; [done|done]. }
  simpl in Hcat. set (st := foldl _ _ _) in *. clearbody st.
  split; [|split; [apply sorted_games_perm|]].
  2:{ split; [apply sorted_games_sorted|]. split; [intros k; apply sorted_games_stable|].
      intros s Hs. apply elem_of_app in Hs as [Hs|Hs]; [by apply Hdone|].
      destruct (Series.sc_current st) as [[sig current]|] eqn:Hc.
      + apply list_elem_of_singleton in Hs as ->. apply finalize_counted.
        by apply (Hcur sig).
      + by apply elem_of_nil in Hs. }
  rewrite flat_map_app, <- Hcat. f_equal. unfold open_games.
  destruct (Series.sc_current st) as [[sig current]|]; [|done].
  simpl. by rewrite app_nil_r, (proj1 (finalize_series_keeps current)).
Qed.

(** X11. [get_base_gametype] is stable: the display name of a display name
    is that display name, and the result is never the empty string. *)
Theorem get_base_gametype_stable (game_type_field : string) :
  Series.get_base_gametype (Series.get_base_gametype game_type_field)
  = Series.get_base_gametype game_type_field ∧
  Series.get_base_gametype game_type_field ≠ "".
Proof.
  unfold Series.get_base_gametype at 2 3 4.
  destruct (String.eqb game_type_field "") eqn:E; [by split|].
  apply String.eqb_neq in E.
  destruct (Series.gametype_names !! Py.lower (Py.strip game_type_field)) as [v|] eqn:Hl;
    simpl.
  - unfold Series.gametype_names in Hl. apply elem_of_list_to_map_2 in Hl.
    repeat (apply elem_of_cons in Hl as [[= _ ->]|Hl];
            [split; [vm_compute; reflexivity|done]|]).
    by apply elem_of_nil in Hl.
  - split; [|done]. unfold Series.get_base_gametype.
    rewrite (proj2 (String.eqb_neq _ _) E). by rewrite Hl.
Qed.

(** *** The team balancer *)

Lemma search_spec (ids : list Z) (mmrs : gmap Z Z) (combos : list (list Z))
    (best r : option (list Z * list Z * Z)) :
  Balance.search ids mmrs combos best = Some r →
  match r with
  | None => best = None ∧ combos = []
  | Some (t1, t2, d) =>
      (best = Some (t1, t2, d)
       ∨ (t1 ∈ combos ∧ t2 = Balance.others ids t1 ∧ split_diff ids mmrs t1 = Some d)) ∧
      (∀ b1 b2 bd, best = Some (b1, b2, bd) → d ≤ bd) ∧
      (∀ c dc, c ∈ combos → split_diff ids mmrs c = Some dc → d ≤ dc)
  end.
Proof.
  revert best. induction combos as [|c combos IH]; intros best; simpl.
  - intros [= <-]. destruct best as [[[t1 t2] d]|]; [|done].
    split; [by left|]. split.
    + intros b1 b2 bd [= _ _ <-]. lia.
    + intros c dc Hc. by apply elem_of_nil in Hc.
  - destruct (Balance.sum_mmr mmrs c) as [m1|] eqn:H1; [|done]. simpl.
    destruct (Balance.sum_mmr mmrs (Balance.others ids c)) as [m2|] eqn:H2; [|done]. simpl.
    assert (Hc : split_diff ids mmrs c = Some (Z.abs (m1 - m2))).
    { unfold split_diff. by rewrite H1, H2. }
    destruct (match best with None => true | Some (_, _, bd) => Z.abs (m1 - m2) <? bd end)
      eqn:Hbetter.
    + destruct (Z.eqb_spec (Z.abs (m1 - m2)) 0) as [H0|H0].
      * intros [= <-]. split; [right; split; [left|done]|]. split.
        -- intros b1 b2 bd ->. apply Z.ltb_lt in Hbetter. lia.
        -- intros c' dc Hc' Hdc. rewrite H0.
           unfold split_diff in Hdc.
           destruct (Balance.sum_mmr mmrs c'); [|done]. simpl in Hdc.
           destruct (Balance.sum_mmr mmrs (Balance.others ids c')); [|done].
           simpl in Hdc. injection Hdc as <-. lia.
      * intros Hs. apply IH in Hs. destruct r as [[[t1 t2] d]|]; [|by destruct Hs].
        destruct Hs as (Hfrom & Hle & Hmin).
        assert (Hd : d ≤ Z.abs (m1 - m2)) by (by eapply Hle).
        split; [|split].
        -- destruct Hfrom as [[= <- <- <-]|(Hin & -> & Hsd)].
           ++ right. split; [left|done].
           ++ right. split; [by right|done].
        -- intros b1 b2 bd ->. apply Z.ltb_lt in Hbetter. lia.
        -- intros c' dc Hc' Hdc. apply elem_of_cons in Hc' as [->|Hc'].
           ++ rewrite Hc in Hdc. injection Hdc as <-. done.
           ++ by eapply Hmin.
    + intros Hs. apply IH in Hs. destruct r as [[[t1 t2] d]|].
      * destruct Hs as (Hfrom & Hle & Hmin). split; [|split].
        -- destruct Hfrom as [->|(Hin & -> & Hsd)]; [by left|].
           right. split; [by right|done].
        -- exact Hle.
        -- intros c' dc Hc' Hdc. apply elem_of_cons in Hc' as [->|Hc'].
           ++ rewrite Hc in Hdc. injection Hdc as <-.
              destruct best as [[[b1 b2] bd]|]; [|done].
              apply Z.ltb_ge in Hbetter. specialize (Hle b1 b2 bd eq_refl). lia.
           ++ by eapply Hmin.
      * destruct Hs as [-> _]. done.
Qed.

Lemma combinations_spec {A} (l : list A) (k : nat) (c : list A) :
  c ∈ Balance.combinations l k → sublist c l ∧ length c = k.
Proof.
  revert k c. induction l as [|x l IH]; intros k c; simpl.
  - destruct k; [|by intros ?%elem_of_nil].
    intros ->%list_elem_of_singleton. split; [constructor|done].
  - destruct k as [|k].
    + intros ->%list_elem_of_singleton. split; [apply sublist_nil_l|done].
    + intros [H|H]%elem_of_app.
      * apply list_elem_of_fmap in H as (c' & -> & Hc').
        destruct (IH k c' Hc') as [Hs Hl]. split; [by constructor|simpl; by rewrite Hl].
      * destruct (IH (S k) c H) as [Hs Hl]. split; [by constructor|done].
Qed.

Lemma combinations_short {A} (l : list A) (k : nat) :
  (length l < k)%nat → Balance.combinations l k = [].
Proof.
  revert k. induction l as [|x l IH]; intros k Hk; simpl in *.
  - destruct k; [lia|done].
  - destruct k as [|k]; [lia|].
    rewrite (IH k) by lia. rewrite (IH (S k)) by lia. done.
Qed.

Lemma others_perm (ids team1 : list Z) :
  NoDup ids → sublist team1 ids → team1 ++ Balance.others ids team1 ≡ₚ ids.
Proof.
  intros Hnd Hsub. apply NoDup_Permutation; [|done|].
  - apply NoDup_app. split_and!.
    + by eapply sublist_NoDup.
    + intros x Hx Hx'. unfold Balance.others in Hx'.
      apply list_elem_of_filter in Hx' as [Hn _]. done.
    + by apply NoDup_filter.
  - intros x. rewrite elem_of_app. unfold Balance.others.
    rewrite list_elem_of_filter. split.
    + intros [Hx|[_ Hx]]; [|done]. by eapply elem_of_sublist.
    + intros Hx. destruct (decide (x ∈ team1)); [by left|by right].
Qed.

(** X12. What [find_optimal_teams] returns is a best split: one team is a
    combination of four of the players and the other team the players left,
    the difference returned is the MMR difference of the two, and no
    combination of four gives a smaller one.  When no player is listed
    twice the two teams together are the players given. *)
Theorem find_optimal_teams_optimal (player_ids : list Z) (player_mmrs : gmap Z Z)
    (red blue : list Z) (diff : Z) :
  Balance.find_optimal_teams player_ids player_mmrs = Some (red, blue, diff) →
  (∃ team1, team1 ∈ Balance.combinations player_ids 4 ∧ length team1 = 4%nat ∧
     ((red, blue) = (team1, Balance.others player_ids team1)
      ∨ (red, blue) = (Balance.others player_ids team1, team1)) ∧
     split_diff player_ids player_mmrs team1 = Some diff ∧
     ∀ c dc, c ∈ Balance.combinations player_ids 4 →
             split_diff player_ids player_mmrs c = Some dc → diff ≤ dc) ∧
  (NoDup player_ids → red ++ blue ≡ₚ player_ids).
Proof.
  unfold Balance.find_optimal_teams. intros H.
  destruct (Balance.search player_ids player_mmrs (Balance.combinations player_ids 4) None)
    as [best|] eqn:Hs; [|done]. simpl in H.
  destruct best as [[[t1 t2] d]|]; [|done]. simpl in H.
  apply search_spec in Hs as (Hfrom & _ & Hmin).
  destruct Hfrom as [?|(Hin & -> & Hd)]; [done|].
  destruct (combinations_spec _ _ _ Hin) as [Hsub Hlen].
  destruct (Balance.sum_mmr player_mmrs t1) as [s1|]; [|done]. simpl in H.
  destruct (Balance.sum_mmr player_mmrs (Balance.others player_ids t1)) as [s2|]; [|done].
  simpl in H.
  destruct (Balance.true_div4 s1) as [a1|]; simpl in H; [|done].
  destruct (Balance.true_div4 s2) as [a2|]; simpl in H; [|done].
  destruct (PrimFloat.ltb a1 a2); injection H as <- <- <-.
  - split; [exists t1; split_and!; auto|].
    intros Hnd. rewrite (comm app). by apply others_perm.
  - split; [exists t1; split_and!; auto|].
    intros Hnd. by apply others_perm.
Qed.

Lemma find_optimal_teams_optimal_witness :
  ∃ red blue,
    Balance.find_optimal_teams eight_ids eight_mmrs = Some (red, blue, 0) ∧
    (NoDup eight_ids → red ++ blue ≡ₚ eight_ids).
Proof.
  exists [101; 102; 107; 108], [103; 104; 105; 106].
  split; [vm_compute; reflexivity|].
  apply (find_optimal_teams_optimal eight_ids eight_mmrs _ _ 0).
  vm_compute. reflexivity.
Defined.

Lemma sum_mmr_missing (mmrs : gmap Z Z) (team : list Z) (uid : Z) :
  uid ∈ team → mmrs !! uid = None → Balance.sum_mmr mmrs team = None.
Proof.
  induction team as [|x team IH]; intros Hin Hnone; simpl.
  - by apply elem_of_nil in Hin.
  - apply elem_of_cons in Hin as [->|Hin]; [by rewrite Hnone|].
    rewrite (IH Hin Hnone). by destruct (mmrs !! x).
Qed.

(** X13. [find_optimal_teams] raises when fewer than four players are
    given, and when a player given has no MMR. *)
Theorem find_optimal_teams_raises (player_ids : list Z) (player_mmrs : gmap Z Z) :
  (length player_ids < 4)%nat ∨ (∃ uid, uid ∈ player_ids ∧ player_mmrs !! uid = None) →
  Balance.find_optimal_teams player_ids player_mmrs = None.
Proof.
  unfold Balance.find_optimal_teams. intros [Hshort|(uid & Hin & Hnone)].
  - by rewrite combinations_short.
  - destruct (Balance.combinations player_ids 4) as [|c combos] eqn:Hc; [done|]. simpl.
    destruct (decide (uid ∈ c)) as [Huc|Huc].
    + by rewrite (sum_mmr_missing _ _ uid Huc Hnone).
    + destruct (Balance.sum_mmr player_mmrs c); [|done]. simpl.
      rewrite (sum_mmr_missing _ (Balance.others player_ids c) uid); [done| |done].
      unfold Balance.others. by apply list_elem_of_filter.
Qed.

Lemma find_optimal_teams_raises_witness :
  Balance.find_optimal_teams [101; 102; 103] eight_mmrs = None ∧
  Balance.find_optimal_teams (eight_ids ++ [109]) eight_mmrs = None.
Proof.
  split.
  - apply find_optimal_teams_raises. left. simpl. lia.
  - apply find_optimal_teams_raises. right. exists 109. split; [|reflexivity].
    apply elem_of_app. right. left.
Defined.

(** *** Change detection *)

Lemma scan_files_spec (new_playlist : string → option string)
    (old_games : gmap string (option string)) (stats_files : list string)
    (acc : list string * gmap string (option string * option string)) :
  let r := scan_files new_playlist old_games stats_files acc in
  r.1 = acc.1 ++ filter (λ f, old_games !! f = None) stats_files ∧
  ∀ f v, r.2 !! f = Some v ↔
    (f ∈ stats_files ∧ is_Some (old_games !! f) ∧
     mjoin (old_games !! f) ≠ new_playlist f ∧
     v = (mjoin (old_games !! f), new_playlist f))
    ∨ (acc.2 !! f = Some v ∧
       ¬ (f ∈ stats_files ∧ is_Some (old_games !! f)
          ∧ mjoin (old_games !! f) ≠ new_playlist f)).
Proof.
  revert acc. induction stats_files as [|x files IH]; intros [nf ch]; simpl.
  - rewrite app_nil_r. split; [done|]. intros f v. split.
    + intros H. right. split; [done|]. by intros [?%elem_of_nil _].
    + by intros [[?%elem_of_nil _]|[H _]].
  - destruct (old_games !! x) as [o|] eqn:Hx.
    + case_bool_decide as Hd.
      * destruct (IH (nf, <[x := (mjoin (Some o), new_playlist x)]> ch)) as [H1 H2].
        simpl in *. split.
        { rewrite H1. rewrite filter_cons. by rewrite decide_False by (by rewrite Hx). }
        intros f v. rewrite H2. clear H1 H2. split.
        -- intros [(Hin & Hs & Hne & ->)|[Hl Hn]].
           ++ left. split; [by right|done].
           ++ destruct (decide (f = x)) as [->|Hfx].
              ** rewrite lookup_insert_eq in Hl. injection Hl as <-.
                 left. rewrite Hx. split; [left|]. split; [eauto|done].
              ** rewrite lookup_insert_ne in Hl by done. right. split; [done|].
                 intros (Hin & Hs & Hne). apply Hn.
                 apply elem_of_cons in Hin as [->|Hin]; done.
        -- intros [(Hin & Hs & Hne & ->)|[Hl Hn]].
           ++ apply elem_of_cons in Hin as [->|Hin]; [|by left].
              destruct (decide (x ∈ files)) as [Hxf|Hxf]; [by left|].
              right. rewrite lookup_insert_eq, Hx. split; [done|]. by intros [? _].
           ++ right. destruct (decide (f = x)) as [->|Hfx].
              ** exfalso. apply Hn. rewrite Hx. split; [left|]. split; [eauto|done].
              ** rewrite lookup_insert_ne by done. split; [done|].
                 intros (Hin & Hs & Hne). apply Hn. split; [by right|done].
      * destruct (IH (nf, ch)) as [H1 H2]. simpl in *. split.
        { rewrite H1. rewrite filter_cons. by rewrite decide_False by (by rewrite Hx). }
        intros f v. rewrite H2. clear H1 H2.
        assert (Hsame : mjoin (Some o) = new_playlist x).
        { destruct (decide (mjoin (Some o) = new_playlist x)); [done|]. by destruct Hd. }
        split.
        -- intros [(Hin & Hs & Hne & ->)|[Hl Hn]].
           ++ left. split; [by right|done].
           ++ right. split; [done|]. intros (Hin & Hs & Hne). apply Hn.
              apply elem_of_cons in Hin as [->|Hin]; [|done].
              rewrite Hx in Hne. done.
        -- intros [(Hin & Hs & Hne & ->)|[Hl Hn]].
           ++ apply elem_of_cons in Hin as [->|Hin]; [|by left].
              rewrite Hx in Hne. done.
           ++ right. split; [done|]. intros (Hin & Hs & Hne). apply Hn.
              split; [by right|done].
    + destruct (IH (nf ++ [x], ch)) as [H1 H2]. simpl in *. split.
      { rewrite H1, filter_cons. rewrite decide_True by done. by rewrite <- app_assoc. }
      intros f v. rewrite H2. clear H1 H2. split.
      * intros [(Hin & Hs & Hne & ->)|[Hl Hn]].
        -- left. split; [by right|done].
        -- right. split; [done|]. intros (Hin & Hs & Hne). apply Hn.
           apply elem_of_cons in Hin as [->|Hin]; [|done].
           rewrite Hx in Hs. by destruct Hs.
      * intros [(Hin & Hs & Hne & ->)|[Hl Hn]].
        -- apply elem_of_cons in Hin as [->|Hin]; [|by left].
           rewrite Hx in Hs. by destruct Hs.
        -- right. split; [done|]. intros (Hin & Hs & Hne). apply Hn.
           split; [by right|done].
Qed.

(** X14. [check_for_changes] of [populate_stats.py]: the new files are the
    stats files that the ledger does not hold, in their order; the changed
    files are the stats files of the ledger whose entry in the override map
    (none, when the map has no entry) is not the playlist of the ledger;
    and a full rebuild is asked for exactly when there is a changed
    file. *)
Theorem check_for_changes_spec (get_manual_playlists_hash : manual → string)
    (stats_files : list string) (manual_playlists : manual) (ps : processed_state) :
  let c := Current.check_for_changes get_manual_playlists_hash stats_files
             manual_playlists ps in
  new_files c = filter (λ f, ps_games ps !! f = None) stats_files ∧
  (∀ f v, changed_playlists c !! f = Some v ↔
     f ∈ stats_files ∧ drifted manual_playlists (ps_games ps) f ∧
     v = (mjoin (ps_games ps !! f), get_name manual_playlists f)) ∧
  (needs_full_rebuild c = true ↔
     ∃ f, f ∈ stats_files ∧ drifted manual_playlists (ps_games ps) f).
Proof.
  unfold Current.check_for_changes.
  pose proof (scan_files_spec (get_name manual_playlists) (ps_games ps) stats_files ([], ∅))
    as [H1 H2].
  destruct (scan_files _ _ _ _) as [nf ch]. simpl in *.
  assert (Hch : ∀ f v, ch !! f = Some v ↔
     f ∈ stats_files ∧ drifted manual_playlists (ps_games ps) f ∧
     v = (mjoin (ps_games ps !! f), get_name manual_playlists f)).
  { intros f v. rewrite H2. unfold drifted. rewrite lookup_empty. naive_solver. }
  split; [done|]. split; [exact Hch|].
  rewrite negb_true_iff, bool_decide_eq_false. split.
  - intros Hne. apply map_choose in Hne as (f & v & Hf).
    apply Hch in Hf as (Hin & Hd & _). eauto.
  - intros (f & Hin & Hd) ->.
    pose proof (proj2 (Hch f _) (conj Hin (conj Hd eq_refl))) as Hf.
    by rewrite lookup_empty in Hf.
Qed.

Lemma full_rebuild_iff_drift (get_manual_playlists_hash : manual → string)
    (stats_files : list string) (manual_playlists : manual) (ps : processed_state) :
  needs_full_rebuild
    (Current.check_for_changes get_manual_playlists_hash stats_files manual_playlists ps)
  = true ↔
  ∃ f, f ∈ stats_files ∧ drifted manual_playlists (ps_games ps) f.
Proof.
  unfold Current.check_for_changes.
  pose proof (scan_files_spec (get_name manual_playlists) (ps_games ps) stats_files ([], ∅))
    as [_ H2].
  destruct (scan_files _ _ _ _) as [nf ch]. simpl in *.
  assert (Hch : ∀ f v, ch !! f = Some v ↔
     f ∈ stats_files ∧ drifted manual_playlists (ps_games ps) f ∧
     v = (mjoin (ps_games ps !! f), get_name manual_playlists f)).
  { intros f v. rewrite H2. unfold drifted. rewrite lookup_empty. naive_solver. }
  rewrite negb_true_iff, bool_decide_eq_false. split.
  - intros Hne. apply map_choose in Hne as (f & v & Hf).
    apply Hch in Hf as (Hin & Hd & _). eauto.
  - intros (f & Hin & Hd) ->.
    pose proof (proj2 (Hch f _) (conj Hin (conj Hd eq_refl))) as Hf.
    by rewrite lookup_empty in Hf.
Qed.

(** X15. The modes of a run of [populate_stats.py] that gets past the
    early return.  A run is never both incremental and a full rebuild.  An
    incremental run has new files and a snapshot that is not empty, and is
    not forced.  A forced run is a full rebuild over all the stats files
    from the empty state.  A full rebuild that is not forced comes from a
    stats file whose entry in the override map is no longer the playlist of
    the ledger; it is not incremental and keeps the loaded state.  A run
    that is neither incremental nor a full rebuild (the full processing of a
    first run) is not forced, has new files and no snapshot. *)
Theorem plan_run_modes (get_manual_playlists_hash : manual → string) (force_rebuild : bool)
    (stats_files : list string) (manual_playlists : manual) (loaded : processed_state)
    (p : plan) :
  Current.plan_run get_manual_playlists_hash force_rebuild stats_files manual_playlists
    loaded = Some p →
  (pl_incremental p = true →
     pl_full_rebuild p = false ∧ pl_new_files p ≠ [] ∧
     ps_player_state (pl_processed p) ≠ ∅ ∧ force_rebuild = false) ∧
  (force_rebuild = true →
     pl_full_rebuild p = true ∧ pl_incremental p = false ∧
     pl_new_files p = stats_files ∧ pl_processed p = empty_processed_state) ∧
  (force_rebuild = false → pl_full_rebuild p = true →
     pl_incremental p = false ∧ pl_processed p = loaded ∧
     ∃ f, f ∈ stats_files ∧ drifted manual_playlists (ps_games loaded) f) ∧
  (pl_full_rebuild p = false → pl_incremental p = false →
     force_rebuild = false ∧ pl_new_files p ≠ [] ∧ ps_player_state (pl_processed p) = ∅).
Proof.
  unfold Current.plan_run. destruct force_rebuild.
  - intros [= <-]. simpl. split_and!; try done.
  - pose proof (full_rebuild_iff_drift get_manual_playlists_hash stats_files
                  manual_playlists loaded) as Hdrift.
    set (c := Current.check_for_changes _ _ _ _) in *.
    assert (Hfull : needs_full_rebuild c = negb (bool_decide (changed_playlists c = ∅))).
    { unfold c, Current.check_for_changes. by destruct (scan_files _ _ _ _). }
    clearbody c. destruct c as [full nf ch]. simpl in *. subst full.
    unfold nonempty_dict.
    destruct (bool_decide (nf = [])) eqn:Hnf; destruct (bool_decide (ch = ∅)) eqn:Hch;
      simpl; intros [= <-]; simpl.
    + split_and!; try done. intros _ _. split_and!; try done. by apply Hdrift.
    + apply bool_decide_eq_false in Hnf.
      destruct (bool_decide (ps_player_state loaded = ∅)) eqn:Hs; simpl.
      * apply bool_decide_eq_true in Hs. split_and!; done.
      * apply bool_decide_eq_false in Hs. split_and!; done.
    + split_and!; try done. intros _ _. split_and!; try done. by apply Hdrift.
Qed.

Lemma plan_run_modes_witness :
  let p := {| pl_full_rebuild := false; pl_new_files := ["20251128_202256.xlsx"];
              pl_incremental := true; pl_processed := after_first_run "md5" |} in
  Current.plan_run (λ _, "md5") false
    ["20251128_201839.xlsx"; "20251128_202256.xlsx"] overrides_grown
    (after_first_run "md5") = Some p ∧
  (pl_incremental p = true →
     pl_full_rebuild p = false ∧ pl_new_files p ≠ [] ∧
     ps_player_state (pl_processed p) ≠ ∅ ∧ false = false).
Proof.
  split; [vm_compute; reflexivity|].
  apply (plan_run_modes (λ _, "md5") false
           ["20251128_201839.xlsx"; "20251128_202256.xlsx"] overrides_grown
           (after_first_run "md5")).
  vm_compute. reflexivity.
Defined.

(** *** Ledger stickiness in a run *)




(** *** The classifier without an override *)

(** X16. [determine_playlist] of [populate_stats.py] ranks a file in only
    two ways: by its entry in the override map, or, without an entry, when
    the game is long enough, a bot session matches it, and the number of
    players fits the playlist of the session: 2 for Head to Head, 4 in two
    teams for Double Team, 8 in two teams on a valid map and game type for
    MLG 4v4 and Team Hardcore. *)
Theorem determine_playlist_sound (f : game_file) (bot_match : option string)
    (manual_playlists : manual) (q : string) :
  Current.determine_playlist f bot_match manual_playlists = Some q →
  (∃ v, manual_playlists !! gf_name f = Some v ∧ normalize_playlist_name v = Some q)
  ∨ (manual_playlists !! gf_name f = None ∧ is_game_long_enough f = true ∧
     normalize_playlist_name bot_match = Some q ∧
     ((q = PLAYLIST_HEAD_TO_HEAD ∧ get_game_player_count f = 2)
      ∨ (q = PLAYLIST_DOUBLE_TEAM ∧ get_game_player_count f = 4 ∧ is_team_game f = true)
      ∨ ((q = PLAYLIST_MLG_4V4 ∨ q = PLAYLIST_TEAM_HARDCORE) ∧
         get_game_player_count f = 8 ∧ is_team_game f = true ∧
         is_valid_mlg_combo
           (match gf_details f with Some r => Py.strip (dr_map_name r) | None => "" end)
           (match gf_details f with Some r => Py.strip (dr_game_type r) | None => "" end)
         = true))).
Proof.
  unfold Current.determine_playlist. intros H.
  assert (Hlook : (if nonempty_dict manual_playlists
                   then manual_playlists !! gf_name f else None)
                  = manual_playlists !! gf_name f).
  { unfold nonempty_dict. case_bool_decide as He; simpl; [|done].
    by rewrite He, lookup_empty. }
  rewrite Hlook in H.
  destruct (manual_playlists !! gf_name f) as [v|]; [left; eauto|].
  right. split; [done|].
  destruct (is_game_long_enough f); simpl negb in H; cbv iota in H; [|done]. split; [done|].
  destruct bot_match as [entry|]; [|done].
  destruct (normalize_playlist_name (Some entry)) as [playlist|] eqn:Hn; [|done].
  rewrite !eqb_decide in H. unfold mem in H.
  destruct (bool_decide (playlist = PLAYLIST_HEAD_TO_HEAD)) eqn:E1.
  { apply bool_decide_eq_true in E1 as ->.
    destruct (Z.eqb_spec (get_game_player_count f) 2); [|done].
    injection H as <-. split; [done|]. by left. }
  destruct (bool_decide (playlist = PLAYLIST_DOUBLE_TEAM)) eqn:E2.
  { apply bool_decide_eq_true in E2 as ->.
    destruct (Z.eqb_spec (get_game_player_count f) 4); [|done].
    destruct (is_team_game f); [|done]. injection H as <-.
    split; [done|]. right. by left. }
  case_bool_decide as E3; [|done].
  destruct (Z.eqb_spec (get_game_player_count f) 8); [|done].
  destruct (is_team_game f); [|done]. simpl in H.
  destruct (is_valid_mlg_combo _ _) eqn:Hv; [|done]. injection H as <-.
  split; [done|]. right. right. split_and!; try done.
  apply elem_of_cons in E3 as [->|E3]; [by left|].
  apply list_elem_of_singleton in E3 as ->. by right.
Qed.

Lemma determine_playlist_sound_witness :
  Current.determine_playlist lockout_slayer (Some "Ranked MLG 4v4") ∅ = Some "MLG 4v4" ∧
  get_game_player_count lockout_slayer = 8.
Proof.
  split; [vm_compute; reflexivity|].
  destruct (determine_playlist_sound lockout_slayer (Some "Ranked MLG 4v4") ∅ "MLG 4v4")
    as [(v & Hv & _)|(_ & _ & _ & [[Hq _]|[[Hq _]|(_ & Hc & _)]])];
    [vm_compute; reflexivity|by rewrite lookup_empty in Hv|discriminate Hq
    |discriminate Hq|exact Hc].
Defined.

(** *** The ledger *)

(** X17. The ledger written at the end of a run has one entry for every
    file of the run's matches and no other.  A playlist in it is the
    playlist this run gave to a match of the file, or, in a run that is not
    a full rebuild, the playlist the old ledger held for the file: a full
    rebuild takes nothing from the old ledger. *)
Theorem ledger_entries (old_games : gmap string (option string))
    (needs_full_rebuild : bool) (all_games : list game) :
  let new_games := Ledger.build_games old_games needs_full_rebuild all_games in
  (∀ f, is_Some (new_games !! f) ↔ f ∈ g_source_file <$> all_games) ∧
  (∀ f q, new_games !! f = Some (Some q) →
     (∃ g, g ∈ all_games ∧ g_source_file g = f ∧ g_playlist g = Some q)
     ∨ (needs_full_rebuild = false ∧ old_games !! f = Some (Some q))).
Proof.
  simpl. induction all_games as [|g games IH] using rev_ind.
  - split.
    + intros f. unfold Ledger.build_games. simpl. rewrite lookup_empty.
      split; [by intros [? ?]|by intros ?%elem_of_nil].
    + intros f q. unfold Ledger.build_games. simpl. by rewrite lookup_empty.
  - destruct IH as [IH1 IH2]. rewrite build_games_snoc.
    set (prev := Ledger.build_games old_games needs_full_rebuild games) in *.
    unfold Ledger.record_game. split.
    + intros f. rewrite fmap_app, elem_of_app. simpl. rewrite list_elem_of_singleton.
      rewrite <- IH1.
      destruct (_ && _); (destruct (decide (f = g_source_file g)) as [->|Hne];
        [rewrite lookup_insert_eq; split; eauto
        |rewrite lookup_insert_ne by done; split; [eauto|by intros [?|?]]]).
    + intros f q.
      destruct (bool_decide (g_playlist g = None)
                && negb (bool_decide (mjoin (old_games !! g_source_file g) = None))
                && negb needs_full_rebuild) eqn:Hkeep.
      * apply andb_true_iff in Hkeep as [_ Hnfr]. apply negb_true_iff in Hnfr.
        destruct (decide (f = g_source_file g)) as [->|Hne].
        -- rewrite lookup_insert_eq. intros [= Hq]. right. split; [done|].
           destruct (old_games !! g_source_file g) as [[o|]|]; simpl in Hq; by simplify_eq.
        -- rewrite lookup_insert_ne by done. intros Hf.
           destruct (IH2 f q Hf) as [(g' & Hin & Hf' & Hq)|?]; [|by right].
           left. exists g'. split; [apply elem_of_app; by left|done].
      * destruct (decide (f = g_source_file g)) as [->|Hne].
        -- rewrite lookup_insert_eq. intros [= Hq]. left. exists g.
           split; [apply elem_of_app; right; left|done].
        -- rewrite lookup_insert_ne by done. intros Hf.
           destruct (IH2 f q Hf) as [(g' & Hin & Hf' & Hq)|?]; [|by right].
           left. exists g'. split; [apply elem_of_app; by left|done].
Qed.

(** *** The snapshot and step 1 of the next run *)

(** X18. The snapshot written at the end of a run holds exactly the
    identities with game data, and step 1 of the next incremental run gives
    such an identity, when [rankstats] has an entry for it, the overall
    figures of the snapshot and every per-playlist standing of it, and
    leaves the Discord name of the entry as it is. *)
Theorem snapshot_restored_by_step1 (rs rs' : gmap string rank_entry) (u : string)
    (e e' : rank_entry) :
  rs !! u = Some e → rs' !! u = Some e' →
  (is_Some (Steps.snapshot rs !! u) ↔ has_game_data e) ∧
  (has_game_data e →
   ∃ e'', Steps.step1 true (Steps.snapshot rs) rs' !! u = Some e'' ∧
     same_figures e e'' ∧ re_discord_name e'' = re_discord_name e' ∧
     ∀ q s, re_playlists e !! q = Some s → re_playlists e'' !! q = Some s).
Proof.
  intros He He'.
  assert (Hflag : has_game_data e ↔
    (0 <? re_total_games e) || (0 <? re_wins e) || (0 <? re_losses e) = true).
  { unfold has_game_data. rewrite !orb_true_iff, !Z.ltb_lt. tauto. }
  assert (Hsnap : ∀ s, Steps.snapshot rs !! u = Some s → has_game_data e).
  { intros s. unfold Steps.snapshot. rewrite lookup_omap, He. simpl.
    destruct ((0 <? re_total_games e) || (0 <? re_wins e) || (0 <? re_losses e)) eqn:E;
      [|done]. intros _. by apply Hflag. }
  split.
  - split; [intros [s Hs]; by eapply Hsnap|].
    intros Hd. apply Hflag in Hd. unfold Steps.snapshot. rewrite lookup_omap, He. simpl.
    rewrite Hd. eauto.
  - intros Hd. pose proof (proj1 Hflag Hd) as Hb.
    assert (Hs : ∃ s, Steps.snapshot rs !! u = Some s ∧ sv_xp s = re_xp e ∧
              sv_rank s = re_rank e ∧ sv_wins s = re_wins e ∧ sv_losses s = re_losses e ∧
              sv_total_games s = re_total_games e ∧ sv_kills s = re_kills e ∧
              sv_deaths s = re_deaths e ∧ sv_assists s = re_assists e ∧
              sv_headshots s = re_headshots e ∧ sv_highest_rank s = re_highest_rank e ∧
              sv_playlists s = re_playlists e).
    { unfold Steps.snapshot. rewrite lookup_omap, He. simpl. rewrite Hb.
      eexists. split; [reflexivity|]. simpl. split_and!; done. }
    destruct Hs as (s & Hs & Hx & Hr & Hw & Hl & Hg & Hk & Hde & Ha & Hh & Hhi & Hp).
    unfold Steps.step1.
    assert (Hne : nonempty_dict (Steps.snapshot rs) = true).
    { unfold nonempty_dict. apply negb_true_iff, bool_decide_eq_false.
      intros Hempty. by rewrite Hempty, lookup_empty in Hs. }
    rewrite Hne. simpl. rewrite map_lookup_imap, He'. simpl. rewrite Hs.
    eexists. split; [reflexivity|]. unfold same_figures. simpl.
    split; [split_and!; done|]. split; [done|].
    intros q st Hq. apply lookup_union_Some_l. by rewrite Hp.
Qed.

Lemma snapshot_restored_by_step1_witness :
  has_game_data won_once ∧
  ∃ e'', Steps.step1 true (Steps.snapshot {[ "210187331066396672" := won_once ]})
           {[ "210187331066396672" := new_entry "alice" (Some true) ]}
           !! "210187331066396672" = Some e'' ∧
    same_figures won_once e'' ∧
    re_discord_name e'' = re_discord_name (new_entry "alice" (Some true)) ∧
    ∀ q s, re_playlists won_once !! q = Some s → re_playlists e'' !! q = Some s.
Proof.
  assert (Hd : has_game_data won_once) by (left; reflexivity).
  split; [exact Hd|].
  apply (snapshot_restored_by_step1 {[ "210187331066396672" := won_once ]}
           {[ "210187331066396672" := new_entry "alice" (Some true) ]}
           "210187331066396672" won_once (new_entry "alice" (Some true)));
    [apply lookup_singleton_eq|apply lookup_singleton_eq|exact Hd].
Defined.

(** *** The outcome engine, for its callers *)

(** X19. When [determine_winners_losers] names winners, both teams have
    rows, the winners are the names of the rows of the team with the higher
    score, in row order, and the losers those of the other team; it names
    no winners exactly when it names no losers. *)
Theorem winners_outscore_losers (g : game) (winners losers : list string) :
  determine_winners_losers g = (winners, losers) →
  (winners = [] ↔ losers = []) ∧
  (winners ≠ [] →
   ∃ win lose,
     ((win, lose) = ("Red", "Blue") ∨ (win, lose) = ("Blue", "Red")) ∧
     winners = team_names g win ∧ losers = team_names g lose ∧
     team_score g lose < team_score g win).
Proof.
  rewrite engine_outcome.
  assert (Hnames : ∀ team, has_team g team → team_names g team ≠ []).
  { intros team Hhas. unfold has_team, rows_on in Hhas. unfold team_names.
    by destruct (filter _ (g_players g)). }
  case_bool_decide as Hboth; [|intros [= <- <-]; by split].
  destruct Hboth as [HR HB].
  pose proof (Hnames "Red" HR) as HnR. pose proof (Hnames "Blue" HB) as HnB.
  destruct (Z.ltb_spec (team_score g "Blue") (team_score g "Red")) as [Hlt|Hge].
  - intros [= <- <-]. split; [split; intros; done|].
    intros _. exists "Red", "Blue". split_and!; auto.
  - destruct (Z.ltb_spec (team_score g "Red") (team_score g "Blue")) as [Hlt|Hge'].
    + intros [= <- <-]. split; [split; intros; done|].
      intros _. exists "Blue", "Red". split_and!; auto.
    + intros [= <- <-]. by split.
Qed.

Lemma winners_outscore_losers_witness :
  determine_winners_losers ace_wins = (["Ace"], ["Cat"]) ∧
  ∃ win lose,
    ((win, lose) = ("Red", "Blue") ∨ (win, lose) = ("Blue", "Red")) ∧
    ["Ace"] = team_names ace_wins win ∧ ["Cat"] = team_names ace_wins lose ∧
    team_score ace_wins lose < team_score ace_wins win.
Proof.
  split; [vm_compute; reflexivity|].
  apply (winners_outscore_losers ace_wins ["Ace"] ["Cat"]); [vm_compute; reflexivity|done].
Defined.

Lemma backup_escalates_witness :
  ∃ p, Backup.plan_run (λ m, if bool_decide (m = ∅) then "d41d8cd9" else "9e107d9d")
         ["20251128_201839.xlsx"] overrides_grown ∅ (after_first_run "d41d8cd9") = Some p
       ∧ pl_full_rebuild p = true ∧ pl_incremental p = false.
Proof.
  apply (backup_escalates (λ m, if bool_decide (m = ∅) then "d41d8cd9" else "9e107d9d")
           ["20251128_201839.xlsx"] overrides_grown ∅ (after_first_run "d41d8cd9")).
  left. vm_compute. discriminate.
Defined.

(** *** Durations and held times written as minutes and seconds *)

Lemma digit_not_space (a : ascii) :
  is_Some (Py.digit_of a) → Py.is_space a = false ∧ a ≠ ":"%char ∧ a ≠ "-"%char
                            ∧ a ≠ "+"%char ∧ a ≠ "_"%char.
Proof.
  destruct a as [[] [] [] [] [] [] [] []]; vm_compute; intros [? ?]; done.
Qed.

Lemma only_digits_spec (s : string) :
  only_digits s = true ↔
  s ≠ "" ∧ ∀ a, a ∈ list_ascii_of_string s → is_Some (Py.digit_of a).
Proof.
  unfold only_digits. rewrite andb_true_iff, negb_true_iff, String.eqb_neq.
  rewrite forallb_forall. split; intros [Hne Hall]; (split; [done|]).
  - intros a Ha. apply list_elem_of_In in Ha.
    exact (proj1 (bool_decide_eq_true _) (Hall a Ha)).
  - intros a Ha. apply bool_decide_eq_true, Hall. by apply list_elem_of_In.
Qed.

Lemma strip_no_space (s : string) :
  (∀ a, a ∈ list_ascii_of_string s → Py.is_space a = false) → Py.strip s = s.
Proof.
  intros Hall. unfold Py.strip.
  assert (Hl : Py.lstrip s = s).
  { destruct s as [|a s]; [done|]. simpl. by rewrite (Hall a) by (simpl; left). }
  rewrite Hl. clear Hl. induction s as [|a s IH]; [done|]. simpl.
  rewrite IH by (intros b Hb; apply Hall; simpl; by right).
  destruct s; [|done]. by rewrite (Hall a) by (simpl; left).
Qed.

Lemma contains_colon (m s : string) : Py.contains ":" (m ++ ":" ++ s) = true.
Proof.
  induction m as [|a m IH].
  - by destruct s.
  - change (Py.contains ":" (String a m ++ ":" ++ s))
      with (String.prefix ":" (String a (m ++ ":" ++ s)) || Py.contains ":" (m ++ ":" ++ s)).
    rewrite IH. by rewrite orb_true_r.
Qed.

Lemma split_no_sep (sep : ascii) (s : string) :
  (∀ a, a ∈ list_ascii_of_string s → a ≠ sep) → Py.split sep s = [s].
Proof.
  induction s as [|a s IH]; intros Hall; [done|]. simpl.
  rewrite (proj2 (Ascii.eqb_neq a sep)) by (apply Hall; simpl; left).
  by rewrite IH by (intros b Hb; apply Hall; simpl; by right).
Qed.

Lemma split_at_sep (sep : ascii) (m s : string) :
  (∀ a, a ∈ list_ascii_of_string m → a ≠ sep) →
  Py.split sep (m ++ String sep s) = m :: Py.split sep s.
Proof.
  induction m as [|a m IH]; intros Hall; simpl.
  - by rewrite Ascii.eqb_refl.
  - rewrite (proj2 (Ascii.eqb_neq a sep)) by (apply Hall; simpl; left).
    by rewrite IH by (intros b Hb; apply Hall; simpl; by right).
Qed.

Lemma digitpart_go_digits (s : string) (acc cnt : Z) :
  (∀ a, a ∈ list_ascii_of_string s → is_Some (Py.digit_of a)) → 0 ≤ acc →
  ∃ v, Py.digitpart_go s acc cnt false = Some (v, cnt + Z.of_nat (String.length s))
       ∧ 0 ≤ v.
Proof.
  revert acc cnt. induction s as [|a s IH]; intros acc cnt Hall Hacc; simpl.
  - exists acc. split; [f_equal; f_equal; lia|done].
  - destruct (Hall a) as [d Hd]; [simpl; left|]. rewrite Hd.
    assert (0 ≤ d).
    { unfold Py.digit_of in Hd. destruct (_ && _) eqn:E; [|done].
      injection Hd as <-. apply andb_true_iff in E as [E _].
      apply Nat.leb_le in E. lia. }
    destruct (IH (10 * acc + d) (cnt + 1)) as (v & Hv & Hv0);
      [intros b Hb; apply Hall; simpl; by right|lia|].
    exists v. split; [|done]. rewrite Hv. f_equal. f_equal. lia.
Qed.

Lemma int_of_digits (s : string) :
  only_digits s = true → Z.of_nat (String.length s) ≤ Py.MAX_STR_DIGITS →
  ∃ v, Py.int_of_str s = Some v ∧ 0 ≤ v.
Proof.
  intros [Hne Hall]%only_digits_spec Hlen. unfold Py.int_of_str.
  rewrite strip_no_space by (intros a Ha; by apply digit_not_space, Hall).
  destruct s as [|a s]; [done|].
  assert (Ha : is_Some (Py.digit_of a)) by (apply Hall; simpl; left).
  destruct (digit_not_space a Ha) as (_ & _ & Hminus & Hplus & _).
  assert (Hsign : Py.sign_of (String a s) = (false, String a s)).
  { unfold Py.sign_of. destruct a as [[] [] [] [] [] [] [] []]; done. }
  rewrite Hsign. unfold Py.digitpart.
  destruct (digitpart_go_digits (String a s) 0 0 Hall ltac:(lia)) as (v & Hv & Hv0).
  rewrite Hv. cbn [mbind option_bind]. rewrite Z.add_0_l.
  rewrite (proj2 (Z.ltb_ge _ _)) by exact Hlen. eauto.
Qed.

(** X20. On a text [minutes:seconds] whose two parts are plain decimal
    digits (ASCII, at least one, and no more than the 4300 that [int]
    converts), [time_to_seconds] of both pipelines,
    [parse_duration_seconds] and [parse_score] agree: each gives 60 times
    the minutes plus the seconds. *)
Theorem minutes_seconds_parsed (m s : string) :
  only_digits m = true → only_digits s = true →
  Z.of_nat (String.length m) ≤ Py.MAX_STR_DIGITS →
  Z.of_nat (String.length s) ≤ Py.MAX_STR_DIGITS →
  ∃ a b, Py.int_of_str m = Some a ∧ Py.int_of_str s = Some b ∧ 0 ≤ a ∧ 0 ≤ b ∧
    Current_time.time_to_seconds (Py.VStr (m ++ ":" ++ s)) = a * 60 + b ∧
    Backup_time.time_to_seconds (Py.VStr (m ++ ":" ++ s)) = a * 60 + b ∧
    parse_duration_seconds (m ++ ":" ++ s) = a * 60 + b ∧
    Current_time.parse_score (m ++ ":" ++ s) = (a * 60 + b, (m ++ ":" ++ s)%string).
Proof.
  intros Hm Hs Hmlen Hslen.
  destruct (int_of_digits m Hm Hmlen) as (a & Ha & Ha0).
  destruct (int_of_digits s Hs Hslen) as (b & Hb & Hb0).
  exists a, b. split; [done|]. split; [done|]. split; [done|]. split; [done|].
  apply only_digits_spec in Hm as [Hmne Hmd]. apply only_digits_spec in Hs as [Hsne Hsd].
  set (t := (m ++ ":" ++ s)%string).
  assert (Hstrip : Py.strip t = t).
  { apply strip_no_space. intros c Hc. unfold t in Hc.
    assert (Hc' : c ∈ list_ascii_of_string m ∨ c = ":"%char ∨ c ∈ list_ascii_of_string s).
    { clear -Hc. induction m as [|x m IH]; simpl in *.
      - apply elem_of_cons in Hc as [->|Hc]; auto.
      - apply elem_of_cons in Hc as [->|Hc]; [left; left|].
        destruct (IH Hc) as [?|[?|?]]; auto. left. by right. }
    destruct Hc' as [Hc'|[->|Hc']]; [by apply digit_not_space, Hmd|done
                                     |by apply digit_not_space, Hsd]. }
  assert (Hsplit : Py.split ":" t = [m; s]).
  { unfold t. change (":" ++ s)%string with (String ":" s).
    rewrite split_at_sep by (intros c Hc; by apply digit_not_space, Hmd).
    by rewrite split_no_sep by (intros c Hc; by apply digit_not_space, Hsd). }
  assert (Hne : String.eqb t "" = false).
  { apply String.eqb_neq. unfold t. by destruct m. }
  assert (Hcol : Py.contains ":" t = true) by apply contains_colon.
  split_and!.
  - unfold Current_time.time_to_seconds. simpl. rewrite Hne. simpl.
    unfold Current_time.time_to_seconds_str. rewrite Hstrip, Hcol, Hsplit, Ha, Hb. done.
  - unfold Backup_time.time_to_seconds. simpl. rewrite Hne. simpl.
    unfold Backup_time.time_to_seconds_str, Backup_time.int_or_zero.
    rewrite Hstrip, Hcol, Hsplit.
    rewrite (proj2 (String.eqb_neq m "")) by done.
    rewrite (proj2 (String.eqb_neq s "")) by done. rewrite Ha, Hb. done.
  - unfold parse_duration_seconds. rewrite Hne, Hsplit, Ha, Hb. done.
  - unfold Current_time.parse_score. rewrite Hstrip, Hcol, Hsplit, Ha, Hb. done.
Qed.

Lemma minutes_seconds_parsed_witness :
  ∃ a b, Py.int_of_str "1" = Some a ∧ Py.int_of_str "53" = Some b ∧ 0 ≤ a ∧ 0 ≤ b ∧
    Current_time.time_to_seconds (Py.VStr "1:53") = a * 60 + b ∧
    Backup_time.time_to_seconds (Py.VStr "1:53") = a * 60 + b ∧
    parse_duration_seconds "1:53" = a * 60 + b ∧
    Current_time.parse_score "1:53" = (a * 60 + b, "1:53").
Proof.
  apply (minutes_seconds_parsed "1" "53"); [reflexivity|reflexivity|..];
    unfold Py.MAX_STR_DIGITS; simpl; lia.
Defined.

(** X21. A duration without a colon, as plain seconds would be written,
    parses to 0: the game then counts as shorter than the minimum and
    [is_game_long_enough] is false. *)
Theorem duration_without_colon (f : game_file) (row : details_row) :
  gf_details f = Some row →
  (∀ a, a ∈ list_ascii_of_string (dr_duration row) → a ≠ ":"%char) →
  parse_duration_seconds (dr_duration row) = 0 ∧ is_game_long_enough f = false.
Proof.
  intros Hrow Hno.
  assert (H0 : parse_duration_seconds (dr_duration row) = 0).
  { unfold parse_duration_seconds. destruct (String.eqb _ ""); [done|].
    by rewrite split_no_sep. }
  split; [done|]. unfold is_game_long_enough, get_game_duration_seconds.
  by rewrite Hrow, H0.
Qed.

Lemma duration_without_colon_witness :
  parse_duration_seconds (dr_duration seconds_row) = 0 ∧
  is_game_long_enough seconds_file = false.
Proof.
  apply (duration_without_colon seconds_file seconds_row eq_refl).
  intros a Ha. simpl in Ha.
  repeat (apply elem_of_cons in Ha as [->|Ha]; [done|]).
  by apply elem_of_nil in Ha.
Defined.

(** *** Bot sessions *)

Lemma session_matches_spec (game_dt : Z) (game_ids : list string)
    (m : Sessions.bot_session) :
  Sessions.session_matches game_dt game_ids m = true ↔
  in_window game_dt m ∧ ids_agree game_ids m.
Proof.
  unfold Sessions.session_matches, in_window, ids_agree.
  destruct (Sessions.bs_start m) as [start|]; [|split; [done|by intros [(? & ? & _) _]]].
  destruct (Z.ltb_spec game_dt (start - Sessions.FIVE_HOURS - Sessions.FIVE_MINUTES))
    as [Hlt|Hge].
  { split; [done|]. intros [(st & [= <-] & Hst & _) _]. lia. }
  assert (Hend : (match Sessions.bs_end m with
                  | Some e => (e - Sessions.FIVE_HOURS + Sessions.FIVE_MINUTES) <? game_dt
                  | None => false
                  end) = false ↔
                 ∀ e, Sessions.bs_end m = Some e →
                      game_dt ≤ e - Sessions.FIVE_HOURS + Sessions.FIVE_MINUTES).
  { destruct (Sessions.bs_end m) as [e|]; [|split; [by intros _ e'|done]].
    rewrite Z.ltb_ge. split; [by intros H e' [= <-]|intros H; by apply H]. }
  destruct (match Sessions.bs_end m with Some e => _ | None => false end).
  { split; [done|]. intros [(st & _ & _ & He) _]. apply Hend in He. done. }
  assert (Hids : negb (bool_decide (game_ids = []))
                 && negb (bool_decide (Sessions.bs_player_ids m = []))
                 && negb (existsb (λ i, mem i (Sessions.bs_player_ids m)) game_ids) = false
                 ↔ game_ids = [] ∨ Sessions.bs_player_ids m = [] ∨
                   ∃ i, i ∈ game_ids ∧ i ∈ Sessions.bs_player_ids m).
  { rewrite !andb_false_iff, !negb_false_iff, !bool_decide_eq_true, existsb_exists.
    split.
    - intros [[?|?]|(i & Hi & Hm)]; auto. right. right. exists i.
      split; [by apply list_elem_of_In|by apply bool_decide_eq_true in Hm].
    - intros [?|[?|(i & Hi & Hm)]]; auto. right. exists i.
      split; [by apply list_elem_of_In|by apply bool_decide_eq_true]. }
  destruct (negb (bool_decide (game_ids = [])) && _ && _).
  - split; [done|]. intros [_ Hag]. apply Hids in Hag. done.
  - split; [|done]. intros _. split.
    + exists start. split; [done|]. split; [lia|]. by apply Hend.
    + by apply Hids.
Qed.

(** X22. [find_match_for_game] returns the first session of the bot's
    history whose window holds the start of the game and whose player IDs
    the game does not speak against; it returns none when the start time of
    the game cannot be parsed.  The players are only checked when a player
    of the game resolves to an ID and the session lists IDs: a game none of
    whose players is resolved is matched by its time alone. *)
Theorem find_match_for_game_spec (game_dt : option Z)
    (all_matches : list Sessions.bot_session) (game_players : list string)
    (ingame_to_discord_id : gmap string string) :
  let ids := Sessions.game_discord_ids ingame_to_discord_id game_players in
  (game_dt = None →
     Sessions.find_match_for_game game_dt all_matches game_players ingame_to_discord_id
     = None) ∧
  (∀ dt m, game_dt = Some dt →
     Sessions.find_match_for_game game_dt all_matches game_players ingame_to_discord_id
     = Some m →
     in_window dt m ∧ ids_agree ids m ∧
     ∃ before after, all_matches = before ++ m :: after ∧
       ∀ m', m' ∈ before → ¬ (in_window dt m' ∧ ids_agree ids m')) ∧
  (∀ dt, game_dt = Some dt →
     Sessions.find_match_for_game game_dt all_matches game_players ingame_to_discord_id
     = None →
     ∀ m, m ∈ all_matches → ¬ (in_window dt m ∧ ids_agree ids m)).
Proof.
  simpl. split; [by intros ->|]. split.
  - intros dt m -> Hf. simpl in Hf.
    set (ids := Sessions.game_discord_ids ingame_to_discord_id game_players) in *.
    clearbody ids. induction all_matches as [|x l IH]; [done|]. simpl in Hf.
    destruct (Sessions.session_matches dt ids x) eqn:Hx.
    + injection Hf as ->. apply session_matches_spec in Hx as [Hw Hi].
      split; [done|]. split; [done|]. exists [], l. split; [done|].
      by intros m' ?%elem_of_nil.
    + destruct (IH Hf) as (Hw & Hi & before & after & -> & Hbefore).
      split; [done|]. split; [done|]. exists (x :: before), after. split; [done|].
      intros m' [->|Hm']%elem_of_cons; [|by apply Hbefore].
      rewrite <- session_matches_spec. by rewrite Hx.
  - intros dt -> Hf m Hm. simpl in Hf.
    rewrite <- session_matches_spec.
    apply list_elem_of_In in Hm. pose proof (find_none _ _ Hf m Hm) as Hn.
    by rewrite Hn.
Qed.

(** *** The tally *)

Lemma cell_before_tally (t : tracking) (n q : string) :
  tracking_wf t → tally_ok t →
  0 ≤ get2_default (player_playlist_wins t) n q 0 ∧
  0 ≤ get2_default (player_playlist_losses t) n q 0 ∧
  get2_default (player_playlist_wins t) n q 0 + get2_default (player_playlist_losses t) n q 0
  ≤ get2_default (player_playlist_games t) n q 0.
Proof.
  intros (Hw & Hl & Hg & _) Htally. unfold get2_default.
  pose proof (shape_eq_cell _ _ n q Hw) as Hw'.
  pose proof (shape_eq_cell _ _ n q Hl) as Hl'.
  pose proof (shape_eq_cell _ _ n q Hg) as Hg'.
  destruct (get2 (player_playlist_wins t) n q) as [w|] eqn:Ew.
  - destruct (proj1 Hw' (mk_is_Some _ _ eq_refl)) as [x Hx].
    destruct (proj2 Hl' (mk_is_Some _ _ Hx)) as [l El].
    destruct (proj2 Hg' (mk_is_Some _ _ Hx)) as [g Eg].
    rewrite El, Eg. simpl. by apply (Htally n q).
  - destruct (get2 (player_playlist_losses t) n q) as [l|] eqn:El.
    { destruct (proj1 Hl' (mk_is_Some _ _ eq_refl)) as [x Hx].
      by destruct (proj2 Hw' (mk_is_Some _ _ Hx)). }
    destruct (get2 (player_playlist_games t) n q) as [g|] eqn:Eg.
    { destruct (proj1 Hg' (mk_is_Some _ _ eq_refl)) as [x Hx].
      by destruct (proj2 Hw' (mk_is_Some _ _ Hx)). }
    simpl. lia.
Qed.

Lemma replay_player_tally (cfg : xp_config) (W L : list string) (q : string)
    (t t' : tracking) (p : player) :
  tracking_wf t ∧ tally_ok t → Replay.replay_player cfg W L q t p = Some t' →
  tracking_wf t' ∧ tally_ok t'.
Proof.
  intros [Hwf Htally] Hrun.
  destruct (is_dedicated_server (p_name p)) eqn:Hded.
  { rewrite replay_player_skip in Hrun by (by left). by injection Hrun as <-. }
  destruct (player_playlist_xp t !! p_name p) as [inner|] eqn:Hin.
  2:{ rewrite replay_player_skip in Hrun by (by right). by injection Hrun as <-. }
  pose proof (replay_player_spec cfg W L q t p Hwf Hded (mk_is_Some _ _ Hin)) as Hspec.
  pose proof (cell_before_tally t (p_name p) q Hwf Htally) as (Hw0 & Hl0 & Hsum).
  unfold cell_before in Hspec.
  set (w0 := get2_default (player_playlist_wins t) (p_name p) q 0) in *.
  set (l0 := get2_default (player_playlist_losses t) (p_name p) q 0) in *.
  set (g0 := get2_default (player_playlist_games t) (p_name p) q 0) in *.
  destruct (result_cell cfg W L (p_name p) _ _) as [[[[x' w'] l'] g']|] eqn:Hcell;
    [|by rewrite Hspec in Hrun].
  destruct Hspec as (t1 & Ht1 & Hwf' & _ & _ & _ & Hwins & Hlosses & Hgames).
  rewrite Ht1 in Hrun. injection Hrun as <-. split; [done|].
  assert (Hnew : 0 ≤ w' ∧ 0 ≤ l' ∧ w' + l' ≤ g').
  { unfold result_cell in Hcell.
    destruct (mem (p_name p) W).
    - destruct (win_xp_change cfg _); [|done]. simpl in Hcell.
      destruct (win_percent cfg _); [|done]. simpl in Hcell. simplify_eq. lia.
    - destruct (mem (p_name p) L).
      + destruct (loss_xp_change cfg _); [|done]. simpl in Hcell.
        destruct (loss_percent cfg _); [|done]. simpl in Hcell. simplify_eq. lia.
      + simplify_eq. lia. }
  intros n' q' w l g Hw Hl Hg. rewrite Hwins in Hw. rewrite Hlosses in Hl.
  rewrite Hgames in Hg. case_decide; [by simplify_eq|]. by apply (Htally n' q').
Qed.

(** X23. The replay of the ranked matches keeps the tally of every player
    in every playlist sound: from aligned accumulators in which wins and
    losses are not negative and do not exceed the games, a replay that runs
    to its end leaves wins and losses not negative and their sum at most the
    games (a row counts one game and at most one of a win and a loss). *)
Theorem replay_keeps_tally (cfg : xp_config) (t t' : tracking) (games : list game) :
  tracking_wf t → tally_ok t →
  Replay.replay cfg t games = Some t' →
  tracking_wf t' ∧ tally_ok t'.
Proof.
  intros Hwf Htally Hrun. unfold Replay.replay in Hrun.
  eapply (foldlM_keeps (Replay.replay_game cfg) (λ t, tracking_wf t ∧ tally_ok t));
    [|split; eassumption|exact Hrun].
  clear. intros t g t' Ht Hg. unfold Replay.replay_game in Hg.
  destruct (determine_winners_losers g) as [W L].
  destruct (g_playlist g) as [q|]; [|by injection Hg as <-].
  destruct (String.eqb q ""); [by injection Hg as <-|].
  eapply (foldlM_keeps (Replay.replay_player cfg W L q)
            (λ t, tracking_wf t ∧ tally_ok t)); [|exact Ht|exact Hg].
  intros a b a' Ha Hb. by eapply replay_player_tally.
Qed.

Lemma fresh_two_tally : tally_ok fresh_two.
Proof.
  intros n q w l g Hw _ _. unfold get2, fresh_two in Hw. cbn [player_playlist_wins] in Hw.
  destruct (decide (n = "Ace")) as [->|].
  { rewrite lookup_insert_eq in Hw. simpl in Hw. by rewrite lookup_empty in Hw. }
  rewrite lookup_insert_ne in Hw by done.
  destruct (decide (n = "Cat")) as [->|].
  { rewrite lookup_singleton_eq in Hw. simpl in Hw. by rewrite lookup_empty in Hw. }
  by rewrite lookup_singleton_ne in Hw.
Qed.

Lemma replay_keeps_tally_witness :
  ∃ t', Replay.replay sample_config fresh_two losing_streak = Some t' ∧
        get2 (player_playlist_wins t') "Cat" "Head to Head" = Some 3 ∧
        get2 (player_playlist_games t') "Cat" "Head to Head" = Some 3 ∧
        tracking_wf t' ∧ tally_ok t'.
Proof.
  exists (default empty_tracking (Replay.replay sample_config fresh_two losing_streak)).
  assert (Hrun : Replay.replay sample_config fresh_two losing_streak
                 = Some (default empty_tracking
                           (Replay.replay sample_config fresh_two losing_streak)))
    by (vm_compute; reflexivity).
  split; [exact Hrun|]. split; [vm_compute; reflexivity|].
  split; [vm_compute; reflexivity|].
  exact (replay_keeps_tally sample_config fresh_two _ losing_streak
           fresh_two_wf fresh_two_tally Hrun).
Defined.

(** *** Identities *)

Section Identities.
Variable py_hash : string → Z.
Variable incremental_mode : bool.
Variable saved : gmap string saved_state.
Variable macs : gmap string string.

Lemma identify_player_id (ident : gmap string string) (r : registry) (p : player)
    (name : string) :
  player_to_id (Identity.identify_player py_hash incremental_mode saved macs ident r p)
    !! name
  = match player_to_id r !! name with
    | Some u => Some u
    | None =>
        if bool_decide (p_name p = name) && negb (is_dedicated_server name)
        then Some (assigned_id py_hash macs ident name) else None
    end.
Proof.
  unfold Identity.identify_player, assigned_id.
  destruct (decide (p_name p = name)) as [<-|Hne].
  - rewrite bool_decide_eq_true_2 by done.
    destruct (is_dedicated_server (p_name p)); [by destruct (player_to_id r !! p_name p)|].
    destruct (player_to_id r !! p_name p) as [u|] eqn:Hu; simpl; [done|].
    destruct (truthy_id _); simpl; by rewrite lookup_insert_eq.
  - rewrite bool_decide_eq_false_2 by done.
    destruct (is_dedicated_server (p_name p)); [by destruct (player_to_id r !! name)|].
    destruct (player_to_id r !! p_name p) as [u|] eqn:Hu; simpl;
      [by destruct (player_to_id r !! name)|].
    destruct (truthy_id _); simpl; rewrite lookup_insert_ne by done;
      by destruct (player_to_id r !! name).
Qed.

Lemma identify_rows_keeps (ident : gmap string string) (ps : list player) (r : registry)
    (name u : string) :
  player_to_id r !! name = Some u →
  player_to_id
    (foldl (Identity.identify_player py_hash incremental_mode saved macs ident) r ps)
    !! name = Some u.
Proof.
  revert r. induction ps as [|p ps IH]; intros r Hr; simpl; [done|].
  apply IH. by rewrite identify_player_id, Hr.
Qed.

Lemma identify_game_keeps (g : game) (r : registry) (name u : string) :
  player_to_id r !! name = Some u →
  player_to_id (Identity.identify_game py_hash incremental_mode saved macs r g) !! name
  = Some u.
Proof. apply identify_rows_keeps. Qed.

Lemma identify_keeps (games : list game) (r : registry) (name u : string) :
  player_to_id r !! name = Some u →
  player_to_id (Identity.identify py_hash incremental_mode saved macs r games) !! name
  = Some u.
Proof.
  unfold Identity.identify. revert r.
  induction games as [|g games IH]; intros r Hr; simpl; [done|].
  apply IH. by apply identify_game_keeps.
Qed.

Lemma identify_game_absent (g : game) (r : registry) (name : string) :
  player_to_id r !! name = None → ¬ plays_in name g →
  player_to_id (Identity.identify_game py_hash incremental_mode saved macs r g) !! name
  = None.
Proof.
  unfold Identity.identify_game, plays_in. generalize (g_players g). intros ps. revert r.
  induction ps as [|p ps IH]; intros r Hr Hno; simpl; [done|].
  apply IH.
  - rewrite identify_player_id, Hr.
    rewrite bool_decide_eq_false_2; [done|].
    intros Hp. apply Hno. exists p. split; [apply elem_of_cons; by left|done].
  - intros (p' & Hp' & Hn). apply Hno. exists p'. split; [apply elem_of_cons; by right|done].
Qed.

Lemma identify_game_assigns (g : game) (r : registry) (name : string) :
  player_to_id r !! name = None → is_dedicated_server name = false → plays_in name g →
  player_to_id (Identity.identify_game py_hash incremental_mode saved macs r g) !! name
  = Some (assigned_id py_hash macs (g_identity g) name).
Proof.
  unfold Identity.identify_game, plays_in. generalize (g_identity g) (g_players g).
  intros ident ps. revert r.
  induction ps as [|p ps IH]; intros r Hr Hded (p' & Hp' & Hn).
  { by apply elem_of_nil in Hp'. }
  simpl. destruct (decide (p_name p = name)) as [Hp|Hp].
  - apply identify_rows_keeps.
    rewrite identify_player_id, Hr, Hded. by rewrite bool_decide_eq_true_2.
  - apply IH; [|done|].
    + rewrite identify_player_id, Hr. by rewrite bool_decide_eq_false_2.
    + apply elem_of_cons in Hp' as [->|Hp']; [done|]. by exists p'.
Qed.

End Identities.

(** X24. In step 3 of [main] the first match in which a name plays fixes
    the identity of the name for the run: a name that has an identity keeps
    it through every later match, and a name without one (that is no
    dedicated server) gets, at its first match, the Discord ID that the
    identity file of that match gives through the address registry, or the
    temporary ID of its hash; the identity files of later matches are not
    asked about the name. *)
Theorem first_match_fixes_identity (py_hash : string → Z) (incremental_mode : bool)
    (saved : gmap string saved_state) (macs : gmap string string)
    (r : registry) (before after : list game) (g : game) (name : string) :
  is_dedicated_server name = false →
  (∀ g', g' ∈ before → ¬ plays_in name g') →
  plays_in name g →
  player_to_id
    (Identity.identify py_hash incremental_mode saved macs r (before ++ g :: after)) !! name
  = Some (default (assigned_id py_hash macs (g_identity g) name) (player_to_id r !! name)).
Proof.
  intros Hded Hbefore Hg.
  destruct (player_to_id r !! name) as [u|] eqn:Hu; simpl.
  { by apply identify_keeps. }
  unfold Identity.identify. rewrite foldl_app. simpl.
  apply (identify_keeps py_hash incremental_mode saved macs after).
  apply identify_game_assigns; [|done|done].
  clear Hg. revert r Hu.
  induction before as [|g' before IH]; intros r Hu; simpl; [done|].
  apply IH.
  - intros g'' Hg''. apply Hbefore. apply elem_of_cons. by right.
  - apply identify_game_absent; [done|]. apply Hbefore. apply elem_of_cons. by left.
Qed.

Lemma first_match_fixes_identity_witness :
  player_to_id
    (Identity.identify (λ _, 7) false ∅ address_registry
       {| all_player_names := ∅; player_to_id := ∅; rankstats := ∅; tr := empty_tracking |}
       ([session_duel "20251201_200000.xlsx" "Dan" "Cat"]
        ++ session_duel "20251201_201500.xlsx" "Ace" "Cat" :: [swapped_duel])) !! "Ace"
  = Some "210187331066396672".
Proof.
  etrans; [apply (first_match_fixes_identity (λ _, 7) false ∅ address_registry
           {| all_player_names := ∅; player_to_id := ∅; rankstats := ∅;
              tr := empty_tracking |}
           [session_duel "20251201_200000.xlsx" "Dan" "Cat"]
           [swapped_duel] (session_duel "20251201_201500.xlsx" "Ace" "Cat") "Ace")
          |vm_compute; reflexivity].
  - reflexivity.
  - intros g' Hg' (p & Hp & Hn). apply list_elem_of_singleton in Hg' as ->.
    simpl in Hp. each_row Hp; discriminate Hn.
  - exists (row "Ace" "Red" 15). split; [apply elem_of_cons; by left|reflexivity].
Defined.
